(** * Replication control and semi-sync policy of go/inst/instance_topology_dao.go

    A shallow embedding of the topology DAO: the snapshot data model, the pure
    semi-sync policy functions, and the mutating operations written in a small
    state monad over the external collaborators (the instance reader, the SQL
    primitive, the clock), with a trace of every external call. *)

From stdpp Require Import gmap strings list.
From Stdlib Require Import ZArith String Ascii Lia Sorted.
From Stdlib Require DecimalString.

Local Open Scope string_scope.
Local Open Scope list_scope.
Local Open Scope Z_scope.

(** ** Data model *)

(** [InstanceKey]: the identity of a database instance. *)
Record InstanceKey := mkKey { Hostname : string; Port : Z }.

(** [BinlogCoordinates]: (log file, position). *)
Record BinlogCoordinates := mkCoords { LogFile : string; LogPos : Z }.

(** [OperationGTIDHint] is a string type with three named values. *)
Definition OperationGTIDHint := string.
Definition GTIDHintDeny : OperationGTIDHint := "NoGTID".
Definition GTIDHintNeutral : OperationGTIDHint := "GTIDHintNeutral".
Definition GTIDHintForce : OperationGTIDHint := "GTIDHintForce".

Definition Error1201CouldnotInitializeMasterInfoStructure : string := "Error 1201:".

Record ReplicationCredentials := mkCreds {
  User : string; Password : string; SSLCert : string; SSLKey : string; SSLCaCert : string }.

(** Go's [uint] on the 64-bit targets: arithmetic wraps modulo 2^64. *)
Definition uint (z : Z) : Z := z mod 2 ^ 64.

(** The query string provider of an instance: an interface whose methods take
    no argument and return the statement text for the server's version.  Its
    implementations live outside this file; a provider is the record of the
    texts its methods return. *)
Record QueryStringProvider := mkQSP {
  stop_slave : string;
  start_slave : string;
  stop_slave_io_thread : string;
  start_slave_io_thread : string;
  stop_slave_sql_thread : string;
  start_slave_sql_thread : string;
  start_slave_until_master_log : string;
  reset_slave : string;
  reset_slave_50603_all : string;
  reset_master : string;
  set_sql_slave_skip_counter : string;
  change_master_to_master_host : string;
  change_master_to_master_host_port : string;
  change_master_to_master_host_port_log : string;
  change_master_to_master_host_port_log_gtid_no : string;
  change_master_to_master_host_port_log_autoposition_no : string;
  change_master_to_master_host_port_autoposition_yes : string;
  change_master_to_master_ssl : string;
  change_master_to_get_source_public_key : string;
  change_master_to_with_params : string;
  change_master_to_master_delay : string;
  master_user_param : string;
  master_password_param : string;
  master_ssl_ca_param : string;
  master_ssl_cert_param : string;
  master_ssl_key_param : string;
  master_ssl : string }.

(** [CandidatePromotionRule] is a string type. *)
Definition CandidatePromotionRule := string.
Definition MustNotPromoteRule : CandidatePromotionRule := "must_not".

(** Operands of the formatting verbs and of the SQL placeholders. *)
Inductive Operand :=
| OStr (s : string)
| OInt (z : Z)
| OBool (b : bool)
| OKey (k : InstanceKey)        (* an InstanceKey value, *instanceKey *)
| OKeyPtr (k : InstanceKey)     (* a *InstanceKey *)
| OCoords (c : BinlogCoordinates)
| OErr (msg : string).

(** Go's [error]: either built here by fmt.Errorf / log.Errorf (the format and
    its operands are kept as written in the source), or an error value handed
    back by a collaborator, known by its message. *)
Inductive error :=
| Errorf (format : string) (operands : list Operand)
| ErrorString (msg : string).

(** A snapshot of one server, as produced by the external reader.  The fields
    are those this file reads.  The methods of [Instance] that this file calls
    (IsReplica, ReplicationThreadsExist, ReplicationThreadsStopped,
    ReplicaRunning, IsMariaDB, isMaxScale, SQLThreadUpToDate, NextGTID) are
    declared with the type, outside this file: a snapshot carries what each of
    them returns on it. *)
Record Instance := mkInstance {
  Key : InstanceKey;
  MasterKey : InstanceKey;
  ServerID : Z;
  ClusterName : string;
  ReadOnly : bool;
  ReplicationIOThreadRuning : bool;
  ReplicationSQLThreadRuning : bool;
  SelfBinlogCoordinates : BinlogCoordinates;
  ExecBinlogCoordinates : BinlogCoordinates;
  SQLDelay : Z;
  LastSQLError : string;
  IsLastCheckValid : bool;
  UsingOracleGTID : bool;
  SupportsOracleGTID : bool;
  UsingMariaDBGTID : bool;
  SemiSyncPriority : Z;
  SemiSyncMasterEnabled : bool;
  SemiSyncReplicaEnabled : bool;
  SemiSyncMasterPluginNewVersion : bool;
  SemiSyncReplicaPluginNewVersion : bool;
  SemiSyncMasterWaitForReplicaCount : Z;
  SemiSyncMasterClients : Z;
  PromotionRule : CandidatePromotionRule;
  Replicas : list InstanceKey;
  QSP : QueryStringProvider;
  (* results of the methods *)
  IsReplica : bool;
  ReplicationThreadsExist : bool;
  ReplicationThreadsStopped : bool;
  ReplicaRunning : bool;
  IsMariaDB : bool;
  isMaxScale : bool;
  SQLThreadUpToDate : bool;
  NextGTID : string * option error }.

(** A [*Instance].  Maps keyed by [*Instance] compare keys by address; the
    snapshot is what the pointer refers to. *)
Record InstancePtr := mkPtr { addr : positive; deref : Instance }.

(** ** Semi-sync policy engine (pure) *)

Module SemiSync.

(** The action set, [map[*Instance]bool]: true = enable semi-sync,
    false = disable semi-sync. *)
Abbreviation Actions := (gmap positive bool).

(** Body of the loop over [possibleSemiSyncReplicas] in
    determineSemiSyncReplicaActionsForExactTopology; [i] is the loop index. *)
Fixpoint exactTopologyLoop (waitCount : Z) (i : nat)
    (possibleSemiSyncReplicas : list InstancePtr) (actions : Actions) : Actions :=
  match possibleSemiSyncReplicas with
  | [] => actions
  | replica :: rest =>
      let isSemiSyncEnabled := SemiSyncReplicaEnabled (deref replica) in
      let shouldSemiSyncBeEnabled := uint (Z.of_nat i) <? waitCount in
      let actions :=
        if shouldSemiSyncBeEnabled && negb isSemiSyncEnabled
        then <[addr replica := true]> actions
        else if negb shouldSemiSyncBeEnabled && isSemiSyncEnabled
        then <[addr replica := false]> actions
        else actions in
      exactTopologyLoop waitCount (S i) rest actions
  end.

(** Body of the loop over [asyncReplicas]. *)
Fixpoint asyncLoop (asyncReplicas : list InstancePtr) (actions : Actions) : Actions :=
  match asyncReplicas with
  | [] => actions
  | replica :: rest =>
      asyncLoop rest
        (if SemiSyncReplicaEnabled (deref replica)
         then <[addr replica := false]> actions else actions)
  end.

Definition determineSemiSyncReplicaActionsForExactTopology (masterInstance : Instance)
    (possibleSemiSyncReplicas asyncReplicas : list InstancePtr) : Actions :=
  let actions := exactTopologyLoop (SemiSyncMasterWaitForReplicaCount masterInstance) 0
                   possibleSemiSyncReplicas ∅ in
  asyncLoop asyncReplicas actions.

(** Body of the loop of determineSemiSyncReplicaActionsForEnoughTopology:
    [threshold] is SemiSyncMasterWaitForReplicaCount - SemiSyncMasterClients
    computed on [uint], [enabled] the counter. *)
Fixpoint enoughTopologyLoop (threshold : Z) (possibleSemiSyncReplicas : list InstancePtr)
    (enabled : Z) (actions : Actions) : Actions :=
  match possibleSemiSyncReplicas with
  | [] => actions
  | replica :: rest =>
      let '(actions, enabled) :=
        if negb (SemiSyncReplicaEnabled (deref replica))
        then (<[addr replica := true]> actions, uint (enabled + 1))
        else (actions, enabled) in
      if enabled =? threshold then actions
      else enoughTopologyLoop threshold rest enabled actions
  end.

Definition determineSemiSyncReplicaActionsForEnoughTopology (masterInstance : Instance)
    (possibleSemiSyncReplicas : list InstancePtr) : Actions :=
  enoughTopologyLoop
    (uint (SemiSyncMasterWaitForReplicaCount masterInstance - SemiSyncMasterClients masterInstance))
    possibleSemiSyncReplicas 0 ∅.

Definition determineSemiSyncReplicaActions (masterInstance : Instance)
    (possibleSemiSyncReplicas asyncReplicas : list InstancePtr)
    (exactReplicaTopology : bool) : Actions :=
  if exactReplicaTopology
  then determineSemiSyncReplicaActionsForExactTopology masterInstance
         possibleSemiSyncReplicas asyncReplicas
  else determineSemiSyncReplicaActionsForEnoughTopology masterInstance
         possibleSemiSyncReplicas.

End SemiSync.

(** ** Formatting and errors *)

Definition decimal (z : Z) : string :=
  DecimalString.NilZero.string_of_int (Z.to_int z).

(** [InstanceKey.String]: hostname:port. *)
Definition InstanceKey_String (k : InstanceKey) : string :=
  Hostname k +:+ ":" +:+ decimal (Port k).

(** [InstanceKey.Equals]. *)
Definition InstanceKey_Equals (a b : InstanceKey) : bool :=
  String.eqb (Hostname a) (Hostname b) && (Port a =? Port b).

Definition dquote : string := String (Ascii.ascii_of_nat 34) EmptyString.

(** What a formatting verb prints for an operand. *)
Definition render (verb : ascii) (o : Operand) : string :=
  match o with
  | OStr s => if Ascii.eqb verb "q" then dquote +:+ s +:+ dquote else s
  | OInt z => decimal z
  | OBool b => if b then "true" else "false"
  | OKey k => "{Hostname:" +:+ Hostname k +:+ " Port:" +:+ decimal (Port k) +:+ "}"
  | OKeyPtr k => InstanceKey_String k
  | OCoords c => "{LogFile:" +:+ LogFile c +:+ " LogPos:" +:+ decimal (LogPos c) +:+ "}"
  | OErr msg => msg
  end.

Definition isFlag (c : ascii) : bool :=
  match String.index 0 (String c EmptyString) "+#-. 0123456789" with
  | Some _ => true
  | None => false
  end.

(** The part of fmt.Sprintf this file relies on: the verbs %v %+v %s %q %d %t
    and %%, each verb consuming the next operand. *)
Fixpoint sprintf (inVerb : bool) (format : string) (operands : list Operand) : string :=
  match format with
  | EmptyString => EmptyString
  | String c rest =>
      if inVerb then
        if isFlag c then sprintf true rest operands
        else if Ascii.eqb c "%" then String c (sprintf false rest operands)
        else match operands with
             | o :: operands' => render c o +:+ sprintf false rest operands'
             | [] => "%!" +:+ String c "(MISSING)" +:+ sprintf false rest []
             end
      else if Ascii.eqb c "%" then sprintf true rest operands
      else String c (sprintf false rest operands)
  end.

Definition Sprintf (format : string) (operands : list Operand) : string :=
  sprintf false format operands.

(** [err.Error()]. *)
Definition Error (err : error) : string :=
  match err with
  | Errorf format operands => Sprintf format operands
  | ErrorString msg => msg
  end.

(** [strings.Contains]. *)
Definition Contains (s substr : string) : bool :=
  match String.index 0 substr s with
  | Some _ => true
  | None => false
  end.

(** [strings.Join]. *)
Fixpoint Join (elems : list string) (sep : string) : string :=
  match elems with
  | [] => ""
  | [e] => e
  | e :: rest => e +:+ sep +:+ Join rest sep
  end.

(** The dry-run errors all start with this text. *)
Definition isNoopError (err : error) : bool :=
  match err with
  | Errorf format _ => String.prefix "noop: aborting " format
  | ErrorString _ => false
  end.

(** ** Binlog coordinates *)

(** Modelled from the spec: BinlogCoordinates.Equals and SmallerThan are
    declared with the type, outside this file; they "compare (file-sequence,
    position) lexicographically", the files of one numbering sequence being
    ordered as their names are. *)
Definition Equals (this other : BinlogCoordinates) : bool :=
  String.eqb (LogFile this) (LogFile other) && (LogPos this =? LogPos other).

Definition SmallerThan (this other : BinlogCoordinates) : bool :=
  String.ltb (LogFile this) (LogFile other)
  || (String.eqb (LogFile this) (LogFile other) && (LogPos this <? LogPos other)).

(** ** Configuration, enumerations *)

(** The global settings this file reads: config.RuntimeCLIFlags.Noop, fields
    of config.Config, and the package constant retryInterval. *)
Record Config := mkConfig {
  Noop : bool;
  EnforceExactSemiSyncReplicas : bool;
  RecoverLockedSemiSyncMaster : bool;
  UseSuperReadOnly : bool;
  ReasonableReplicationLagSeconds : Z;
  retryInterval : Z }.

(** Modelled from the spec: the enum StopReplicationMethod {None, Nice, Plain}
    is declared outside this file, which names NoStopReplication and
    StopReplicationNice. *)
Inductive StopReplicationMethod :=
| NoStopReplication
| StopReplicationNormal
| StopReplicationNice.

Definition StopReplicationMethod_eqb (a b : StopReplicationMethod) : bool :=
  match a, b with
  | NoStopReplication, NoStopReplication
  | StopReplicationNormal, StopReplicationNormal
  | StopReplicationNice, StopReplicationNice => true
  | _, _ => false
  end.

Inductive ReplicationThreadState :=
| ReplicationThreadStateStopped
| ReplicationThreadStateRunning.

(** The package variable ReplicationNotRunningError. *)
Definition ReplicationNotRunningError : error :=
  ErrorString "instance is not replicating".

(** Durations in nanoseconds. *)
Definition Millisecond : Z := 1000000.
Definition Second : Z := 1000 * Millisecond.
Definition Hour : Z := 3600 * Second.

(** ** Results, traces and the state monad *)

(** The pair of a [*Instance] and an [error] the operations return: a snapshot with a nil
    error, or an error with whatever snapshot pointer goes with it (possibly
    nil). *)
Inductive Result :=
| Ok (instance : Instance)
| Fail (instance : option Instance) (err : error).

(** The snapshot pointer of a result. *)
Definition instanceOf (r : Result) : option Instance :=
  match r with
  | Ok instance => Some instance
  | Fail instance _ => instance
  end.

Definition errorOf (r : Result) : option error :=
  match r with
  | Ok _ => None
  | Fail _ err => Some err
  end.

(** What a call comes to in a function that dereferences the snapshot pointer
    it holds: it returns its pair, or the pointer is nil and the function
    panics, which unwinds the stack up to the next recover. *)
Inductive Outcome :=
| Returns (r : Result)
| Panics.

(** A line that reads a field of the snapshot of [r], as the log lines at the
    end of StopReplication and StopReplicationNicely do, before [r] is
    returned. *)
Definition logged (r : Result) : Outcome :=
  match instanceOf r with
  | Some _ => Returns r
  | None => Panics
  end.

(** The result returned, if any. *)
Definition returned (o : Outcome) : option Result :=
  match o with
  | Returns r => Some r
  | Panics => None
  end.

(** Max concurrency for bulk topology operations: the capacity of
    topologyConcurrencyChan. *)
Definition topologyConcurrency : nat := 128.

(** Every call that leaves this file is recorded. *)
Inductive Event :=
| EvReadTopologyInstance (key : InstanceKey)
| EvReadTopologyInstances (keys : list InstanceKey)
| EvReadReplicaInstances (masterKey : InstanceKey)
| EvExecInstance (key : InstanceKey) (query : string) (args : list Operand)
| EvEmptyCommitInstance (key : InstanceKey)
| EvUnresolveHostname (key : InstanceKey)
| EvAuditOperation (auditType : string) (key : InstanceKey) (message : string)
| EvWriteMasterPositionEquivalence (master1 : InstanceKey) (c1 : BinlogCoordinates)
    (master2 : InstanceKey) (c2 : BinlogCoordinates)
| EvResetInstanceRelaylogCoordinatesHistory (key : InstanceKey)
| EvExpectReplicationThreadsState (key : InstanceKey) (expected : ReplicationThreadState)
| EvSleep (d : Z).

(** The events that send a statement to a database instance. *)
Definition isStatement (e : Event) : bool :=
  match e with
  | EvExecInstance _ _ _ | EvEmptyCommitInstance _ => true
  | _ => false
  end.

(** The statements of a trace, in order. *)
Definition statements (t : list Event) : list Event := List.filter isStatement t.

Section Dao.

(** The state of everything outside this process: the servers, the backend
    database, the clock. *)
Context {W : Type}.

Record State := mkState { world : W; trace : list Event }.

Definition M (A : Type) : Type := State → A * State.

#[global] Instance M_ret : MRet M := λ A a s, (a, s).
#[global] Instance M_bind : MBind M := λ A B f m s, let '(a, s') := m s in f a s'.
#[global] Instance M_fmap : FMap M := λ A B f m s, let '(a, s') := m s in (f a, s').

(** Run an operation from a world with an empty trace. *)
Definition run {A} (m : M A) (w : W) : A * State := m (mkState w []).

(** A call to a collaborator: the event is appended, the handler moves the world. *)
Definition call {A} (e : Event) (h : W → A * W) : M A :=
  λ s, let '(a, w') := h (world s) in (a, mkState w' (trace s ++ [e])).

(** The code of a goroutine, as the calls it makes one after the other: each
    step is one call, and the rest depends on what the call returned. *)
Inductive Prog (A : Type) : Type :=
| Done (a : A)
| Step {X : Type} (m : M X) (rest : X → Prog A).
Arguments Done {A} a.
Arguments Step {A X} m rest.

Fixpoint Prog_bind {A B} (f : A → Prog B) (p : Prog A) : Prog B :=
  match p with
  | Done a => f a
  | Step m rest => Step m (λ x, Prog_bind f (rest x))
  end.

#[global] Instance Prog_ret : MRet Prog := λ A a, Done a.
#[global] Instance Prog_mbind : MBind Prog := λ A B f p, Prog_bind f p.
#[global] Instance Prog_fmap : FMap Prog := λ A B f p, Prog_bind (λ a, Done (f a)) p.

(** A monad in which a call of this file is one step. *)
Class Steps (T : Type → Type) := atomically : ∀ {A}, M A → T A.

#[global] Instance M_steps : Steps M := λ A m, m.
#[global] Instance Prog_steps : Steps Prog := λ A m, Step m Done.

(** The code of a goroutine run on its own, from its first call to its last. *)
Fixpoint uninterrupted {A} (p : Prog A) : M A :=
  match p with
  | Done a => mret a
  | Step m rest => x ← m; uninterrupted (rest x)
  end.

(** The collaborators of this file, as functions of the world: the snapshot
    readers, the SQL primitive (db.OpenTopology with sqlutils.ExecNoPrepare,
    and with Begin/Commit for the empty commit), hostname unresolving, the
    audit and bookkeeping sinks, the thread state probe
    expectReplicationThreadsState, RetryInstanceFunction, the order of
    promotion rules, SemicolonTerminated, and the clock. *)
Record Env := mkEnv {
  env_ReadTopologyInstance : InstanceKey → W → Result * W;
  env_ReadTopologyInstances : list InstanceKey → W → (list Instance * option error) * W;
  env_ReadReplicaInstances : InstanceKey → W → (list Instance * option error) * W;
  env_Exec : InstanceKey → string → list Operand → W → option error * W;
  env_EmptyCommit : InstanceKey → W → option error * W;
  env_UnresolveHostname : InstanceKey → W → (InstanceKey * bool * option error) * W;
  env_AuditOperation : string → InstanceKey → string → W → W;
  env_WriteMasterPositionEquivalence :
    InstanceKey → BinlogCoordinates → InstanceKey → BinlogCoordinates → W → W;
  env_ResetInstanceRelaylogCoordinatesHistory : InstanceKey → W → W;
  env_expectReplicationThreadsState :
    ∀ (instance : Instance) (instanceKey : InstanceKey) (expected : ReplicationThreadState),
      W → (bool * option error) * W;
  env_RetryInstanceFunction : M Result → M Result;
  env_BetterThan : CandidatePromotionRule → CandidatePromotionRule → bool;
  env_SemicolonTerminated : string → string;
  env_Now : W → Z;
  env_Sleep : Z → W → W }.

Variable env : Env.
Variable config : Config.

(** *** Primitives *)

Definition ReadTopologyInstance (instanceKey : InstanceKey) : M Result :=
  call (EvReadTopologyInstance instanceKey) (env_ReadTopologyInstance env instanceKey).

Definition ReadTopologyInstances (keys : list InstanceKey) : M (list Instance * option error) :=
  call (EvReadTopologyInstances keys) (env_ReadTopologyInstances env keys).

Definition ReadReplicaInstances (masterKey : InstanceKey) : M (list Instance * option error) :=
  call (EvReadReplicaInstances masterKey) (env_ReadReplicaInstances env masterKey).

(** ExecInstance executes a given query on the given MySQL topology instance. *)
Definition ExecInstance (instanceKey : InstanceKey) (query : string) (args : list Operand)
    : M (option error) :=
  call (EvExecInstance instanceKey query args) (env_Exec env instanceKey query args).

(** EmptyCommitInstance issues an empty COMMIT on a given instance. *)
Definition EmptyCommitInstance (instanceKey : InstanceKey) : M (option error) :=
  call (EvEmptyCommitInstance instanceKey) (env_EmptyCommit env instanceKey).

Definition UnresolveHostname (key : InstanceKey) : M (InstanceKey * bool * option error) :=
  call (EvUnresolveHostname key) (env_UnresolveHostname env key).

Definition AuditOperation (auditType : string) (key : InstanceKey) (message : string) : M unit :=
  call (EvAuditOperation auditType key message)
       (λ w, (tt, env_AuditOperation env auditType key message w)).

Definition WriteMasterPositionEquivalence (master1 : InstanceKey) (c1 : BinlogCoordinates)
    (master2 : InstanceKey) (c2 : BinlogCoordinates) : M unit :=
  call (EvWriteMasterPositionEquivalence master1 c1 master2 c2)
       (λ w, (tt, env_WriteMasterPositionEquivalence env master1 c1 master2 c2 w)).

Definition ResetInstanceRelaylogCoordinatesHistory (key : InstanceKey) : M unit :=
  call (EvResetInstanceRelaylogCoordinatesHistory key)
       (λ w, (tt, env_ResetInstanceRelaylogCoordinatesHistory env key w)).

Definition expectReplicationThreadsState (instance : Instance) (instanceKey : InstanceKey)
    (expectedState : ReplicationThreadState) : M (bool * option error) :=
  call (EvExpectReplicationThreadsState instanceKey expectedState)
       (env_expectReplicationThreadsState env instance instanceKey expectedState).

(** time.Now, as nanoseconds. *)
Definition Now : M Z := λ s, (env_Now env (world s), s).

(** time.Since: a reading of the monotonic clock, never negative. *)
Definition Since (startTime : Z) : M Z := λ s, (Z.max 0 (env_Now env (world s) - startTime), s).

Definition Sleep (d : Z) : M unit :=
  call (EvSleep d) (λ w, (tt, env_Sleep env d w)).

(** The pattern "read the snapshot; on error return it with the error". *)
Definition withInstance (instanceKey : InstanceKey) (k : Instance → M Result) : M Result :=
  r ← ReadTopologyInstance instanceKey;
  match r with
  | Fail instance err => mret (Fail instance err)
  | Ok instance => k instance
  end.

(** *** Binary logs *)

(** FlushBinaryLogs attempts a 'FLUSH BINARY LOGS' statement on the given instance. *)
Fixpoint flushLoop (instanceKey : InstanceKey) (n : nat) (k : M Result) : M Result :=
  match n with
  | O => k
  | S n' =>
      err ← ExecInstance instanceKey "flush binary logs" [];
      match err with
      | Some err => mret (Fail None err)
      | None => flushLoop instanceKey n' k
      end
  end.

Definition FlushBinaryLogs (instanceKey : InstanceKey) (count : Z) : M Result :=
  if Noop config then
    mret (Fail None (Errorf "noop: aborting flush-binary-logs operation on %+v; signalling error but nothing went wrong." [OKey instanceKey]))
  else
    flushLoop instanceKey (Z.to_nat count)
      (_ ← AuditOperation "flush-binary-logs" instanceKey "success";
       ReadTopologyInstance instanceKey).

(** purgeBinaryLogsTo attempts to 'PURGE BINARY LOGS' until given binary log is reached. *)
Definition purgeBinaryLogsTo (instanceKey : InstanceKey) (logFile : string) : M Result :=
  if Noop config then
    mret (Fail None (Errorf "noop: aborting purge-binary-logs operation on %+v; signalling error but nothing went wrong." [OKey instanceKey]))
  else
    err ← ExecInstance instanceKey "purge binary logs to ?" [OStr logFile];
    match err with
    | Some err => mret (Fail None err)
    | None =>
        _ ← AuditOperation "purge-binary-logs" instanceKey "success";
        ReadTopologyInstance instanceKey
    end.

(** *** Semi-sync flags *)

Definition SetSemiSyncMaster (instanceKey : InstanceKey) (enableMaster : bool) : M Result :=
  withInstance instanceKey (λ instance,
    let query :=
      if SemiSyncMasterPluginNewVersion instance
      then "set @@global.rpl_semi_sync_source_enabled=?"
      else "set @@global.rpl_semi_sync_master_enabled=?" in
    err ← ExecInstance instanceKey query [OBool enableMaster];
    match err with
    | Some err => mret (Fail (Some instance) err)
    | None => ReadTopologyInstance instanceKey
    end).

Definition SetSemiSyncReplica (instanceKey : InstanceKey) (enableReplica : bool) : M Result :=
  withInstance instanceKey (λ instance,
    if Bool.eqb (SemiSyncReplicaEnabled instance) enableReplica then mret (Ok instance)
    else
      let query :=
        if SemiSyncReplicaPluginNewVersion instance
        then "set @@global.rpl_semi_sync_replica_enabled=?"
        else "set @@global.rpl_semi_sync_slave_enabled=?" in
      err ← ExecInstance instanceKey query [OBool enableReplica];
      match err with
      | Some err => mret (Fail (Some instance) err)
      | None =>
          if ReplicationIOThreadRuning instance then
            (* Need to apply change by stopping starting IO thread *)
            _ ← ExecInstance instanceKey (stop_slave_io_thread (QSP instance)) [];
            err ← ExecInstance instanceKey (start_slave_io_thread (QSP instance)) [];
            match err with
            | Some err => mret (Fail (Some instance) err)
            | None => ReadTopologyInstance instanceKey
            end
          else ReadTopologyInstance instanceKey
      end).

(** *** Stopping replication *)

(** The patch for MaxScale: STOP SLAVE on a stopped replica raises an error
    there, which is dropped. *)
Definition maxScalePatch (instance : Instance) (err : option error) : option error :=
  match err with
  | Some e =>
      if isMaxScale instance && String.eqb (Error e) "Error 1199: Slave connection is not running"
      then None else Some e
  | None => None
  end.

(** The functions that StopReplicas runs in its goroutines are written over
    any monad [T] that performs the calls of this file as single steps: [M],
    where the steps of one call follow one another, and [Prog], whose steps
    a schedule interleaves with those of other goroutines. *)
Section Goroutine.
Context {T : Type → Type} `{!MRet T, !MBind T, !FMap T, !Steps T}.

(** Runs the commands in order; the first failure ends the loop with the
    error built by [onError]. *)
Fixpoint execAll (instanceKey : InstanceKey) (cmds : list string)
    (onError : string → error → error) : T (option error) :=
  match cmds with
  | [] => mret None
  | cmd :: rest =>
      err ← atomically (ExecInstance instanceKey cmd []);
      match err with
      | Some err => mret (Some (onError cmd err))
      | None => execAll instanceKey rest onError
      end
  end.

(** StopReplication stops replication on a given instance.  Its last line
    logs coordinates of the snapshot just read, whatever the error. *)
Definition StopReplication (instanceKey : InstanceKey) : T Outcome :=
  r ← atomically (ReadTopologyInstance instanceKey);
  match r with
  | Fail instance err => mret (Returns (Fail instance err))
  | Ok instance =>
      if negb (IsReplica instance) then
        mret (Returns (Fail (Some instance)
                (Errorf "instance is not a replica: %+v" [OKeyPtr instanceKey])))
      else
        err ← atomically (ExecInstance instanceKey (stop_slave (QSP instance)) []);
        match maxScalePatch instance err with
        | Some err => mret (Returns (Fail (Some instance) err))
        | None =>
            r ← atomically (ReadTopologyInstance instanceKey);
            mret (logged r)
        end
  end.

(** The two timers of WaitForSQLThreadUpToDate are kept as their deadlines; a
    timer has fired when the clock has reached its deadline.  When both have
    fired the select takes either case; the first is taken here. *)
Fixpoint WaitForSQLThreadUpToDate_loop (fuel : nat) (instanceKey : InstanceKey)
    (overallTimeout staleCoordinatesTimeout : Z)
    (generalDeadline staleDeadline : Z) (lastExecBinlogCoordinates : BinlogCoordinates)
    : T (option Result) :=
  match fuel with
  | O => mret None
  | S fuel' =>
      r ← atomically (env_RetryInstanceFunction env (ReadTopologyInstance instanceKey));
      match r with
      | Fail instance err => mret (Some (Fail instance err))
      | Ok instance =>
          if SQLThreadUpToDate instance then mret (Some (Ok instance))
          else if negb (SQLDelay instance =? 0) then
            mret (Some (Fail (Some instance)
              (Errorf "WaitForSQLThreadUpToDate: instance %+v has SQL Delay %+v. Operation is irrelevant"
                 [OKey instanceKey; OInt (SQLDelay instance)])))
          else
            now ← atomically Now;
            let staleDeadline :=
              if negb (Equals (ExecBinlogCoordinates instance) lastExecBinlogCoordinates)
              then now + staleCoordinatesTimeout else staleDeadline in
            let lastExecBinlogCoordinates := ExecBinlogCoordinates instance in
            if generalDeadline <=? now then
              mret (Some (Fail (Some instance)
                (Errorf "WaitForSQLThreadUpToDate timeout on %+v after duration %+v"
                   [OKey instanceKey; OInt overallTimeout])))
            else if staleDeadline <=? now then
              mret (Some (Fail (Some instance)
                (Errorf "WaitForSQLThreadUpToDate stale coordinates timeout on %+v after duration %+v"
                   [OKey instanceKey; OInt staleCoordinatesTimeout])))
            else
              _ ← atomically (Sleep (retryInterval config));
              WaitForSQLThreadUpToDate_loop fuel' instanceKey overallTimeout
                staleCoordinatesTimeout generalDeadline staleDeadline lastExecBinlogCoordinates
      end
  end.

Definition WaitForSQLThreadUpToDate (fuel : nat) (instanceKey : InstanceKey)
    (overallTimeout staleCoordinatesTimeout : Z) : T (option Result) :=
  let overallTimeout := if overallTimeout =? 0 then 24 * Hour else overallTimeout in
  let staleCoordinatesTimeout :=
    if staleCoordinatesTimeout =? 0
    then ReasonableReplicationLagSeconds config * Second else staleCoordinatesTimeout in
  now ← atomically Now;
  WaitForSQLThreadUpToDate_loop fuel instanceKey overallTimeout staleCoordinatesTimeout
    (now + overallTimeout) (now + staleCoordinatesTimeout) (mkCoords "" 0).

(** The tail of StopReplicationNicely, from the plain stop on.  The last line
    logs coordinates of the snapshot just read, whatever the error. *)
Definition stopNicelyTail (instanceKey : InstanceKey) (instance : Instance) : T Outcome :=
  err ← atomically (ExecInstance instanceKey (stop_slave (QSP instance)) []);
  match maxScalePatch instance err with
  | Some err => mret (Returns (Fail (Some instance) err))
  | None =>
      r ← atomically (ReadTopologyInstance instanceKey);
      mret (logged r)
  end.

(** StopReplicationNicely stops a replica such that SQL_thread and IO_thread
    are aligned.  [None]: the wait did not end within [fuel] polls. *)
Definition StopReplicationNicely (fuel : nat) (instanceKey : InstanceKey) (timeout : Z)
    : T (option Outcome) :=
  r ← atomically (ReadTopologyInstance instanceKey);
  match r with
  | Fail instance err => mret (Some (Returns (Fail instance err)))
  | Ok instance =>
      if negb (ReplicationThreadsExist instance) then
        mret (Some (Returns (Fail (Some instance)
                (Errorf "instance is not a replica: %+v" [OKeyPtr instanceKey]))))
      else
        (* stop io_thread, start sql_thread but catch any errors *)
        err ← execAll instanceKey
                [stop_slave_io_thread (QSP instance); start_slave_sql_thread (QSP instance)]
                (λ cmd err, Errorf "%+v: StopReplicationNicely: '%q' failed: %+v"
                              [OKey instanceKey; OStr cmd; OErr (Error err)]);
        match err with
        | Some err => mret (Some (Returns (Fail None err)))
        | None =>
            if SQLDelay instance =? 0 then
              w ← WaitForSQLThreadUpToDate fuel instanceKey timeout 0;
              match w with
              | None => mret None
              | Some (Fail instance err) => mret (Some (Returns (Fail instance err)))
              | Some (Ok instance) => Some <$> stopNicelyTail instanceKey instance
              end
            else Some <$> stopNicelyTail instanceKey instance
        end
  end.

(** *** Bulk stop *)

(** The function that a goroutine of StopReplicas hands to ExecuteOnTopology:
    the nice stop, whose result is dropped, for the nice method on a replica
    that is not MariaDB, then the plain stop.  A panic of the nice stop ends
    the function before the plain stop.  [None]: the nice stop did not end
    within [fuel] polls. *)
Definition stopReplicaTask (fuel : nat) (stopReplicationMethod : StopReplicationMethod)
    (timeout : Z) (replica : Instance) : T (option Outcome) :=
  if StopReplicationMethod_eqb stopReplicationMethod StopReplicationNice
     && negb (IsMariaDB replica)
  then
    nice ← StopReplicationNicely fuel (Key replica) timeout;
    match nice with
    | None => mret None
    | Some Panics => mret (Some Panics)
    | Some (Returns _) => Some <$> StopReplication (Key replica)
    end
  else Some <$> StopReplication (Key replica).

End Goroutine.

(** What the goroutine sends on the barrier once ExecuteOnTopology is over:
    the pointer StopReplication returned, nil included; after a panic, which
    ExecuteOnTopology recovers from, the assignment has not happened and it
    is the replica the goroutine was given. *)
Definition updatedReplica (replica : Instance) (outcome : Outcome) : option Instance :=
  match outcome with
  | Returns r => instanceOf r
  | Panics => Some replica
  end.

(** A goroutine of StopReplicas: waiting for a token at
    [topologyConcurrencyChan <- true], inside the function it handed to
    ExecuteOnTopology, sending on the barrier (its token returned), or done. *)
Inductive Goroutine :=
| Queued (replica : Instance)
| Running (replica : Instance) (rest : Prog (option Outcome))
| Completed (updated : option Instance)
| Received.

(** The goroutines, the tokens they have taken from topologyConcurrencyChan,
    and what the barrier has delivered so far.  Tokens held by other users
    of ExecuteOnTopology are not counted: they make a goroutine wait, which a
    schedule does as well by withholding its turn. *)
Record Pool := mkPool {
  goroutines : list Goroutine;
  tokens : nat;
  refreshedReplicas : list (option Instance) }.

(** Goroutine [i] moves, if it can: it takes a token when one is left, makes
    the next call of its function, returns its token when the function is over
    (by return or by panic), or has its value received from the barrier.  A
    goroutine that is out of fuel is still polling and does not move. *)
Definition advance (fuel : nat) (stopReplicationMethod : StopReplicationMethod)
    (timeout : Z) (i : nat) (pool : Pool) : M Pool := λ s,
  let become (g : Goroutine) (tokens : nat) (refreshed : list (option Instance)) :=
    mkPool (<[i := g]> (goroutines pool)) tokens refreshed in
  match goroutines pool !! i with
  | Some (Queued replica) =>
      if (tokens pool <? topologyConcurrency)%nat
      then (become (Running replica (stopReplicaTask fuel stopReplicationMethod timeout replica))
                   (S (tokens pool)) (refreshedReplicas pool), s)
      else (pool, s)
  | Some (Running replica (Step m rest)) =>
      let '(x, s') := m s in
      (become (Running replica (rest x)) (tokens pool) (refreshedReplicas pool), s')
  | Some (Running replica (Done (Some outcome))) =>
      (become (Completed (updatedReplica replica outcome))
              (pred (tokens pool)) (refreshedReplicas pool), s)
  | Some (Running replica (Done None)) => (pool, s)
  | Some (Completed updated) =>
      (become Received (tokens pool) (refreshedReplicas pool ++ [updated])%list, s)
  | Some Received | None => (pool, s)
  end.

(** The goroutines move as the schedule says, one move at a time. *)
Fixpoint runSchedule (fuel : nat) (stopReplicationMethod : StopReplicationMethod)
    (timeout : Z) (schedule : list nat) (pool : Pool) : M Pool :=
  match schedule with
  | [] => mret pool
  | i :: rest =>
      pool ← advance fuel stopReplicationMethod timeout i pool;
      runSchedule fuel stopReplicationMethod timeout rest pool
  end.

Definition isReceived (g : Goroutine) : bool :=
  match g with
  | Received => true
  | _ => false
  end.

(** StopReplicas will stop replication concurrently on given set of replicas.
    It will potentially do nothing, or attempt to stop nicely or just stop
    normally, all according to stopReplicationMethod.  One goroutine per
    replica; the calls of the goroutines interleave as [schedule] says, and
    the snapshots come back in the order in which the barrier delivers them.
    [None]: under this schedule some goroutine has not been received from,
    and StopReplicas has not returned. *)
Definition StopReplicas (schedule : list nat) (fuel : nat) (replicas : list Instance)
    (stopReplicationMethod : StopReplicationMethod) (timeout : Z)
    : M (option (list (option Instance))) :=
  if StopReplicationMethod_eqb stopReplicationMethod NoStopReplication
  then mret (Some (Some <$> replicas))
  else
    pool ← runSchedule fuel stopReplicationMethod timeout schedule
             (mkPool (Queued <$> replicas) 0 []);
    mret (if forallb isReceived (goroutines pool)
          then Some (refreshedReplicas pool) else None).

(** RestartReplicationQuick stops and starts the IO thread. *)
Definition RestartReplicationQuick (instance : Instance) (instanceKey : InstanceKey)
    : M (option error) :=
  execAll instanceKey
    [stop_slave_io_thread (QSP instance); start_slave_io_thread (QSP instance)]
    (λ cmd err, Errorf "%+v: RestartReplicationQuick: '%q' failed: %+v"
                  [OKey instanceKey; OStr cmd; OErr (Error err)]).


(** *** Starting replication *)

(** waitForReplicationState waits for both replication threads to be either
    running or not running, together.  The interval doubles from 10ms and the
    loop breaks once the time spent plus the interval exceeds one second: [n]
    bounds the number of polls. *)
Fixpoint waitForReplicationState_loop (n : nat) (instance : Instance)
    (instanceKey : InstanceKey) (expectedState : ReplicationThreadState)
    (startTime waitInterval : Z) : M (bool * option error) :=
  match n with
  | O => mret (false, None)
  | S n' =>
      '(expectationMet, _) ← expectReplicationThreadsState instance instanceKey expectedState;
      if expectationMet : bool then mret (true, None)
      else
        since ← Since startTime;
        if since + waitInterval >? Second then mret (false, None)
        else
          _ ← Sleep waitInterval;
          waitForReplicationState_loop n' instance instanceKey expectedState
            startTime (2 * waitInterval)
  end.

Definition waitForReplicationState (instance : Instance) (instanceKey : InstanceKey)
    (expectedState : ReplicationThreadState) : M (bool * option error) :=
  startTime ← Now;
  waitForReplicationState_loop 8 instance instanceKey expectedState startTime (10 * Millisecond).

(** MaybeDisableSemiSyncMaster always disables the semi-sync master if the
    semi-sync priority is > 0.  When SetSemiSyncMaster returns an error, the
    warning logged takes the address of the key of the snapshot returned with
    it: a nil snapshot panics there. *)
Definition MaybeDisableSemiSyncMaster (replicaInstance : Instance) : M Outcome :=
  if (0 <? SemiSyncPriority replicaInstance) && SemiSyncMasterEnabled replicaInstance
  then
    r ← SetSemiSyncMaster (Key replicaInstance) false;
    match r with
    | Ok replicaInstance => mret (Returns (Ok replicaInstance))
    | Fail replicaInstance err => mret (logged (Fail replicaInstance err))
    end
  else mret (Returns (Ok replicaInstance)).

(** maybeEnableSemiSyncReplicaLegacy enables semi-sync if SemiSyncPriority > 0,
    and never if the promotion rule is "must_not". *)
Definition maybeEnableSemiSyncReplicaLegacy (replicaInstance : Instance) : M Result :=
  if 0 <? SemiSyncPriority replicaInstance then
    let enable := negb (String.eqb (PromotionRule replicaInstance) MustNotPromoteRule) in
    SetSemiSyncReplica (Key replicaInstance) enable
  else mret (Ok replicaInstance).

(** The three classes of classifyAndPrioritizeReplicas, before sorting. *)
Fixpoint classifyReplicas (replicas : list InstancePtr)
    (includeNonReplicatingInstance : InstanceKey)
    : list InstancePtr * list InstancePtr * list InstancePtr :=
  match replicas with
  | [] => ([], [], [])
  | replica :: rest =>
      let '(possibleSemiSyncReplicas, asyncReplicas, excludedReplicas) :=
        classifyReplicas rest includeNonReplicatingInstance in
      let isReplicating :=
        InstanceKey_Equals (Key (deref replica)) includeNonReplicatingInstance
        || ReplicaRunning (deref replica) in
      if negb (IsLastCheckValid (deref replica)) || negb isReplicating
      then (possibleSemiSyncReplicas, asyncReplicas, replica :: excludedReplicas)
      else if SemiSyncPriority (deref replica) =? 0
      then (possibleSemiSyncReplicas, replica :: asyncReplicas, excludedReplicas)
      else (replica :: possibleSemiSyncReplicas, asyncReplicas, excludedReplicas)
  end.

(** The order of the sort: priority (higher first), promotion rule, name. *)
Definition replicaLess (a b : InstancePtr) : bool :=
  if negb (SemiSyncPriority (deref a) =? SemiSyncPriority (deref b))
  then SemiSyncPriority (deref b) <? SemiSyncPriority (deref a)
  else if negb (String.eqb (PromotionRule (deref a)) (PromotionRule (deref b)))
  then env_BetterThan env (PromotionRule (deref a)) (PromotionRule (deref b))
  else match String.compare (InstanceKey_String (Key (deref a)))
                            (InstanceKey_String (Key (deref b))) with
       | Lt => true
       | _ => false
       end.

Fixpoint insertSorted (x : InstancePtr) (l : list InstancePtr) : list InstancePtr :=
  match l with
  | [] => [x]
  | y :: rest => if replicaLess y x then y :: insertSorted x rest else x :: l
  end.

(** sort.Slice with [replicaLess]. *)
Definition sortReplicas (l : list InstancePtr) : list InstancePtr :=
  foldr insertSorted [] l.

Definition classifyAndPrioritizeReplicas (replicas : list InstancePtr)
    (includeNonReplicatingInstance : InstanceKey)
    : list InstancePtr * list InstancePtr * list InstancePtr :=
  let '(possibleSemiSyncReplicas, asyncReplicas, excludedReplicas) :=
    classifyReplicas replicas includeNonReplicatingInstance in
  (sortReplicas possibleSemiSyncReplicas, asyncReplicas, excludedReplicas).

(** The snapshots a reader returns are fresh objects: pointer [i+1] for the
    [i]-th of them. *)
Definition allocate (instances : list Instance) : list InstancePtr :=
  imap (λ i instance, mkPtr (Pos.of_succ_nat i) instance) instances.

(** AnalyzeSemiSyncReplicaTopology analyzes the replica topology for the given
    master and determines actions for the semi-sync replica enabled variable.
    It does not take any action itself. *)
Definition AnalyzeSemiSyncReplicaTopology (masterKey includeNonReplicatingInstance : InstanceKey)
    (exactReplicaTopology : bool)
    : M ((Instance * list InstancePtr * SemiSync.Actions) + error) :=
  r ← ReadTopologyInstance masterKey;
  match r with
  | Fail _ err => mret (inr err)
  | Ok masterInstance =>
      let analyze (replicas : list Instance) :=
        let replicas := allocate replicas in
        let '(possibleSemiSyncReplicas, asyncReplicas, excludedReplicas) :=
          classifyAndPrioritizeReplicas replicas includeNonReplicatingInstance in
        let actions := SemiSync.determineSemiSyncReplicaActions masterInstance
                         possibleSemiSyncReplicas asyncReplicas exactReplicaTopology in
        inl (masterInstance, replicas, actions) in
      '(replicas, err) ← ReadTopologyInstances (Replicas masterInstance);
      match err with
      | None => mret (analyze replicas)
      | Some _ =>
          (* Falling back to just reading from our backend *)
          '(replicas, err) ← ReadReplicaInstances masterKey;
          match err with
          | Some err => mret (inr err)
          | None => mret (analyze replicas)
          end
      end
  end.

(** The entries of the action map, each with the replica its key points to.
    The source ranges over the map in no particular order; here the entries
    come by increasing address. *)
Definition rangeActions (replicas : list InstancePtr) (actions : SemiSync.Actions)
    : list (InstancePtr * bool) :=
  omap (λ '(a, enable),
          (λ replica, (replica, enable)) <$> find (λ r, Pos.eqb (addr r) a) replicas)
       (map_to_list actions).

(** MaybeEnableSemiSyncReplica sets the semi-sync replica variable on a given
    instance based on the config and state of the world. *)
Definition MaybeEnableSemiSyncReplica (replicaInstance : Instance) : M Result :=
  if negb (EnforceExactSemiSyncReplicas config) && negb (RecoverLockedSemiSyncMaster config)
  then maybeEnableSemiSyncReplicaLegacy replicaInstance
  else
    a ← AnalyzeSemiSyncReplicaTopology (MasterKey replicaInstance) (Key replicaInstance)
          (EnforceExactSemiSyncReplicas config);
    match a with
    | inr err =>
        mret (Fail (Some replicaInstance) (Errorf "semi-sync: %s" [OStr (Error err)]))
    | inl (_, replicas, actions) =>
        match find (λ '(replica, _),
                      InstanceKey_Equals (Key (deref replica)) (Key replicaInstance))
                   (rangeActions replicas actions) with
        | Some (replica, enable) =>
            r ← SetSemiSyncReplica (Key (deref replica)) enable;
            match r with
            | Fail _ _ =>
                mret (Fail None (Errorf "cannot enable semi sync on replica %+v"
                                   [OKey (Key (deref replica))]))
            | Ok _ => mret (Ok replicaInstance)
            end
        | None => mret (Ok replicaInstance)
        end
    end.

(** StartReplication starts replication on a given instance. *)
Definition StartReplication (instanceKey : InstanceKey) : M Outcome :=
  r ← ReadTopologyInstance instanceKey;
  match r with
  | Fail instance err => mret (Returns (Fail instance err))
  | Ok instance =>
    if negb (IsReplica instance) then
      mret (Returns (Fail (Some instance)
              (Errorf "instance is not a replica: %+v" [OKeyPtr instanceKey])))
    else
      o ← MaybeDisableSemiSyncMaster instance;
      match o with
      | Panics => mret Panics
      | Returns (Fail instance err) => mret (Returns (Fail instance err))
      | Returns (Ok instance) =>
          r ← MaybeEnableSemiSyncReplica instance;
          match r with
          | Fail instance err => mret (Returns (Fail instance err))
          | Ok instance =>
              err ← ExecInstance instanceKey (start_slave (QSP instance)) [];
              match err with
              | Some err => mret (Returns (Fail (Some instance) err))
              | None =>
                  _ ← waitForReplicationState instance instanceKey ReplicationThreadStateRunning;
                  Returns <$> withInstance instanceKey (λ instance,
                    if negb (ReplicaRunning instance)
                    then mret (Fail (Some instance) ReplicationNotRunningError)
                    else mret (Ok instance))
              end
          end
      end
  end.

(** RestartReplication stops and starts replication on a given instance. *)
Definition RestartReplication (instanceKey : InstanceKey) : M Outcome :=
  o ← StopReplication instanceKey;
  match o with
  | Panics => mret Panics
  | Returns (Fail instance err) => mret (Returns (Fail instance err))
  | Returns (Ok _) => StartReplication instanceKey
  end.

(** *** Bounded start *)

(** The loop of WaitForExecBinlogCoordinatesToReach.  The value is the
    snapshot and error with the exactMatch flag; [None]: the coordinates were
    not reached within [fuel] polls. *)
Fixpoint WaitForExecBinlogCoordinatesToReach_loop (fuel : nat) (instanceKey : InstanceKey)
    (coordinates : BinlogCoordinates) (maxWait startTime : Z) : M (option (Result * bool)) :=
  match fuel with
  | O => mret None
  | S fuel' =>
      since ← Since startTime;
      if negb (maxWait =? 0) && (since >? maxWait) then
        mret (Some (Fail None
                (Errorf "WaitForExecBinlogCoordinatesToReach: reached maxWait %+v on %+v"
                   [OInt maxWait; OKey instanceKey]), false))
      else
        r ← ReadTopologyInstance instanceKey;
        match r with
        | Fail instance err => mret (Some (Fail instance err, false))
        | Ok instance =>
            if SmallerThan (ExecBinlogCoordinates instance) coordinates then
              _ ← Sleep (retryInterval config);
              WaitForExecBinlogCoordinatesToReach_loop fuel' instanceKey coordinates
                maxWait startTime
            else if Equals (ExecBinlogCoordinates instance) coordinates then
              mret (Some (Ok instance, true))
            else if SmallerThan coordinates (ExecBinlogCoordinates instance) then
              mret (Some (Ok instance, false))
            else
              WaitForExecBinlogCoordinatesToReach_loop fuel' instanceKey coordinates
                maxWait startTime
        end
  end.

Definition WaitForExecBinlogCoordinatesToReach (fuel : nat) (instanceKey : InstanceKey)
    (coordinates : BinlogCoordinates) (maxWait : Z) : M (option (Result * bool)) :=
  startTime ← Now;
  WaitForExecBinlogCoordinatesToReach_loop fuel instanceKey coordinates maxWait startTime.

(** The end of StartReplicationUntilMasterCoordinates, once the statement has
    been accepted: wait for the coordinates, then stop. *)
Definition startUntilFinish (fuel : nat) (instanceKey : InstanceKey)
    (masterCoordinates : BinlogCoordinates) : M (option Outcome) :=
  w ← WaitForExecBinlogCoordinatesToReach fuel instanceKey masterCoordinates 0;
  match w with
  | None => mret None
  | Some (Fail instance err, _) => mret (Some (Returns (Fail instance err)))
  | Some (Ok instance, false) =>
      mret (Some (Returns (Fail (Some instance)
              (Errorf "Start SLAVE UNTIL is past coordinates: %+v" [OKeyPtr instanceKey]))))
  | Some (Ok instance, true) => Some <$> StopReplication instanceKey
  end.

(** StartReplicationUntilMasterCoordinates issues a START SLAVE UNTIL...
    statement on given instance. *)
Definition StartReplicationUntilMasterCoordinates (fuel : nat) (instanceKey : InstanceKey)
    (masterCoordinates : BinlogCoordinates) : M (option Outcome) :=
  r ← ReadTopologyInstance instanceKey;
  match r with
  | Fail instance err => mret (Some (Returns (Fail instance err)))
  | Ok instance =>
      if negb (IsReplica instance) then
        mret (Some (Returns (Fail (Some instance)
                (Errorf "instance is not a replica: %+v" [OKeyPtr instanceKey]))))
      else if negb (ReplicationThreadsStopped instance) then
        mret (Some (Returns (Fail (Some instance)
                (Errorf "replication threads are not stopped: %+v" [OKeyPtr instanceKey]))))
      else
        o ← MaybeDisableSemiSyncMaster instance;
        match o with
        | Panics => mret (Some Panics)
        | Returns (Fail instance err) => mret (Some (Returns (Fail instance err)))
        | Returns (Ok instance) =>
            r ← MaybeEnableSemiSyncReplica instance;
            match r with
            | Fail instance err => mret (Some (Returns (Fail instance err)))
            | Ok instance =>
                err ← ExecInstance instanceKey (start_slave_until_master_log (QSP instance))
                        [OStr (LogFile masterCoordinates); OInt (LogPos masterCoordinates)];
                match err with
                | Some err => mret (Some (Returns (Fail (Some instance) err)))
                | None => startUntilFinish fuel instanceKey masterCoordinates
                end
            end
        end
  end.

(** *** Replication delay *)

(** GetReplicationRestartPreserveStatements returns a sequence of statements
    that make sure a replica is stopped and then returned to the same state. *)
Definition GetReplicationRestartPreserveStatements (instanceKey : InstanceKey)
    (injectedStatement : string) : M (list string * option error) :=
  r ← ReadTopologyInstance instanceKey;
  match r with
  | Fail _ err => mret ([], Some err)
  | Ok instance =>
      let term := env_SemicolonTerminated env in
      let statements := List.concat [
        (if ReplicationIOThreadRuning instance
         then [term (stop_slave_io_thread (QSP instance))] else []);
        (if ReplicationSQLThreadRuning instance
         then [term (stop_slave_sql_thread (QSP instance))] else []);
        (if negb (String.eqb injectedStatement "") then [term injectedStatement] else []);
        (if ReplicationSQLThreadRuning instance
         then [term (start_slave_sql_thread (QSP instance))] else []);
        (if ReplicationIOThreadRuning instance
         then [term (start_slave_io_thread (QSP instance))] else []) ] in
      mret (statements, None)
  end.

(** DelayReplication set the replication delay given seconds keeping the
    current state of the replication threads. *)
Definition DelayReplication (instanceKey : InstanceKey) (seconds : Z) : M (option error) :=
  if seconds <? 0 then
    mret (Some (Errorf "invalid seconds: %d, it should be greater or equal to 0" [OInt seconds]))
  else
    r ← ReadTopologyInstance instanceKey;
    match r with
    | Fail _ err => mret (Some err)
    | Ok instance =>
        let query := Sprintf (change_master_to_master_delay (QSP instance)) [OInt seconds] in
        '(statements, err) ← GetReplicationRestartPreserveStatements instanceKey query;
        match err with
        | Some err => mret (Some err)
        | None =>
            err ← execAll instanceKey statements
                    (λ cmd err, Errorf "%+v: DelayReplication: '%q' failed: %+v"
                                  [OKey instanceKey; OStr cmd; OErr (Error err)]);
            match err with
            | Some err => mret (Some err)
            | None =>
                _ ← AuditOperation "delay-replication" instanceKey
                      (Sprintf "set to %d" [OInt seconds]);
                mret None
            end
        end
    end.

(** *** Master change *)

(** The guard shared by the CHANGE MASTER family, ResetReplication and
    ResetMaster: replication threads, if they exist, must be stopped. *)
Definition threadsRunning (instance : Instance) : bool :=
  ReplicationThreadsExist instance && negb (ReplicationThreadsStopped instance).

(** The parameters of ChangeMasterCredentials, with their arguments. *)
Definition credentialsParams (instance : Instance) (creds : ReplicationCredentials)
    : list string * list Operand :=
  let add (cond : bool) (ps : list string) (args : list Operand)
          (acc : list string * list Operand) :=
    if cond then (acc.1 ++ ps, acc.2 ++ args)%list else acc in
  add (negb (String.eqb (SSLKey creds) ""))
      [master_ssl (QSP instance) +:+ " = 1"; master_ssl_key_param (QSP instance)]
      [OStr (SSLKey creds)]
  (add (negb (String.eqb (SSLCert creds) ""))
      [master_ssl_cert_param (QSP instance)] [OStr (SSLCert creds)]
  (add (negb (String.eqb (SSLCaCert creds) ""))
      [master_ssl_ca_param (QSP instance)] [OStr (SSLCaCert creds)]
  (add (negb (String.eqb (Password creds) ""))
      [master_password_param (QSP instance)] [OStr (Password creds)]
  ([master_user_param (QSP instance)], [OStr (User creds)])))).

(** ChangeMasterCredentials issues a CHANGE MASTER TO... MASTER_USER=, MASTER_PASSWORD=... *)
Definition ChangeMasterCredentials (instanceKey : InstanceKey) (creds : ReplicationCredentials)
    : M Result :=
  withInstance instanceKey (λ instance,
    if String.eqb (User creds) "" then
      mret (Fail (Some instance)
              (Errorf "Empty user in ChangeMasterCredentials() for %+v" [OKey instanceKey]))
    else if threadsRunning instance then
      mret (Fail (Some instance)
              (Errorf "ChangeMasterTo: Cannot change master on: %+v because replication is running"
                 [OKey instanceKey]))
    else if Noop config then
      mret (Fail (Some instance)
              (Errorf "noop: aborting CHANGE MASTER TO operation on %+v; signalling error but nothing went wrong."
                 [OKey instanceKey]))
    else
      let '(query_params, query_params_args) := credentialsParams instance creds in
      let query := Sprintf (change_master_to_with_params (QSP instance))
                     [OStr (Join query_params ", ")] in
      err ← ExecInstance instanceKey query query_params_args;
      match err with
      | Some err => mret (Fail (Some instance) err)
      | None => ReadTopologyInstance instanceKey
      end).

Definition EnableMasterGetSourcePublicKey (instanceKey : InstanceKey) : M Result :=
  withInstance instanceKey (λ instance,
    if threadsRunning instance then
      mret (Fail (Some instance)
              (Errorf "EnableMasterGetSourcePublicKey: Cannot enable GetSourcePublicKey replication on %+v because replication threads are not stopped"
                 [OKey instanceKey]))
    else if Noop config then
      mret (Fail (Some instance)
              (Errorf "noop: aborting CHANGE REPLICATION SOURCE TO GET_SOURCE_PUBLIC_KEY=1 operation on %+v; signaling error but nothing went wrong."
                 [OKey instanceKey]))
    else
      err ← ExecInstance instanceKey (change_master_to_get_source_public_key (QSP instance)) [];
      match err with
      | Some err => mret (Fail (Some instance) err)
      | None => ReadTopologyInstance instanceKey
      end).

(** EnableMasterSSL issues CHANGE MASTER TO MASTER_SSL=1. *)
Definition EnableMasterSSL (instanceKey : InstanceKey) : M Result :=
  withInstance instanceKey (λ instance,
    if threadsRunning instance then
      mret (Fail (Some instance)
              (Errorf "EnableMasterSSL: Cannot enable SSL replication on %+v because replication threads are not stopped"
                 [OKey instanceKey]))
    else if Noop config then
      mret (Fail (Some instance)
              (Errorf "noop: aborting CHANGE MASTER TO MASTER_SSL=1 operation on %+v; signaling error but nothing went wrong."
                 [OKey instanceKey]))
    else
      err ← ExecInstance instanceKey (change_master_to_master_ssl (QSP instance)) [];
      match err with
      | Some err => mret (Fail (Some instance) err)
      | None => ReadTopologyInstance instanceKey
      end).

(** The queries of workaroundBug83713, see https://bugs.mysql.com/bug.php?id=83713 *)
Definition bug83713Queries (instance : Instance) : list string :=
  [ reset_slave (QSP instance);
    start_slave_io_thread (QSP instance);
    stop_slave_io_thread (QSP instance);
    reset_slave (QSP instance) ].

(** Every query is run, whatever the previous ones returned. *)
Fixpoint execEach (instanceKey : InstanceKey) (queries : list string) : M unit :=
  match queries with
  | [] => mret tt
  | query :: rest =>
      _ ← ExecInstance instanceKey query [];
      execEach instanceKey rest
  end.

Definition workaroundBug83713 (instance : Instance) (instanceKey : InstanceKey) : M unit :=
  execEach instanceKey (bug83713Queries instance).

(** The statement and arguments of the closure changeMasterFunc that
    ChangeMasterTo selects, and the flag changedViaGTID. *)
Definition changeMasterStatement (instance : Instance) (changeToMasterKey : InstanceKey)
    (masterBinlogCoordinates : BinlogCoordinates) (gtidHint : OperationGTIDHint)
    : string * list Operand * bool :=
  let hostPort := [OStr (Hostname changeToMasterKey); OInt (Port changeToMasterKey)] in
  let hostPortLog :=
    [OStr (Hostname changeToMasterKey); OInt (Port changeToMasterKey);
     OStr (LogFile masterBinlogCoordinates); OInt (LogPos masterBinlogCoordinates)] in
  if UsingMariaDBGTID instance && negb (String.eqb gtidHint GTIDHintDeny) then
    (* Keep on using GTID *)
    (change_master_to_master_host_port (QSP instance), hostPort, true)
  else if UsingMariaDBGTID instance && String.eqb gtidHint GTIDHintDeny then
    (* Make sure to not use GTID *)
    (change_master_to_master_host_port_log_gtid_no (QSP instance), hostPortLog, false)
  else if IsMariaDB instance && String.eqb gtidHint GTIDHintForce then
    (* Is MariaDB; not using GTID, turn into GTID *)
    let mariadbGTIDHint :=
      if negb (ReplicationThreadsExist instance) then "current_pos" else "slave_pos" in
    (Sprintf "change master to master_host=?, master_port=?, master_use_gtid=%s"
       [OStr mariadbGTIDHint], hostPort, true)
  else if UsingOracleGTID instance && negb (String.eqb gtidHint GTIDHintDeny) then
    (* Is Oracle; already uses GTID; keep using it. *)
    (change_master_to_master_host_port (QSP instance), hostPort, true)
  else if UsingOracleGTID instance && String.eqb gtidHint GTIDHintDeny then
    (* Is Oracle; already uses GTID *)
    (change_master_to_master_host_port_log_autoposition_no (QSP instance), hostPortLog, false)
  else if SupportsOracleGTID instance && String.eqb gtidHint GTIDHintForce then
    (* Is Oracle; not using GTID right now; turn into GTID *)
    (change_master_to_master_host_port_autoposition_yes (QSP instance), hostPort, true)
  else
    (* Normal binlog file:pos *)
    (change_master_to_master_host_port_log (QSP instance), hostPortLog, false).

Definition changeMasterFunc (instance : Instance) (instanceKey changeToMasterKey : InstanceKey)
    (masterBinlogCoordinates : BinlogCoordinates) (gtidHint : OperationGTIDHint)
    : M (option error) :=
  let '(query, args, _) :=
    changeMasterStatement instance changeToMasterKey masterBinlogCoordinates gtidHint in
  ExecInstance instanceKey query args.

(** The condition under which ChangeMasterTo applies the workaround and runs
    the statement again. *)
Definition needsBug83713Workaround (instance : Instance) (err : option error) : bool :=
  match err with
  | Some e =>
      UsingOracleGTID instance
      && Contains (Error e) Error1201CouldnotInitializeMasterInfoStructure
  | None => false
  end.

(** ChangeMasterTo, from the dry-run check on. *)
Definition changeMasterExecute (instance : Instance) (instanceKey changeToMasterKey : InstanceKey)
    (masterBinlogCoordinates : BinlogCoordinates) (gtidHint : OperationGTIDHint) : M Result :=
  if Noop config then
    mret (Fail (Some instance)
            (Errorf "noop: aborting CHANGE MASTER TO operation on %+v; signalling error but nothing went wrong."
               [OKey instanceKey]))
  else
    let originalMasterKey := MasterKey instance in
    let originalExecBinlogCoordinates := ExecBinlogCoordinates instance in
    let f := changeMasterFunc instance instanceKey changeToMasterKey
               masterBinlogCoordinates gtidHint in
    err ← f;
    err ← (if needsBug83713Workaround instance err
           then _ ← workaroundBug83713 instance instanceKey; f
           else mret err);
    match err with
    | Some err => mret (Fail (Some instance) err)
    | None =>
        _ ← WriteMasterPositionEquivalence originalMasterKey originalExecBinlogCoordinates
              changeToMasterKey masterBinlogCoordinates;
        _ ← ResetInstanceRelaylogCoordinatesHistory instanceKey;
        ReadTopologyInstance instanceKey
    end.

(** ChangeMasterTo changes the given instance's master according to given input. *)
Definition ChangeMasterTo (instanceKey masterKey : InstanceKey)
    (masterBinlogCoordinates : BinlogCoordinates) (skipUnresolve : bool)
    (gtidHint : OperationGTIDHint) : M Result :=
  withInstance instanceKey (λ instance,
    if threadsRunning instance then
      mret (Fail (Some instance)
              (Errorf "ChangeMasterTo: Cannot change master on: %+v because replication threads are not stopped"
                 [OKey instanceKey]))
    else if negb skipUnresolve then
      '(unresolvedMasterKey, nameUnresolved, err) ← UnresolveHostname masterKey;
      match err with
      | Some err => mret (Fail (Some instance) err)
      | None => changeMasterExecute instance instanceKey unresolvedMasterKey
                  masterBinlogCoordinates gtidHint
      end
    else changeMasterExecute instance instanceKey masterKey masterBinlogCoordinates gtidHint).

(** *** Resets *)

(** ResetReplication resets a replica, breaking the replication. *)
Definition ResetReplication (instanceKey : InstanceKey) : M Result :=
  withInstance instanceKey (λ instance,
    if threadsRunning instance then
      mret (Fail (Some instance)
              (Errorf "Cannot reset replication on: %+v because replication threads are not stopped"
                 [OKeyPtr instanceKey]))
    else if Noop config then
      mret (Fail (Some instance)
              (Errorf "noop: aborting reset-replication operation on %+v; signalling error but nothing went wrong."
                 [OKey instanceKey]))
    else
      err ← ExecInstance instanceKey (change_master_to_master_host (QSP instance)) [];
      match err with
      | Some err => mret (Fail (Some instance) err)
      | None =>
          err ← ExecInstance instanceKey (reset_slave_50603_all (QSP instance)) [];
          err ← (match err with
                 | Some e =>
                     if Contains (Error e) Error1201CouldnotInitializeMasterInfoStructure then
                       _ ← workaroundBug83713 instance instanceKey;
                       ExecInstance instanceKey (reset_slave_50603_all (QSP instance)) []
                     else mret err
                 | None => mret err
                 end);
          match err with
          | Some err => mret (Fail (Some instance) err)
          | None => ReadTopologyInstance instanceKey
          end
      end).

(** ResetMaster issues a RESET MASTER statement on given instance. *)
Definition ResetMaster (instanceKey : InstanceKey) : M Result :=
  withInstance instanceKey (λ instance,
    if threadsRunning instance then
      mret (Fail (Some instance)
              (Errorf "Cannot reset master on: %+v because replication threads are not stopped"
                 [OKeyPtr instanceKey]))
    else if Noop config then
      mret (Fail (Some instance)
              (Errorf "noop: aborting reset-master operation on %+v; signalling error but nothing went wrong."
                 [OKey instanceKey]))
    else
      err ← ExecInstance instanceKey (reset_master (QSP instance)) [];
      match err with
      | Some err => mret (Fail (Some instance) err)
      | None => ReadTopologyInstance instanceKey
      end).

Definition setGTIDPurged (instance : Instance) (gtidPurged : string) : M (option error) :=
  if Noop config then
    mret (Some (Errorf "noop: aborting set-gtid-purged operation on %+v; signalling error but nothing went wrong."
                  [OKey (Key instance)]))
  else ExecInstance (Key instance) "set global gtid_purged := ?" [OStr gtidPurged].

(** *** Skipping a query *)

(** skipQueryClassic skips a query in normal binlog file:pos replication. *)
Definition skipQueryClassic (instance : Instance) : M (option error) :=
  ExecInstance (Key instance) (set_sql_slave_skip_counter (QSP instance)) [].

(** skipQueryOracleGtid skips a single query in an Oracle GTID replicating
    replica, by injecting an empty transaction. *)
Definition skipQueryOracleGtid (instance : Instance) : M (option error) :=
  match NextGTID instance with
  | (_, Some err) => mret (Some err)
  | (nextGtid, None) =>
      if String.eqb nextGtid "" then
        mret (Some (Errorf "Empty NextGTID() in skipQueryGtid() for %+v" [OKey (Key instance)]))
      else
        err ← ExecInstance (Key instance) "SET GTID_NEXT=?" [OStr nextGtid];
        match err with
        | Some err => mret (Some err)
        | None =>
            err ← EmptyCommitInstance (Key instance);
            match err with
            | Some err => mret (Some err)
            | None => ExecInstance (Key instance) "SET GTID_NEXT='AUTOMATIC'" []
            end
        end
  end.

(** SkipQuery skip a single query in a failed replication instance. *)
Definition SkipQuery (instanceKey : InstanceKey) : M Outcome :=
  r ← ReadTopologyInstance instanceKey;
  match r with
  | Fail instance err => mret (Returns (Fail instance err))
  | Ok instance =>
    if negb (IsReplica instance) then
      mret (Returns (Fail (Some instance)
              (Errorf "instance is not a replica: %+v" [OKeyPtr instanceKey])))
    else if ReplicationSQLThreadRuning instance then
      mret (Returns (Fail (Some instance)
              (Errorf "Replication SQL thread is running on %+v" [OKeyPtr instanceKey])))
    else if String.eqb (LastSQLError instance) "" then
      mret (Returns (Fail (Some instance) (Errorf "No SQL error on %+v" [OKeyPtr instanceKey])))
    else if Noop config then
      mret (Returns (Fail (Some instance)
              (Errorf "noop: aborting skip-query operation on %+v; signalling error but nothing went wrong."
                 [OKey instanceKey])))
    else
      let finish (err : option error) : M Outcome :=
        match err with
        | Some err => mret (Returns (Fail (Some instance) err))
        | None =>
            _ ← AuditOperation "skip-query" instanceKey "Skipped one query";
            StartReplication instanceKey
        end in
      if UsingOracleGTID instance then
        err ← skipQueryOracleGtid instance; finish err
      else if UsingMariaDBGTID instance then
        mret (Returns (Fail (Some instance)
                (Errorf "%+v is replicating with MariaDB GTID. To skip a query first disable GTID, then skip, then enable GTID again"
                   [OKey instanceKey])))
      else
        err ← skipQueryClassic instance; finish err
  end.

(** *** Read-only, kill *)

(** SetReadOnly sets or clears the instance's global read_only variable. *)
Definition SetReadOnly (instanceKey : InstanceKey) (readOnly : bool) : M Result :=
  withInstance instanceKey (λ instance,
    if Noop config then
      mret (Fail (Some instance)
              (Errorf "noop: aborting set-read-only operation on %+v; signalling error but nothing went wrong."
                 [OKey instanceKey]))
    else
      r ← (if (0 <? SemiSyncPriority instance) && negb readOnly
           then errorOf <$> SetSemiSyncMaster instanceKey true
           else mret None);
      match r with
      | Some err => mret (Fail (Some instance) err)
      | None =>
          err ← ExecInstance instanceKey "set global read_only = ?" [OBool readOnly];
          match err with
          | Some err => mret (Fail (Some instance) err)
          | None =>
              _ ← (if UseSuperReadOnly config
                   then ExecInstance instanceKey "set global super_read_only = ?" [OBool readOnly]
                   else mret None);
              withInstance instanceKey (λ instance,
                r ← (if (0 <? SemiSyncPriority instance) && readOnly
                     then errorOf <$> SetSemiSyncMaster instanceKey false
                     else mret None);
                match r with
                | Some err => mret (Fail (Some instance) err)
                | None =>
                    _ ← AuditOperation "read-only" instanceKey
                          (Sprintf "set as %t" [OBool readOnly]);
                    mret (Ok instance)
                end)
          end
      end).

(** KillQuery kills a query on a given instance. *)
Definition KillQuery (instanceKey : InstanceKey) (process : Z) : M Result :=
  withInstance instanceKey (λ instance,
    if Noop config then
      mret (Fail (Some instance)
              (Errorf "noop: aborting kill-query operation on %+v; signalling error but nothing went wrong."
                 [OKey instanceKey]))
    else
      err ← ExecInstance instanceKey "kill query ?" [OInt process];
      match err with
      | Some err => mret (Fail (Some instance) err)
      | None =>
          withInstance instanceKey (λ instance,
            _ ← AuditOperation "kill-query" instanceKey
                  (Sprintf "Killed query %d" [OInt process]);
            mret (Ok instance))
      end).

End Dao.

Arguments State : clear implicits.
Arguments M : clear implicits.
Arguments Env : clear implicits.
Arguments Prog : clear implicits.
Arguments Done {W A} a.
Arguments Step {W A X} m rest.
Arguments Steps : clear implicits.
Arguments Goroutine : clear implicits.
Arguments Pool : clear implicits.

(** ** A small world of servers

    A model of MySQL servers that answers the collaborators' calls, used to
    run the operations on concrete inputs. *)

Module Toy.

(** The statement texts of a classic (pre-8.4) server. *)
Definition classicQSP : QueryStringProvider := {|
  stop_slave := "stop slave";
  start_slave := "start slave";
  stop_slave_io_thread := "stop slave io_thread";
  start_slave_io_thread := "start slave io_thread";
  stop_slave_sql_thread := "stop slave sql_thread";
  start_slave_sql_thread := "start slave sql_thread";
  start_slave_until_master_log := "start slave until master_log_file=?, master_log_pos=?";
  reset_slave := "reset slave";
  reset_slave_50603_all := "reset slave /*!50603 all */";
  reset_master := "reset master";
  set_sql_slave_skip_counter := "set global sql_slave_skip_counter := 1";
  change_master_to_master_host := "change master to master_host='_'";
  change_master_to_master_host_port := "change master to master_host=?, master_port=?";
  change_master_to_master_host_port_log :=
    "change master to master_host=?, master_port=?, master_log_file=?, master_log_pos=?";
  change_master_to_master_host_port_log_gtid_no :=
    "change master to master_host=?, master_port=?, master_log_file=?, master_log_pos=?, master_use_gtid=no";
  change_master_to_master_host_port_log_autoposition_no :=
    "change master to master_host=?, master_port=?, master_log_file=?, master_log_pos=?, master_auto_position=0";
  change_master_to_master_host_port_autoposition_yes :=
    "change master to master_host=?, master_port=?, master_auto_position=1";
  change_master_to_master_ssl := "change master to master_ssl=1";
  change_master_to_get_source_public_key := "change master to get_master_public_key=1";
  change_master_to_with_params := "change master to %s";
  change_master_to_master_delay := "change master to master_delay=%d";
  master_user_param := "master_user=?";
  master_password_param := "master_password=?";
  master_ssl_ca_param := "master_ssl_ca=?";
  master_ssl_cert_param := "master_ssl_cert=?";
  master_ssl_key_param := "master_ssl_key=?";
  master_ssl := "master_ssl" |}.

(** What does not change while the operations run. *)
Record Static := mkStatic {
  s_key : InstanceKey;
  s_master : InstanceKey;
  s_mariadb : bool;
  s_using_oracle_gtid : bool;
  s_using_mariadb_gtid : bool;
  s_supports_oracle_gtid : bool;
  s_priority : Z;
  s_promotion_rule : CandidatePromotionRule;
  s_wait_count : Z;
  s_clients : Z;
  s_delay : Z;
  s_last_sql_error : string;
  s_replicas : list InstanceKey }.

(** What the statements change. *)
Record Dynamic := mkDynamic {
  d_io : bool;
  d_sql : bool;
  d_exec : BinlogCoordinates;
  d_until : option BinlogCoordinates;
  d_semi_master : bool;
  d_semi_replica : bool;
  d_read_only : bool;
  d_failing : list (string * error) }.

Record Server := mkServer { static : Static; dynamic : Dynamic }.

Record World := mkWorld { servers : list Server; clock : Z }.

Definition isReplica (s : Server) : bool :=
  negb (String.eqb (Hostname (s_master (static s))) "").

(** The snapshot the reader takes of a server. *)
Definition snapshot (s : Server) : Instance :=
  let st := static s in
  let d := dynamic s in {|
  Key := s_key st;
  MasterKey := s_master st;
  ServerID := 1;
  ClusterName := "toy";
  ReadOnly := d_read_only d;
  ReplicationIOThreadRuning := d_io d;
  ReplicationSQLThreadRuning := d_sql d;
  SelfBinlogCoordinates := mkCoords "mysql-bin.000001" 4;
  ExecBinlogCoordinates := d_exec d;
  SQLDelay := s_delay st;
  LastSQLError := s_last_sql_error st;
  IsLastCheckValid := true;
  UsingOracleGTID := s_using_oracle_gtid st;
  SupportsOracleGTID := s_supports_oracle_gtid st;
  UsingMariaDBGTID := s_using_mariadb_gtid st;
  SemiSyncPriority := s_priority st;
  SemiSyncMasterEnabled := d_semi_master d;
  SemiSyncReplicaEnabled := d_semi_replica d;
  SemiSyncMasterPluginNewVersion := false;
  SemiSyncReplicaPluginNewVersion := false;
  SemiSyncMasterWaitForReplicaCount := s_wait_count st;
  SemiSyncMasterClients := s_clients st;
  PromotionRule := s_promotion_rule st;
  Replicas := s_replicas st;
  QSP := classicQSP;
  IsReplica := isReplica s;
  ReplicationThreadsExist := isReplica s;
  ReplicationThreadsStopped := negb (d_io d) && negb (d_sql d);
  ReplicaRunning := isReplica s && d_io d && d_sql d;
  IsMariaDB := s_mariadb st;
  isMaxScale := false;
  SQLThreadUpToDate := true;
  NextGTID := ("3e11fa47-71ca-11e1-9e33-c80aa9429562:23", None) |}.

Definition setThreads (io sql : bool) (d : Dynamic) : Dynamic :=
  mkDynamic io sql (d_exec d) (d_until d) (d_semi_master d) (d_semi_replica d)
            (d_read_only d) (d_failing d).

Definition setExec (c : BinlogCoordinates) (d : Dynamic) : Dynamic :=
  mkDynamic (d_io d) (d_sql d) c (d_until d) (d_semi_master d) (d_semi_replica d)
            (d_read_only d) (d_failing d).

Definition setUntil (u : option BinlogCoordinates) (d : Dynamic) : Dynamic :=
  mkDynamic (d_io d) (d_sql d) (d_exec d) u (d_semi_master d) (d_semi_replica d)
            (d_read_only d) (d_failing d).

Definition setSemiMaster (b : bool) (d : Dynamic) : Dynamic :=
  mkDynamic (d_io d) (d_sql d) (d_exec d) (d_until d) b (d_semi_replica d)
            (d_read_only d) (d_failing d).

Definition setSemiReplica (b : bool) (d : Dynamic) : Dynamic :=
  mkDynamic (d_io d) (d_sql d) (d_exec d) (d_until d) (d_semi_master d) b
            (d_read_only d) (d_failing d).

Definition setReadOnly (b : bool) (d : Dynamic) : Dynamic :=
  mkDynamic (d_io d) (d_sql d) (d_exec d) (d_until d) (d_semi_master d) (d_semi_replica d)
            b (d_failing d).

Definition setFailing (f : list (string * error)) (d : Dynamic) : Dynamic :=
  mkDynamic (d_io d) (d_sql d) (d_exec d) (d_until d) (d_semi_master d) (d_semi_replica d)
            (d_read_only d) f.

(** The first scripted failure of a query is taken out of the script. *)
Fixpoint takeFailure (query : string) (f : list (string * error))
    : option (error * list (string * error)) :=
  match f with
  | [] => None
  | (q, e) :: rest =>
      if String.eqb q query then Some (e, rest)
      else match takeFailure query rest with
           | Some (e', rest') => Some (e', (q, e) :: rest')
           | None => None
           end
  end.

(** The effect of a statement the server accepts. *)
Definition apply (query : string) (args : list Operand) (d : Dynamic) : Dynamic :=
  if String.eqb query (stop_slave classicQSP) then setThreads false false d
  else if String.eqb query (start_slave classicQSP) then setUntil None (setThreads true true d)
  else if String.eqb query (stop_slave_io_thread classicQSP) then setThreads false (d_sql d) d
  else if String.eqb query (start_slave_io_thread classicQSP) then setThreads true (d_sql d) d
  else if String.eqb query (stop_slave_sql_thread classicQSP) then setThreads (d_io d) false d
  else if String.eqb query (start_slave_sql_thread classicQSP) then setThreads (d_io d) true d
  else if String.eqb query (start_slave_until_master_log classicQSP) then
    match args with
    | [OStr file; OInt pos] => setUntil (Some (mkCoords file pos)) (setThreads true true d)
    | _ => d
    end
  else if String.eqb query "set @@global.rpl_semi_sync_master_enabled=?" then
    match args with [OBool b] => setSemiMaster b d | _ => d end
  else if String.eqb query "set @@global.rpl_semi_sync_slave_enabled=?" then
    match args with [OBool b] => setSemiReplica b d | _ => d end
  else if String.eqb query "set global read_only = ?" then
    match args with [OBool b] => setReadOnly b d | _ => d end
  else d.

(** A statement sent to a server: it fails if the script says so, and takes
    effect otherwise. *)
Definition execute (query : string) (args : list Operand) (s : Server)
    : option error * Server :=
  match takeFailure query (d_failing (dynamic s)) with
  | Some (e, rest) => (Some e, mkServer (static s) (setFailing rest (dynamic s)))
  | None => (None, mkServer (static s) (apply query args (dynamic s)))
  end.

(** Time passing on a server: an SQL thread started with UNTIL applies events
    up to the target and stops there. *)
Definition tick (s : Server) : Server :=
  let d := dynamic s in
  match d_until d with
  | Some target =>
      if d_sql d && SmallerThan (d_exec d) target
      then mkServer (static s) (setThreads (d_io d) false (setExec target d))
      else s
  | None => s
  end.

Fixpoint lookupServer (key : InstanceKey) (l : list Server) : option Server :=
  match l with
  | [] => None
  | s :: rest => if InstanceKey_Equals (s_key (static s)) key then Some s
                 else lookupServer key rest
  end.

Fixpoint updateServer (key : InstanceKey) (f : Server → Server) (l : list Server)
    : list Server :=
  match l with
  | [] => []
  | s :: rest => if InstanceKey_Equals (s_key (static s)) key then f s :: rest
                 else s :: updateServer key f rest
  end.

Definition unknownInstance : error := ErrorString "dial tcp: no such host".

Definition read (key : InstanceKey) (w : World) : Result * World :=
  match lookupServer key (servers w) with
  | Some s => (Ok (snapshot s), mkWorld (updateServer key tick (servers w)) (clock w))
  | None => (Fail None unknownInstance, w)
  end.

Definition exec (key : InstanceKey) (query : string) (args : list Operand) (w : World)
    : option error * World :=
  match lookupServer key (servers w) with
  | Some s =>
      (fst (execute query args s),
       mkWorld (updateServer key (λ s, snd (execute query args s)) (servers w)) (clock w))
  | None => (Some unknownInstance, w)
  end.

(** The rank of a promotion rule: lower is better. *)
Definition rank (rule : CandidatePromotionRule) : Z :=
  if String.eqb rule "must" then 0
  else if String.eqb rule "prefer" then 1
  else if String.eqb rule "neutral" then 2
  else if String.eqb rule "prefer_not" then 3
  else 4.

Definition toyEnv : Env World := {|
  env_ReadTopologyInstance := read;
  env_ReadTopologyInstances := λ keys w,
    ((omap (λ k, snapshot <$> lookupServer k (servers w)) keys, None), w);
  env_ReadReplicaInstances := λ masterKey w,
    ((snapshot <$> filter (λ s, InstanceKey_Equals (s_master (static s)) masterKey = true)
                         (servers w), None), w);
  env_Exec := exec;
  env_EmptyCommit := λ key w, (None, w);
  env_UnresolveHostname := λ key w, ((key, false, None), w);
  env_AuditOperation := λ _ _ _ w, w;
  env_WriteMasterPositionEquivalence := λ _ _ _ _ w, w;
  env_ResetInstanceRelaylogCoordinatesHistory := λ _ w, w;
  env_expectReplicationThreadsState := λ instance key expected w,
    match lookupServer key (servers w) with
    | Some s =>
        let running := d_io (dynamic s) && d_sql (dynamic s) in
        let stopped := negb (d_io (dynamic s)) && negb (d_sql (dynamic s)) in
        ((match expected with
          | ReplicationThreadStateRunning => running
          | ReplicationThreadStateStopped => stopped
          end, None), w)
    | None => ((false, Some unknownInstance), w)
    end;
  env_RetryInstanceFunction := λ f, f;
  env_BetterThan := λ a b, rank a <? rank b;
  env_SemicolonTerminated := λ s, s +:+ ";";
  env_Now := clock;
  env_Sleep := λ d w, mkWorld (servers w) (clock w + d) |}.

(** The settings: everything off, polls every 500ms. *)
Definition settings (noop : bool) : Config := {|
  Noop := noop;
  EnforceExactSemiSyncReplicas := false;
  RecoverLockedSemiSyncMaster := false;
  UseSuperReadOnly := false;
  ReasonableReplicationLagSeconds := 10;
  retryInterval := 500 * Millisecond |}.

(** Fixtures: a master and its replicas. *)
Definition masterKey : InstanceKey := mkKey "db-master" 3306.
Definition key1 : InstanceKey := mkKey "db-replica-1" 3306.
Definition key2 : InstanceKey := mkKey "db-replica-2" 3306.
Definition key3 : InstanceKey := mkKey "db-replica-3" 3306.

Definition replicaStatic (key : InstanceKey) : Static := {|
  s_key := key; s_master := masterKey; s_mariadb := false;
  s_using_oracle_gtid := false; s_using_mariadb_gtid := false;
  s_supports_oracle_gtid := false;
  s_priority := 0; s_promotion_rule := "neutral"; s_wait_count := 0; s_clients := 0;
  s_delay := 0; s_last_sql_error := ""; s_replicas := [] |}.

Definition at0 : BinlogCoordinates := mkCoords "mysql-bin.000007" 120.

(** A replica with both threads in the given state. *)
Definition replicaDynamic (running : bool) : Dynamic := {|
  d_io := running; d_sql := running; d_exec := at0; d_until := None;
  d_semi_master := false; d_semi_replica := false; d_read_only := true;
  d_failing := [] |}.

Definition replica (key : InstanceKey) (running : bool) : Server :=
  mkServer (replicaStatic key) (replicaDynamic running).

Definition masterServer (waitCount clients : Z) : Server :=
  mkServer {| s_key := masterKey; s_master := mkKey "" 0; s_mariadb := false;
              s_using_oracle_gtid := false; s_using_mariadb_gtid := false;
              s_supports_oracle_gtid := false;
              s_priority := 0; s_promotion_rule := "neutral";
              s_wait_count := waitCount; s_clients := clients;
              s_delay := 0; s_last_sql_error := ""; s_replicas := [key1; key2; key3] |}
           {| d_io := false; d_sql := false; d_exec := mkCoords "" 0; d_until := None;
              d_semi_master := true; d_semi_replica := false; d_read_only := false;
              d_failing := [] |}.

(** A MariaDB replica of [masterKey] replicating with MariaDB GTID, threads
    stopped. *)
Definition mariadbReplica (key : InstanceKey) (usingGTID : bool) : Server :=
  mkServer {| s_key := key; s_master := masterKey; s_mariadb := true;
              s_using_oracle_gtid := false; s_using_mariadb_gtid := usingGTID;
              s_supports_oracle_gtid := false;
              s_priority := 0; s_promotion_rule := "neutral"; s_wait_count := 0;
              s_clients := 0; s_delay := 0; s_last_sql_error := ""; s_replicas := [] |}
           (replicaDynamic false).

(** An Oracle replica of [masterKey] replicating with GTID, threads stopped;
    the next CHANGE MASTER statements it receives fail as scripted. *)
Definition oracleGtidReplica (key : InstanceKey) (failing : list (string * error)) : Server :=
  mkServer {| s_key := key; s_master := masterKey; s_mariadb := false;
              s_using_oracle_gtid := true; s_using_mariadb_gtid := false;
              s_supports_oracle_gtid := true;
              s_priority := 0; s_promotion_rule := "neutral"; s_wait_count := 0;
              s_clients := 0; s_delay := 0; s_last_sql_error := ""; s_replicas := [] |}
           (setFailing failing (replicaDynamic false)).

(** A classic replica whose SQL thread stopped on an error. *)
Definition brokenReplica (key : InstanceKey) : Server :=
  mkServer {| s_key := key; s_master := masterKey; s_mariadb := false;
              s_using_oracle_gtid := false; s_using_mariadb_gtid := false;
              s_supports_oracle_gtid := false;
              s_priority := 0; s_promotion_rule := "neutral"; s_wait_count := 0;
              s_clients := 0; s_delay := 0;
              s_last_sql_error := "Error 1062: Duplicate entry '7' for key 'PRIMARY'";
              s_replicas := [] |}
           (setThreads true false (replicaDynamic false)).

(** A MariaDB replica with both threads running. *)
Definition mariadbRunning (key : InstanceKey) : Server :=
  mkServer (static (mariadbReplica key false)) (replicaDynamic true).

(** Two worlds: a replica of [masterKey] with both threads running, or stopped. *)
Definition running : World := mkWorld [replica key1 true; masterServer 1 0] 0.
Definition stopped : World := mkWorld [replica key1 false; masterServer 1 0] 0.

(** A candidate replica for the policy engine: pointer [a], semi-sync flag [enabled]. *)
Definition candidate (a : positive) (key : InstanceKey) (enabled : bool) : InstancePtr :=
  mkPtr a (snapshot (mkServer (replicaStatic key)
                              (setSemiReplica enabled (replicaDynamic true)))).

(** The server of [key1] in a world satisfies [P]. *)
Definition server1 (P : Server → Prop) (w : World) : Prop :=
  ∃ s, lookupServer key1 (servers w) = Some s ∧ P s.

(** The snapshots of this world: classic statement texts, no MaxScale. *)
Definition toySnap (i : Instance) : Prop := QSP i = classicQSP ∧ isMaxScale i = false.

Definition toyUntil (target : BinlogCoordinates) : World → Prop :=
  server1 (λ s, d_until (dynamic s) = Some target).

Definition toyReached (target : BinlogCoordinates) : World → Prop :=
  server1 (λ s, d_until (dynamic s) = Some target ∧ d_exec (dynamic s) = target).

Definition toyHalted : World → Prop :=
  server1 (λ s, d_io (dynamic s) = false ∧ d_sql (dynamic s) = false).

End Toy.

(** ** Vocabulary of the properties *)

Module Props.

(** A replica whose semi-sync replica flag is off. *)
Definition disabled (r : InstancePtr) : Prop := SemiSyncReplicaEnabled (deref r) = false.

#[global] Instance disabled_dec r : Decision (disabled r).
Proof. unfold disabled. apply _. Defined.

(** The action the exact topology wants for a replica: none when the current
    flag is the desired one, else the desired one. *)
Definition actionFor (desired current : bool) : option bool :=
  if Bool.eqb desired current then None else Some desired.

(** Events that only look something up: the snapshot readers and the
    hostname lookup. *)
Definition isLookup (e : Event) : bool :=
  match e with
  | EvReadTopologyInstance _ | EvReadTopologyInstances _ | EvReadReplicaInstances _
  | EvUnresolveHostname _ => true
  | _ => false
  end.

(** The statement that sets the replica-side flag on the snapshot's server. *)
Definition flagQuery (instance : Instance) : string :=
  if SemiSyncReplicaPluginNewVersion instance
  then "set @@global.rpl_semi_sync_replica_enabled=?"
  else "set @@global.rpl_semi_sync_slave_enabled=?".

Section WithEnv.
Context {W : Type}.
Variable env : Env W.

(** The reader answers for [key] in world [w] with a snapshot that satisfies [pre]. *)
Definition passes (key : InstanceKey) (w : W) (pre : Instance → bool) : Prop :=
  match env_ReadTopologyInstance env key w with
  | (Ok instance, _) => pre instance = true
  | (Fail _ _, _) => False
  end.

(** ChangeMasterTo is ready for the change when the snapshot is read, the
    threads are not running, and the master's name unresolves. *)
Definition changeMasterReady (key masterKey : InstanceKey) (skipUnresolve : bool) (w : W)
    : Prop :=
  match env_ReadTopologyInstance env key w with
  | (Ok instance, w1) =>
      threadsRunning instance = false
      ∧ (skipUnresolve = true ∨ (env_UnresolveHostname env masterKey w1).1.2 = None)
  | (Fail _ _, _) => False
  end.

(** How ChangeMasterTo gets the key it changes to, from the world left by the
    snapshot read: the given key, or what UnresolveHostname makes of it, with
    the world and the event of the lookup.  [None]: the lookup fails. *)
Definition resolveMaster (masterKey : InstanceKey) (skipUnresolve : bool) (w1 : W)
    : option (InstanceKey * W * list Event) :=
  if skipUnresolve then Some (masterKey, w1, [])
  else match env_UnresolveHostname env masterKey w1 with
       | ((unresolved, _, None), w2) => Some (unresolved, w2, [EvUnresolveHostname masterKey])
       | ((_, _, Some _), _) => None
       end.

(** The world after the queries were sent one after the other to [key]. *)
Definition afterQueries (key : InstanceKey) (queries : list string) (w : W) : W :=
  foldl (λ w query, (env_Exec env key query [] w).2) w queries.

(** The events of the workaround. *)
Definition workaroundEvents (instance : Instance) (key : InstanceKey) : list Event :=
  [ EvExecInstance key (reset_slave (QSP instance)) [];
    EvExecInstance key (start_slave_io_thread (QSP instance)) [];
    EvExecInstance key (stop_slave_io_thread (QSP instance)) [];
    EvExecInstance key (reset_slave (QSP instance)) [] ].

(** The bookkeeping and the final read after a successful change. *)
Definition changeMasterSuccess (instance : Instance) (key changeToMasterKey : InstanceKey)
    (coords : BinlogCoordinates) (s : State W) : Result * State W :=
  let w1 := env_WriteMasterPositionEquivalence env (MasterKey instance)
              (ExecBinlogCoordinates instance) changeToMasterKey coords (world s) in
  let w2 := env_ResetInstanceRelaylogCoordinatesHistory env key w1 in
  ((env_ReadTopologyInstance env key w2).1,
   mkState (env_ReadTopologyInstance env key w2).2
     (trace s ++ [ EvWriteMasterPositionEquivalence (MasterKey instance)
                     (ExecBinlogCoordinates instance) changeToMasterKey coords;
                   EvResetInstanceRelaylogCoordinatesHistory key;
                   EvReadTopologyInstance key ])).

(** What the dry-run flag asks of an operation run from world [w]: nothing
    but lookups leaves the process, the result is an error, and it is the
    noop error whenever [ready] holds (the operation's own checks pass). *)
Definition abortsDryRun (m : M W Result) (w : W) (ready : Prop) : Prop :=
  let '(r, s') := run m w in
  Forall (λ e, isLookup e = true) (trace s')
  ∧ ∃ instance err, r = Fail instance err ∧ (ready → isNoopError err = true).

(** The same for an operation that can panic: it does not, and returns. *)
Definition abortsDryRunReturning (m : M W Outcome) (w : W) (ready : Prop) : Prop :=
  let '(o, s') := run m w in
  Forall (λ e, isLookup e = true) (trace s')
  ∧ ∃ instance err, o = Returns (Fail instance err) ∧ (ready → isNoopError err = true).

(** The same for the operations that return only an error. *)
Definition abortsDryRunErr (m : M W (option error)) (w : W) : Prop :=
  let '(r, s') := run m w in
  trace s' = [] ∧ world s' = w ∧ ∃ err, r = Some err ∧ isNoopError err = true.

End WithEnv.

(** *** The bulk stop *)

(** A statement sent to [key]. *)
Definition isStatementTo (key : InstanceKey) (e : Event) : bool :=
  match e with
  | EvExecInstance k _ _ | EvEmptyCommitInstance k => InstanceKey_Equals k key
  | _ => false
  end.

(** The statements of a trace that went to [key], in order. *)
Definition sentTo (key : InstanceKey) (t : list Event) : list Event :=
  List.filter (isStatementTo key) t.

(** An event that sends no statement. *)
Definition silent (e : Event) : Prop := isStatement e = false.

(** An event that sends no statement to a server other than [key]. *)
Definition onlyTo (key : InstanceKey) (e : Event) : Prop :=
  isStatement e = true → isStatementTo key e = true.

(** What the plain stop sends to [key]: nothing, when the snapshot cannot be
    read or is no replica, or the statement that stops both threads. *)
Definition plainStop (key : InstanceKey) (sent : list Event) : Prop :=
  sent = [] ∨ ∃ instance, sent = [EvExecInstance key (stop_slave (QSP instance)) []].

(** What the nice stop sends to [key], as far as it gets: the stop of the IO
    thread, the start of the SQL thread and, once the wait for the SQL thread
    is over, the stop of both threads. *)
Definition niceStop (key : InstanceKey) (sent : list Event) : Prop :=
  ∃ instance drained,
    sent `prefix_of` [ EvExecInstance key (stop_slave_io_thread (QSP instance)) [];
                       EvExecInstance key (start_slave_sql_thread (QSP instance)) [];
                       EvExecInstance key (stop_slave (QSP drained)) [] ].

(** [l] is [sent] followed by statements that satisfy [P]. *)
Definition after (sent : list Event) (P : list Event → Prop) (l : list Event) : Prop :=
  ∃ more, l = (sent ++ more)%list ∧ P more.

(** The nice stop, then the plain stop. *)
Definition niceThenPlainStop (key : InstanceKey) (sent : list Event) : Prop :=
  ∃ nice plain, sent = (nice ++ plain)%list ∧ niceStop key nice ∧ plainStop key plain.

(** The stop policy: what the statements sent to a replica may be, by the
    method and, for the nice method, by the dialect. *)
Definition treated (method : StopReplicationMethod) (replica : Instance)
    (sent : list Event) : Prop :=
  match method with
  | NoStopReplication => sent = []
  | StopReplicationNormal => plainStop (Key replica) sent
  | StopReplicationNice =>
      if IsMariaDB replica then plainStop (Key replica) sent
      else niceThenPlainStop (Key replica) sent
  end.

(** The statements of the treatment carried out in full, on a server whose
    statement texts are [qsp]. *)
Definition treatment (method : StopReplicationMethod) (replica : Instance)
    (qsp : QueryStringProvider) : list Event :=
  let stop := EvExecInstance (Key replica) (stop_slave qsp) [] in
  match method with
  | NoStopReplication => []
  | StopReplicationNormal => [stop]
  | StopReplicationNice =>
      if IsMariaDB replica then [stop]
      else [ EvExecInstance (Key replica) (stop_slave_io_thread qsp) [];
             EvExecInstance (Key replica) (start_slave_sql_thread qsp) [];
             stop; stop ]
  end.

(** The same by the method alone, whatever the dialect. *)
Definition treatmentByMethod (method : StopReplicationMethod) (replica : Instance)
    (qsp : QueryStringProvider) : list Event :=
  let stop := EvExecInstance (Key replica) (stop_slave qsp) [] in
  match method with
  | NoStopReplication => []
  | StopReplicationNormal => [stop]
  | StopReplicationNice =>
      [ EvExecInstance (Key replica) (stop_slave_io_thread qsp) [];
        EvExecInstance (Key replica) (start_slave_sql_thread qsp) [];
        stop; stop ]
  end.

(** A snapshot of a replica with its threads configured, its SQL thread up to
    date, and the statement texts [qsp]. *)
Definition drained (qsp : QueryStringProvider) (instance : Instance) : Prop :=
  IsReplica instance = true ∧ ReplicationThreadsExist instance = true
  ∧ SQLThreadUpToDate instance = true ∧ QSP instance = qsp.

Section Goroutines.
Context {W : Type}.
Variable env : Env W.

(** The server of [key] answers while the world is [Healthy]: its snapshot
    reads succeed, retried or not, with a drained snapshot, it accepts every
    statement, and the world stays healthy. *)
Definition answers (qsp : QueryStringProvider) (Healthy : W → Prop) (key : InstanceKey)
    : Prop :=
  (∀ w, Healthy w →
     ∃ instance w', env_ReadTopologyInstance env key w = (Ok instance, w')
                    ∧ drained qsp instance ∧ Healthy w')
  ∧ (∀ s, Healthy (world s) →
       ∃ instance s' t,
         env_RetryInstanceFunction env (ReadTopologyInstance env key) s = (Ok instance, s')
         ∧ drained qsp instance ∧ Healthy (world s')
         ∧ trace s' = (trace s ++ t)%list ∧ Forall silent t)
  ∧ (∀ query args w, Healthy w →
       ∃ w', env_Exec env key query args w = (None, w') ∧ Healthy w').

(** The retried read of a snapshot sends no statement. *)
Definition retryIsSilent : Prop :=
  ∀ key (s : State W),
    ∃ t, trace (env_RetryInstanceFunction env (ReadTopologyInstance env key) s).2
         = (trace s ++ t)%list
         ∧ Forall silent t.

(** The code [p] of a goroutine, [sent] being what went to [key] so far:
    whenever it is about to make a call [inv] holds of what was sent; each
    call, made in a healthy world, leaves the trace in place, adds no
    statement to another server, and leaves the world healthy; and when the
    code ends with [a], [post a] holds of what was sent. *)
Fixpoint follows (Healthy : W → Prop) (key : InstanceKey) (inv : list Event → Prop)
    {A} (post : A → list Event → Prop) (sent : list Event) (p : Prog W A) : Prop :=
  match p with
  | Done a => post a sent
  | Step m rest =>
      inv sent
      ∧ ∀ s, Healthy (world s) →
          ∃ t, trace (m s).2 = (trace s ++ t)%list
               ∧ Healthy (world (m s).2)
               ∧ Forall (onlyTo key) t
               ∧ follows Healthy key inv post (sent ++ sentTo key t)%list (rest (m s).1)
  end.

(** The code [p], run in healthy worlds, is over within [n] calls, with a
    value that satisfies [post]. *)
Fixpoint ends (Healthy : W → Prop) (n : nat) {A} (post : A → Prop) (p : Prog W A)
    {struct p} : Prop :=
  match p with
  | Done a => post a
  | Step m rest =>
      match n with
      | O => False
      | S n' =>
          ∀ s, Healthy (world s) →
            Healthy (world (m s).2) ∧ ends Healthy n' post (rest (m s).1)
      end
  end.

(** A goroutine in flight. *)
Definition isRunning (g : Goroutine W) : bool :=
  match g with
  | Running _ _ => true
  | _ => false
  end.

(** Goroutine [g] needs at most [turns] turns to have its value received:
    one for the token, one for each call of its function [task], one to
    return the token and one for the barrier. *)
Definition near (Healthy : W → Prop) (task : Instance → Prog W (option Outcome))
    (g : Goroutine W) (turns : nat) : Prop :=
  match g with
  | Queued replica => ∃ n, ends Healthy n is_Some (task replica) ∧ (n + 3 ≤ turns)%nat
  | Running _ rest => ∃ n, ends Healthy n is_Some rest ∧ (n + 2 ≤ turns)%nat
  | Completed _ => (1 ≤ turns)%nat
  | Received => True
  end.

(** Every goroutine of the pool is near its end, as [budget] says turn by
    turn, and the tokens taken are those of the goroutines in flight. *)
Definition poolNear (Healthy : W → Prop) (task : Instance → Prog W (option Outcome))
    (budget : list nat) (pool : Pool W) (s : State W) : Prop :=
  Healthy (world s)
  ∧ tokens pool = List.length (List.filter isRunning (goroutines pool))
  ∧ Forall2 (near Healthy task) (goroutines pool) budget.

(** A turn of goroutine [i] changes the pool: it is in flight or has its value
    on the barrier, or it is waiting and there is a token left. *)
Definition canMove (pool : Pool W) (i : nat) : bool :=
  match goroutines pool !! i with
  | Some (Queued _) => (tokens pool <? topologyConcurrency)%nat
  | Some (Running _ _) | Some (Completed _) => true
  | Some Received | None => false
  end.

(** A schedule made of rounds, each of which gives a turn to every one of
    [n] goroutines. *)
Definition fair (n : nat) (rounds : list (list nat)) : Prop :=
  Forall (λ round : list nat, ∀ i : nat, (i < n)%nat → i ∈ round) rounds.

(** The pool of goroutines, each judged by the [inv] and [post] of its
    replica. *)
Section Pools.
Variable Healthy : W → Prop.
Variable inv : Instance → list Event → Prop.
Variable post : Instance → option Outcome → list Event → Prop.

(** The function of the goroutine is over, having sent [sent]. *)
Definition finished (replica : Instance) (sent : list Event) : Prop :=
  ∃ outcome, post replica (Some outcome) sent.

(** A value the barrier delivers: what a goroutine sends when its function
    is over. *)
Definition delivered (replicas : list Instance) (updated : option Instance) : Prop :=
  ∃ replica outcome sent,
    replica ∈ replicas ∧ updated = updatedReplica replica outcome
    ∧ post replica (Some outcome) sent.

(** Goroutine [g] of [replica] is where it should be, [sent] being what went
    to the replica's server so far. *)
Definition onTrack (replicas : list Instance) (replica : Instance) (g : Goroutine W)
    (sent : list Event) : Prop :=
  match g with
  | Queued r => r = replica ∧ sent = []
  | Running r rest =>
      r = replica
      ∧ follows Healthy (Key replica) (inv replica) (post replica) sent rest
  | Completed updated => delivered replicas updated ∧ finished replica sent
  | Received => finished replica sent
  end.

(** The pool and the state are where they should be. *)
Definition poolOK (replicas : list Instance) (pool : Pool W) (s : State W) : Prop :=
  Healthy (world s)
  ∧ List.length (goroutines pool) = List.length replicas
  ∧ (∀ (i : nat) replica g,
       replicas !! i = Some replica → goroutines pool !! i = Some g →
       onTrack replicas replica g (sentTo (Key replica) (trace s)))
  ∧ Forall (λ e, isStatement e = true →
                 ∃ replica, replica ∈ replicas ∧ isStatementTo (Key replica) e = true)
           (trace s)
  ∧ Forall (delivered replicas) (refreshedReplicas pool)
  ∧ List.length (refreshedReplicas pool)
    = List.length (List.filter isReceived (goroutines pool)).

End Pools.

End Goroutines.

End Props.

(** ** Proof tools *)

(** Unfolding of the monad and of the primitives, down to the handlers. *)
Ltac unfold_monad :=
  unfold run, withInstance, ReadTopologyInstance, ReadTopologyInstances,
    ReadReplicaInstances, ExecInstance, EmptyCommitInstance, UnresolveHostname,
    AuditOperation, WriteMasterPositionEquivalence,
    ResetInstanceRelaylogCoordinatesHistory, expectReplicationThreadsState,
    Now, Since, Sleep, call, atomically, M_steps, mbind, M_bind, mret, M_ret,
    fmap, M_fmap in *;
  cbn [world trace fst snd] in *.

(** Case analysis on the next handler call of the goal: the one whose
    arguments are known. *)
Ltac next_call :=
  match goal with
  | |- context [env_Exec ?e ?k ?q ?a ?w] =>
      destruct (env_Exec e k q a w) as [[?|] ?] eqn:?
  | |- context [env_EmptyCommit ?e ?k ?w] =>
      destruct (env_EmptyCommit e k w) as [[?|] ?] eqn:?
  | |- context [env_ReadTopologyInstance ?e ?k ?w] =>
      destruct (env_ReadTopologyInstance e k w) as [[?|? ?] ?] eqn:?
  | |- context [env_UnresolveHostname ?e ?k ?w] =>
      destruct (env_UnresolveHostname e k w) as [[[? ?] [?|]] ?] eqn:?
  | |- context [env_expectReplicationThreadsState ?e ?i ?k ?x ?w] =>
      destruct (env_expectReplicationThreadsState e i k x w) as [[[|] ?] ?] eqn:?
  end; cbn [world trace fst snd app] in *.

(** ** More servers for the small world *)

Module Fixtures.
Import Toy.

(** The server [s] with another semi-sync priority and promotion rule. *)
Definition prioritised (priority : Z) (rule : CandidatePromotionRule) (s : Server) : Server :=
  let st := static s in
  mkServer {| s_key := s_key st; s_master := s_master st; s_mariadb := s_mariadb st;
              s_using_oracle_gtid := s_using_oracle_gtid st;
              s_using_mariadb_gtid := s_using_mariadb_gtid st;
              s_supports_oracle_gtid := s_supports_oracle_gtid st;
              s_priority := priority; s_promotion_rule := rule;
              s_wait_count := s_wait_count st; s_clients := s_clients st;
              s_delay := s_delay st; s_last_sql_error := s_last_sql_error st;
              s_replicas := s_replicas st |}
           (dynamic s).

(** The server [s] with a replication delay. *)
Definition delayed (seconds : Z) (s : Server) : Server :=
  let st := static s in
  mkServer {| s_key := s_key st; s_master := s_master st; s_mariadb := s_mariadb st;
              s_using_oracle_gtid := s_using_oracle_gtid st;
              s_using_mariadb_gtid := s_using_mariadb_gtid st;
              s_supports_oracle_gtid := s_supports_oracle_gtid st;
              s_priority := s_priority st; s_promotion_rule := s_promotion_rule st;
              s_wait_count := s_wait_count st; s_clients := s_clients st;
              s_delay := seconds; s_last_sql_error := s_last_sql_error st;
              s_replicas := s_replicas st |}
           (dynamic s).

(** The server [s] whose next statements fail as scripted. *)
Definition failing (script : list (string * error)) (s : Server) : Server :=
  mkServer (static s) (setFailing script (dynamic s)).

(** A running replica seen through pointer [a], with a priority and a rule. *)
Definition ranked (a : positive) (key : InstanceKey) (priority : Z)
    (rule : CandidatePromotionRule) : InstancePtr :=
  mkPtr a (snapshot (prioritised priority rule (replica key true))).

(** A world with one server beside the master. *)
Definition worldOf (s : Server) : World := mkWorld [s; masterServer 1 0] 0.

(** The small world behind a reader that loses a server once both of its
    replication threads are stopped: the read then returns no snapshot, and
    an error. *)
Definition losingStopped : Env World := {|
  env_ReadTopologyInstance := λ key w,
    match lookupServer key (servers w) with
    | Some s =>
        if negb (d_io (dynamic s)) && negb (d_sql (dynamic s))
        then (Fail None unknownInstance, w)
        else read key w
    | None => read key w
    end;
  env_ReadTopologyInstances := env_ReadTopologyInstances toyEnv;
  env_ReadReplicaInstances := env_ReadReplicaInstances toyEnv;
  env_Exec := env_Exec toyEnv;
  env_EmptyCommit := env_EmptyCommit toyEnv;
  env_UnresolveHostname := env_UnresolveHostname toyEnv;
  env_AuditOperation := env_AuditOperation toyEnv;
  env_WriteMasterPositionEquivalence := env_WriteMasterPositionEquivalence toyEnv;
  env_ResetInstanceRelaylogCoordinatesHistory :=
    env_ResetInstanceRelaylogCoordinatesHistory toyEnv;
  env_expectReplicationThreadsState := env_expectReplicationThreadsState toyEnv;
  env_RetryInstanceFunction := λ f, f;
  env_BetterThan := env_BetterThan toyEnv;
  env_SemicolonTerminated := env_SemicolonTerminated toyEnv;
  env_Now := env_Now toyEnv;
  env_Sleep := env_Sleep toyEnv |}.

(** The replicas [key1] and [key2] are in the world, and no failure is
    scripted for them. *)
Definition bothAnswer (w : World) : Prop :=
  ∀ key, key = key1 ∨ key = key2 →
    ∃ s, lookupServer key (servers w) = Some s
         ∧ isReplica s = true ∧ d_failing (dynamic s) = [].

End Fixtures.

(** * Properties *)

(** ** The semi-sync policy engine *)

Module SemiSyncFacts.
Import SemiSync Props.

Lemma uint_small z : 0 ≤ z < 2 ^ 64 → uint z = z.
Proof. intros H. unfold uint. apply Z.mod_small. exact H. Qed.

Lemma uint_range z : 0 ≤ uint z < 2 ^ 64.
Proof. unfold uint. apply Z.mod_pos_bound. reflexivity. Qed.

(** *** Enough topology *)

Lemma enoughTopologyLoop_only_enables threshold (l : list InstancePtr) :
  ∀ enabled (actions : Actions),
    (∀ a b, actions !! a = Some b → b = true) →
    ∀ a b, enoughTopologyLoop threshold l enabled actions !! a = Some b → b = true.
Proof.
  induction l as [|r l IH]; intros enabled actions Hacc a b; simpl.
  - apply Hacc.
  - destruct (SemiSyncReplicaEnabled (deref r)); simpl.
    + destruct (enabled =? threshold); [apply Hacc | apply IH, Hacc].
    + assert (Hins : ∀ a b, <[addr r := true]> actions !! a = Some b → b = true).
      { intros a' b'. rewrite lookup_insert. case_decide; [congruence | apply Hacc]. }
      destruct (uint (enabled + 1) =? threshold); [apply Hins | apply IH, Hins].
Qed.

Lemma enoughTopologyLoop_lookup threshold (l : list InstancePtr) :
  ∀ enabled (actions : Actions) a,
    0 ≤ enabled < threshold → threshold < 2 ^ 64 →
    enoughTopologyLoop threshold l enabled actions !! a =
      if decide (a ∈ addr <$> take (Z.to_nat (threshold - enabled)) (filter disabled l))
      then Some true else actions !! a.
Proof.
  induction l as [|r l IH]; intros enabled actions a He Ht; simpl.
  - rewrite filter_nil, take_nil. case_decide as Hin; [by apply elem_of_nil in Hin | done].
  - destruct (Z.to_nat (threshold - enabled)) as [|n] eqn:En; [lia|].
    destruct (SemiSyncReplicaEnabled (deref r)) eqn:Er; simpl.
    + rewrite filter_cons_False by (unfold disabled; congruence).
      destruct (Z.eqb_spec enabled threshold); [lia|].
      rewrite IH by lia. by rewrite En.
    + rewrite filter_cons_True by exact Er.
      rewrite uint_small by lia. simpl.
      destruct (Z.eqb_spec (enabled + 1) threshold) as [Heq|Hne].
      * assert (n = 0%nat) as -> by lia. rewrite take_0. simpl.
        rewrite lookup_insert.
        clear He; repeat case_decide; try done; exfalso;
          rewrite ?fmap_cons, ?fmap_nil, ?elem_of_cons, ?elem_of_nil in *;
          intuition congruence.
      * rewrite IH by lia.
        replace (Z.to_nat (threshold - (enabled + 1))) with n by lia.
        rewrite lookup_insert.
        clear He; repeat case_decide; try done; exfalso;
          rewrite ?fmap_cons, ?fmap_nil, ?elem_of_cons, ?elem_of_nil in *;
          intuition congruence.
Qed.

(** *** Exact topology *)

Lemma exactTopologyLoop_other waitCount (l : list InstancePtr) :
  ∀ i (actions : Actions) a,
    a ∉ addr <$> l → exactTopologyLoop waitCount i l actions !! a = actions !! a.
Proof.
  induction l as [|r l IH]; intros i actions a Hnin; simpl; [done|].
  rewrite fmap_cons in Hnin. apply not_elem_of_cons in Hnin as [Hne Hnin].
  rewrite IH by done.
  repeat case_match; rewrite ?lookup_insert_ne; done.
Qed.

Lemma exactTopologyLoop_lookup waitCount (l : list InstancePtr) :
  ∀ i (actions : Actions) j r,
    NoDup (addr <$> l) → Z.of_nat (i + List.length l) ≤ 2 ^ 64 →
    l !! j = Some r →
    exactTopologyLoop waitCount i l actions !! addr r =
      match actionFor (Z.of_nat (i + j) <? waitCount) (SemiSyncReplicaEnabled (deref r)) with
      | Some b => Some b
      | None => actions !! addr r
      end.
Proof.
  induction l as [|r0 l IH]; intros i actions j r Hnd Hlen Hj; [done|].
  rewrite fmap_cons in Hnd. apply NoDup_cons in Hnd as [Hnin Hnd].
  simpl in Hlen. destruct j as [|j]; simpl in Hj.
  - injection Hj as ->. simpl.
    rewrite exactTopologyLoop_other by done.
    rewrite uint_small by lia. rewrite Nat.add_0_r. unfold actionFor.
    destruct (Z.of_nat i <? waitCount), (SemiSyncReplicaEnabled (deref r)); simpl;
      rewrite ?lookup_insert_eq; done.
  - simpl. rewrite (IH (S i) _ j r) by (done || lia).
    replace (S i + j)%nat with (i + S j)%nat by lia.
    destruct (actionFor _ _); [done|].
    assert (addr r0 ≠ addr r) as Hne.
    { intros Heq. apply Hnin. rewrite Heq. apply list_elem_of_fmap.
      exists r. split; [done|]. by eapply list_elem_of_lookup_2. }
    repeat case_match; rewrite ?lookup_insert_ne; done.
Qed.

Lemma asyncLoop_other (l : list InstancePtr) :
  ∀ (actions : Actions) a, a ∉ addr <$> l → asyncLoop l actions !! a = actions !! a.
Proof.
  induction l as [|r l IH]; intros actions a Hnin; simpl; [done|].
  rewrite fmap_cons in Hnin. apply not_elem_of_cons in Hnin as [Hne Hnin].
  rewrite IH by done. case_match; rewrite ?lookup_insert_ne; done.
Qed.

Lemma asyncLoop_lookup (l : list InstancePtr) :
  ∀ (actions : Actions) r,
    NoDup (addr <$> l) → r ∈ l →
    asyncLoop l actions !! addr r =
      if SemiSyncReplicaEnabled (deref r) then Some false else actions !! addr r.
Proof.
  induction l as [|r0 l IH]; intros actions r Hnd Hin; [by apply elem_of_nil in Hin|].
  rewrite fmap_cons in Hnd. apply NoDup_cons in Hnd as [Hnin Hnd].
  apply elem_of_cons in Hin as [->|Hin]; simpl.
  - rewrite asyncLoop_other by done.
    destruct (SemiSyncReplicaEnabled (deref r0)); rewrite ?lookup_insert_eq; done.
  - rewrite IH by done.
    destruct (SemiSyncReplicaEnabled (deref r)); [done|].
    assert (addr r0 ≠ addr r) as Hne.
    { intros Heq. apply Hnin. rewrite Heq. apply list_elem_of_fmap. by exists r. }
    case_match; rewrite ?lookup_insert_ne; done.
Qed.

(** For a positive threshold, the replicas acted upon are the first
    [threshold] candidates with the flag off. *)
Lemma enoughTopology_lookup masterInstance (possible : list InstancePtr) a :
  let threshold := uint (SemiSyncMasterWaitForReplicaCount masterInstance
                         - SemiSyncMasterClients masterInstance) in
  0 < threshold →
  determineSemiSyncReplicaActionsForEnoughTopology masterInstance possible !! a =
    if decide (a ∈ addr <$> take (Z.to_nat threshold) (filter disabled possible))
    then Some true else None.
Proof.
  intros threshold Hpos.
  unfold determineSemiSyncReplicaActionsForEnoughTopology. fold threshold.
  rewrite enoughTopologyLoop_lookup.
  - rewrite Z.sub_0_r, lookup_empty. done.
  - lia.
  - apply uint_range.
Qed.

(** *** Main results *)

Import Toy.

(** X1.  In enough-topology mode the function never emits a disable action,
    whatever its input; when the threshold
    SemiSyncMasterWaitForReplicaCount - SemiSyncMasterClients (on uint) is
    positive, the replicas acted upon are exactly the first [threshold]
    candidates, in the given order, whose flag is not yet enabled, each with
    an enable action: the walk stops once that many were newly enabled.  With
    wait count 3, 1 connected client and three disabled candidates, the
    actions are the enabling of the first two, and nothing for the third. *)
Theorem enough_topology_enables_up_to_threshold :
  (∀ masterInstance (possible : list InstancePtr) a b,
     determineSemiSyncReplicaActionsForEnoughTopology masterInstance possible !! a = Some b →
     b = true)
  ∧ (∀ masterInstance (possible : list InstancePtr),
       let threshold := uint (SemiSyncMasterWaitForReplicaCount masterInstance
                              - SemiSyncMasterClients masterInstance) in
       0 < threshold →
       ∀ a, determineSemiSyncReplicaActionsForEnoughTopology masterInstance possible !! a =
            if decide (a ∈ addr <$> take (Z.to_nat threshold) (filter disabled possible))
            then Some true else None)
  ∧ determineSemiSyncReplicaActionsForEnoughTopology (snapshot (masterServer 3 1))
      [candidate 1 key1 false; candidate 2 key2 false; candidate 3 key3 false]
    = {[1%positive := true; 2%positive := true]}.
Proof.
  split; [|split].
  - intros masterInstance possible a b.
    apply enoughTopologyLoop_only_enables. intros a' b'. by rewrite lookup_empty.
  - intros masterInstance possible threshold Hpos a.
    by apply enoughTopology_lookup.
  - vm_compute. reflexivity.
Qed.

(** With wait count 3 and 1 connected client the threshold is 2: of the
    candidates R1 (off), R2 (on), R3 (off), the two with the flag off are
    enabled. *)
Lemma enough_topology_enables_up_to_threshold_witness :
  let masterInstance := snapshot (masterServer 3 1) in
  let possible := [candidate 1 key1 false; candidate 2 key2 true; candidate 3 key3 false] in
  0 < uint (SemiSyncMasterWaitForReplicaCount masterInstance
            - SemiSyncMasterClients masterInstance)
  ∧ ∀ a, determineSemiSyncReplicaActionsForEnoughTopology masterInstance possible !! a =
         if decide (a ∈ addr <$> take 2 (filter disabled possible)) then Some true else None.
Proof.
  split; [reflexivity|].
  apply (proj1 (proj2 enough_topology_enables_up_to_threshold)). reflexivity.
Defined.

(** Once the counter is past the threshold the walk never stops: every
    candidate with the flag off is enabled. *)
Lemma enoughTopologyLoop_past threshold (l : list InstancePtr) :
  ∀ enabled (actions : Actions) a,
    0 ≤ threshold < enabled → enabled + Z.of_nat (List.length l) < 2 ^ 64 →
    enoughTopologyLoop threshold l enabled actions !! a =
      if decide (a ∈ addr <$> filter disabled l) then Some true else actions !! a.
Proof.
  induction l as [|r l IH]; intros enabled actions a He Hlen; simpl.
  - reflexivity.
  - simpl in Hlen. destruct (SemiSyncReplicaEnabled (deref r)) eqn:Er; simpl.
    + rewrite filter_cons_False by (unfold disabled; congruence).
      destruct (Z.eqb_spec enabled threshold); [lia|].
      apply IH; lia.
    + rewrite filter_cons_True by exact Er.
      rewrite uint_small by lia.
      destruct (Z.eqb_spec (enabled + 1) threshold); [lia|].
      rewrite IH by lia. rewrite lookup_insert.
      clear He; repeat case_decide; try done; exfalso;
        rewrite ?fmap_cons, ?fmap_nil, ?elem_of_cons, ?elem_of_nil in *;
        intuition congruence.
Qed.

(** C3, on the code.  The walk tests the counter against the threshold only
    after a candidate was counted, and for equality.  With the wait count
    equal to the connected clients the threshold is 0: the claim's stop rule
    (stop once the newly enabled replicas equal wait count minus clients)
    allows no action, yet when the first candidate has the flag off the
    counter is 1 at the first test, never meets 0, and every candidate with
    the flag off is enabled.  With wait count 1, 1 connected client and three
    disabled candidates, all three are enabled. *)
Theorem enough_topology_stop_rule_misses_zero :
  (∀ masterInstance first (rest : list InstancePtr),
     uint (SemiSyncMasterWaitForReplicaCount masterInstance
           - SemiSyncMasterClients masterInstance) = 0 →
     disabled first →
     Z.of_nat (List.length rest) < 2 ^ 63 →
     ∀ a, determineSemiSyncReplicaActionsForEnoughTopology masterInstance (first :: rest) !! a =
          if decide (a ∈ addr <$> filter disabled (first :: rest)) then Some true else None)
  ∧ determineSemiSyncReplicaActionsForEnoughTopology (snapshot (masterServer 1 1))
      [candidate 1 key1 false; candidate 2 key2 false; candidate 3 key3 false]
    = {[1%positive := true; 2%positive := true; 3%positive := true]}.
Proof.
  split; [|vm_compute; reflexivity].
  intros masterInstance first rest Hzero Hoff Hlen a.
  unfold determineSemiSyncReplicaActionsForEnoughTopology. rewrite Hzero.
  cbn [enoughTopologyLoop]. unfold disabled in Hoff. rewrite Hoff. cbn [negb].
  change (uint (0 + 1)) with 1. cbn [Z.eqb].
  rewrite enoughTopologyLoop_past by lia.
  rewrite filter_cons_True by exact Hoff.
  rewrite lookup_insert, lookup_empty.
  repeat case_decide; try done; exfalso;
    rewrite ?fmap_cons, ?fmap_nil, ?elem_of_cons, ?elem_of_nil in *;
    intuition congruence.
Qed.

(** Wait count 2 with 2 connected clients: of the candidates R1 (off),
    R2 (on), R3 (off), both with the flag off are enabled. *)
Lemma enough_topology_stop_rule_misses_zero_witness :
  let masterInstance := snapshot (masterServer 2 2) in
  let first := candidate 1 key1 false in
  let rest := [candidate 2 key2 true; candidate 3 key3 false] in
  uint (SemiSyncMasterWaitForReplicaCount masterInstance
        - SemiSyncMasterClients masterInstance) = 0
  ∧ disabled first
  ∧ ∀ a, determineSemiSyncReplicaActionsForEnoughTopology masterInstance (first :: rest) !! a =
         if decide (a ∈ addr <$> filter disabled (first :: rest)) then Some true else None.
Proof.
  split; [reflexivity|]. split; [reflexivity|].
  apply (proj1 enough_topology_stop_rule_misses_zero); [reflexivity|reflexivity|].
  vm_compute. reflexivity.
Defined.

(** When the connected clients exceed the wait count, the threshold wraps
    around and every candidate whose flag is off is enabled. *)
Lemma enoughTopology_underflow masterInstance (possible : list InstancePtr) r :
  0 ≤ SemiSyncMasterWaitForReplicaCount masterInstance
    < SemiSyncMasterClients masterInstance →
  SemiSyncMasterClients masterInstance < 2 ^ 63 →
  Z.of_nat (List.length possible) < 2 ^ 63 →
  r ∈ possible → disabled r →
  determineSemiSyncReplicaActionsForEnoughTopology masterInstance possible !! addr r = Some true.
Proof.
  intros Hw Hc Hlen Hin Hdis.
  set (threshold := uint (SemiSyncMasterWaitForReplicaCount masterInstance
                          - SemiSyncMasterClients masterInstance)).
  assert (threshold = 2 ^ 64 + (SemiSyncMasterWaitForReplicaCount masterInstance
                                - SemiSyncMasterClients masterInstance)) as Ht.
  { unfold threshold, uint.
    symmetry. apply (Z.mod_unique_pos _ _ (-1)); lia. }
  rewrite enoughTopology_lookup by (fold threshold; lia).
  fold threshold. rewrite take_ge.
  - rewrite decide_True; [done|]. apply list_elem_of_fmap. exists r. split; [done|].
    by apply list_elem_of_filter.
  - pose proof (length_filter disabled possible). lia.
Qed.

(** C4, on the code.  With the connected clients above the wait count (1 and
    2), or equal to it (1 and 1), the function still emits enable actions for
    the disabled candidates; with the counts equal it emits none only when
    the first candidate is already enabled. *)
Theorem enough_topology_when_clients_reach_wait_count :
  determineSemiSyncReplicaActionsForEnoughTopology (snapshot (masterServer 1 2))
    [candidate 1 key1 false] = {[1%positive := true]}
  ∧ determineSemiSyncReplicaActionsForEnoughTopology (snapshot (masterServer 1 1))
      [candidate 1 key1 false; candidate 2 key2 false]
    = {[1%positive := true; 2%positive := true]}
  ∧ determineSemiSyncReplicaActionsForEnoughTopology (snapshot (masterServer 1 1))
      [candidate 1 key1 true; candidate 2 key2 false] = ∅.
Proof. repeat split; vm_compute; reflexivity. Qed.

(** C5.  In exact-topology mode, for candidates and always-async replicas that
    are distinct objects: the candidate at index [i] gets the action for the
    desired state [i < wait count], every always-async replica the action for
    the desired state [false], an action being present exactly when the
    current flag differs from the desired state and then equal to the desired
    state; no other replica gets an action.  With wait count 2 and candidates
    R1 (enabled), R2 (disabled), R3 (enabled), the actions are R2: enable,
    R3: disable; an always-async replica with the flag on gets a disable. *)
Theorem exact_topology_actions_match_desired_state :
  (∀ masterInstance (possible async : list InstancePtr),
     NoDup (addr <$> (possible ++ async)%list) →
     Z.of_nat (List.length possible) ≤ 2 ^ 63 →
     let actions :=
       determineSemiSyncReplicaActionsForExactTopology masterInstance possible async in
     (∀ i r, possible !! i = Some r →
        actions !! addr r =
          actionFor (Z.of_nat i <? SemiSyncMasterWaitForReplicaCount masterInstance)
                    (SemiSyncReplicaEnabled (deref r)))
     ∧ (∀ r, r ∈ async →
          actions !! addr r = actionFor false (SemiSyncReplicaEnabled (deref r)))
     ∧ (∀ a, a ∉ addr <$> (possible ++ async)%list → actions !! a = None))
  ∧ determineSemiSyncReplicaActionsForExactTopology (snapshot (masterServer 2 0))
      [candidate 1 key1 true; candidate 2 key2 false; candidate 3 key3 true] []
    = {[2%positive := true; 3%positive := false]}
  ∧ determineSemiSyncReplicaActionsForExactTopology (snapshot (masterServer 2 0))
      [candidate 1 key1 true; candidate 2 key2 true] [candidate 3 key3 true]
    = {[3%positive := false]}.
Proof.
  split; [|split; vm_compute; reflexivity].
  intros masterInstance possible async Hnd Hlen actions.
  rewrite fmap_app in Hnd. apply NoDup_app in Hnd as (Hndp & Hdisj & Hnda).
  unfold actions, determineSemiSyncReplicaActionsForExactTopology.
  split; [|split].
  - intros i r Hi.
    assert (addr r ∈ addr <$> possible) as Hin.
    { apply list_elem_of_fmap. exists r. split; [done|]. by eapply list_elem_of_lookup_2. }
    rewrite asyncLoop_other by (by apply Hdisj).
    rewrite (exactTopologyLoop_lookup _ _ 0%nat _ i r) by (done || simpl; lia).
    simpl. destruct (actionFor _ _); [done | apply lookup_empty].
  - intros r Hin.
    rewrite asyncLoop_lookup by done.
    unfold actionFor. destruct (SemiSyncReplicaEnabled (deref r)); simpl; [done|].
    rewrite exactTopologyLoop_other; [apply lookup_empty|].
    intros Hp. apply (Hdisj _ Hp). apply list_elem_of_fmap. by exists r.
  - intros a Hnin. rewrite fmap_app in Hnin. apply not_elem_of_app in Hnin as [Hp Ha].
    rewrite asyncLoop_other by done. rewrite exactTopologyLoop_other by done.
    apply lookup_empty.
Qed.

(** Three candidates and one always-async replica, all distinct objects. *)
Lemma exact_topology_actions_match_desired_state_witness :
  let masterInstance := snapshot (masterServer 2 0) in
  let possible := [candidate 1 key1 true; candidate 2 key2 false; candidate 3 key3 true] in
  let async := [candidate 4 (mkKey "db-replica-4" 3306) true] in
  NoDup (addr <$> (possible ++ async)%list)
  ∧ Z.of_nat (List.length possible) ≤ 2 ^ 63
  ∧ ∀ i r, possible !! i = Some r →
      determineSemiSyncReplicaActionsForExactTopology masterInstance possible async !! addr r =
        actionFor (Z.of_nat i <? 2) (SemiSyncReplicaEnabled (deref r)).
Proof.
  intros masterInstance possible async.
  assert (NoDup (addr <$> (possible ++ async)%list)) as Hnd
    by (apply (bool_decide_unpack _); vm_compute; exact I).
  assert (Z.of_nat (List.length possible) ≤ 2 ^ 63) as Hlen by (vm_compute; discriminate).
  split; [exact Hnd|]. split; [exact Hlen|].
  exact (proj1 (proj1 exact_topology_actions_match_desired_state
                  masterInstance possible async Hnd Hlen)).
Defined.

End SemiSyncFacts.

(** ** The operations *)

Module DaoFacts.
Import Props.

Section Facts.
Context {W : Type}.
Variable env : Env W.
Variable config : Config.

Lemma statements_app (t1 t2 : list Event) :
  statements (t1 ++ t2)%list = (statements t1 ++ statements t2)%list.
Proof. unfold statements. apply List.filter_app. Qed.

(** SetSemiSyncReplica when the flag already has the requested value. *)
Lemma SetSemiSyncReplica_same key enable (s : State W) instance w' :
  env_ReadTopologyInstance env key (world s) = (Ok instance, w') →
  SemiSyncReplicaEnabled instance = enable →
  SetSemiSyncReplica env key enable s
  = (Ok instance, mkState w' (trace s ++ [EvReadTopologyInstance key])).
Proof.
  intros Hread Hflag. unfold SetSemiSyncReplica. unfold_monad.
  rewrite Hread. rewrite Hflag.
  destruct enable; reflexivity.
Qed.

(** The polls of waitForReplicationState are bounded by the doubling of the
    interval: past the bound, more fuel changes nothing. *)
Lemma waitForReplicationState_loop_fuel instance key expected startTime :
  ∀ (k n m : nat) interval (s : State W),
    Second < interval * 2 ^ Z.of_nat k → (k < n)%nat → (k < m)%nat →
    waitForReplicationState_loop env n instance key expected startTime interval s
    = waitForReplicationState_loop env m instance key expected startTime interval s.
Proof.
  induction k as [|k IH]; intros n m interval s Hbound Hn Hm;
    (destruct n as [|n]; [lia|]); (destruct m as [|m]; [lia|]);
    cbn [waitForReplicationState_loop]; unfold_monad;
    destruct (env_expectReplicationThreadsState env instance key expected (world s))
      as [[[|] oe] w1]; cbn; try reflexivity;
    destruct (Z.max 0 (env_Now env w1 - startTime) + interval >? Second) eqn:Hbreak;
    try reflexivity.
  - exfalso. rewrite Z.gtb_ltb in Hbreak. apply Z.ltb_ge in Hbreak.
    change (2 ^ Z.of_nat 0) with 1 in Hbound. lia.
  - apply IH; [|lia|lia].
    rewrite Nat2Z.inj_succ, Z.pow_succ_r in Hbound by lia. lia.
Qed.

Lemma waitForReplicationState_bounded instance key expected startTime n (s : State W) :
  (8 ≤ n)%nat →
  waitForReplicationState_loop env n instance key expected startTime (10 * Millisecond) s
  = waitForReplicationState_loop env 8 instance key expected startTime (10 * Millisecond) s.
Proof.
  intros Hn. apply (waitForReplicationState_loop_fuel _ _ _ _ 7%nat); [reflexivity|lia|lia].
Qed.

End Facts.
End DaoFacts.

(** ** The dry-run flag *)

Module DryRun.
Import Props Toy.

Section Guarded.
Context {W : Type}.
Variable env : Env W.
Variable config : Config.
Hypothesis Hnoop : Noop config = true.

(** Closes an [abortsDryRun] goal of an operation that starts with the
    snapshot read, checks its preconditions and then the flag; [atoms]
    destructs the fields of the snapshot the preconditions look at. *)
Ltac dry_run key w atoms :=
  unfold abortsDryRun, passes, threadsRunning; unfold_monad;
  destruct (env_ReadTopologyInstance env key w) as [[i|oi e] w1]; cbn;
  [ rewrite ?Hnoop; atoms i; cbn | ];
  (split; [repeat constructor|]); eexists _, _; (split; [reflexivity|]);
  intros Hready; first [reflexivity | discriminate | contradiction].

Ltac threads i :=
  destruct (ReplicationThreadsExist i), (ReplicationThreadsStopped i).

Ltac no_atom i := idtac.

Lemma ResetReplication_dry_run key w :
  abortsDryRun (ResetReplication env config key) w
    (passes env key w (λ i, negb (threadsRunning i))).
Proof. unfold ResetReplication. dry_run key w threads. Qed.

Lemma ResetMaster_dry_run key w :
  abortsDryRun (ResetMaster env config key) w
    (passes env key w (λ i, negb (threadsRunning i))).
Proof. unfold ResetMaster. dry_run key w threads. Qed.

Lemma EnableMasterSSL_dry_run key w :
  abortsDryRun (EnableMasterSSL env config key) w
    (passes env key w (λ i, negb (threadsRunning i))).
Proof. unfold EnableMasterSSL. dry_run key w threads. Qed.

Lemma EnableMasterGetSourcePublicKey_dry_run key w :
  abortsDryRun (EnableMasterGetSourcePublicKey env config key) w
    (passes env key w (λ i, negb (threadsRunning i))).
Proof. unfold EnableMasterGetSourcePublicKey. dry_run key w threads. Qed.

Lemma ChangeMasterCredentials_dry_run key creds w :
  abortsDryRun (ChangeMasterCredentials env config key creds) w
    (passes env key w (λ i, negb (String.eqb (User creds) "") && negb (threadsRunning i))).
Proof.
  unfold ChangeMasterCredentials.
  dry_run key w ltac:(fun i => threads i; destruct (String.eqb (User creds) "")).
Qed.

Lemma SkipQuery_dry_run key w :
  abortsDryRunReturning (SkipQuery env config key) w
    (passes env key w (λ i, IsReplica i && negb (ReplicationSQLThreadRuning i)
                            && negb (String.eqb (LastSQLError i) ""))).
Proof.
  unfold SkipQuery, abortsDryRunReturning.
  dry_run key w ltac:(fun i => destruct (IsReplica i), (ReplicationSQLThreadRuning i),
                                 (String.eqb (LastSQLError i) "")).
Qed.

Lemma SetReadOnly_dry_run key readOnly w :
  abortsDryRun (SetReadOnly env config key readOnly) w (passes env key w (λ _, true)).
Proof. unfold SetReadOnly. dry_run key w no_atom. Qed.

Lemma KillQuery_dry_run key process w :
  abortsDryRun (KillQuery env config key process) w (passes env key w (λ _, true)).
Proof. unfold KillQuery. dry_run key w no_atom. Qed.

Lemma FlushBinaryLogs_dry_run key count w :
  abortsDryRun (FlushBinaryLogs env config key count) w True.
Proof.
  unfold abortsDryRun, FlushBinaryLogs. rewrite Hnoop. unfold_monad.
  split; [constructor|]. eexists _, _. split; [reflexivity|]. reflexivity.
Qed.

Lemma purgeBinaryLogsTo_dry_run key logFile w :
  abortsDryRun (purgeBinaryLogsTo env config key logFile) w True.
Proof.
  unfold abortsDryRun, purgeBinaryLogsTo. rewrite Hnoop. unfold_monad.
  split; [constructor|]. eexists _, _. split; [reflexivity|]. reflexivity.
Qed.

Lemma setGTIDPurged_dry_run instance gtidPurged w :
  abortsDryRunErr (setGTIDPurged env config instance gtidPurged) w.
Proof.
  unfold abortsDryRunErr, setGTIDPurged. rewrite Hnoop. unfold_monad.
  repeat split. eexists. split; reflexivity.
Qed.

Lemma ChangeMasterTo_dry_run key masterKey coords skipUnresolve gtidHint w :
  abortsDryRun (ChangeMasterTo env config key masterKey coords skipUnresolve gtidHint) w
    (changeMasterReady env key masterKey skipUnresolve w).
Proof.
  unfold abortsDryRun, changeMasterReady, ChangeMasterTo, changeMasterExecute, threadsRunning.
  rewrite Hnoop. unfold_monad.
  destruct (env_ReadTopologyInstance env key w) as [[i|oi e] w1]; cbn.
  - threads i; cbn; destruct skipUnresolve; cbn;
      try (destruct (env_UnresolveHostname env masterKey w1) as [[[ck nu] [eu|]] w2]; cbn);
      (split; [repeat constructor|]); eexists _, _; (split; [reflexivity|]);
      intros [Hth Hu]; first [reflexivity | discriminate | by destruct Hu].
  - split; [repeat constructor|]. eexists _, _. split; [reflexivity|]. contradiction.
Qed.

End Guarded.

(** C1, as amended.  With the dry-run flag set, each of the operations that
    carry the guard (ChangeMasterTo, ResetReplication, ResetMaster, SkipQuery,
    SetReadOnly, KillQuery, ChangeMasterCredentials, EnableMasterSSL,
    EnableMasterGetSourcePublicKey, FlushBinaryLogs, purgeBinaryLogsTo,
    setGTIDPurged) returns an error and lets nothing leave the process but
    the snapshot read and the hostname lookup: no statement reaches the
    instance.  Once the operation's own precondition checks pass, the error
    is the noop error. *)
Theorem dry_run_aborts_guarded_operations {W : Type} (env : Env W) (config : Config) :
  Noop config = true →
  ∀ (w : W) key masterKey coords skipUnresolve gtidHint creds readOnly process count
    logFile instance gtidPurged,
    abortsDryRun (ChangeMasterTo env config key masterKey coords skipUnresolve gtidHint) w
      (changeMasterReady env key masterKey skipUnresolve w)
    ∧ abortsDryRun (ResetReplication env config key) w
        (passes env key w (λ i, negb (threadsRunning i)))
    ∧ abortsDryRun (ResetMaster env config key) w
        (passes env key w (λ i, negb (threadsRunning i)))
    ∧ abortsDryRunReturning (SkipQuery env config key) w
        (passes env key w (λ i, IsReplica i && negb (ReplicationSQLThreadRuning i)
                                && negb (String.eqb (LastSQLError i) "")))
    ∧ abortsDryRun (SetReadOnly env config key readOnly) w (passes env key w (λ _, true))
    ∧ abortsDryRun (KillQuery env config key process) w (passes env key w (λ _, true))
    ∧ abortsDryRun (ChangeMasterCredentials env config key creds) w
        (passes env key w (λ i, negb (String.eqb (User creds) "") && negb (threadsRunning i)))
    ∧ abortsDryRun (EnableMasterSSL env config key) w
        (passes env key w (λ i, negb (threadsRunning i)))
    ∧ abortsDryRun (EnableMasterGetSourcePublicKey env config key) w
        (passes env key w (λ i, negb (threadsRunning i)))
    ∧ abortsDryRun (FlushBinaryLogs env config key count) w True
    ∧ abortsDryRun (purgeBinaryLogsTo env config key logFile) w True
    ∧ abortsDryRunErr (setGTIDPurged env config instance gtidPurged) w.
Proof.
  intros Hnoop w key masterKey coords skipUnresolve gtidHint creds readOnly process count
    logFile instance gtidPurged.
  split_and!;
    eauto using ChangeMasterTo_dry_run, ResetReplication_dry_run, ResetMaster_dry_run,
      SkipQuery_dry_run, SetReadOnly_dry_run, KillQuery_dry_run,
      ChangeMasterCredentials_dry_run, EnableMasterSSL_dry_run,
      EnableMasterGetSourcePublicKey_dry_run, FlushBinaryLogs_dry_run,
      purgeBinaryLogsTo_dry_run, setGTIDPurged_dry_run.
Qed.

(** ChangeMasterTo and ResetReplication on a stopped replica of the small
    world, the flag set. *)
Lemma dry_run_aborts_guarded_operations_witness :
  Noop (settings true) = true
  ∧ abortsDryRun
      (ChangeMasterTo toyEnv (settings true) key1 masterKey at0 false GTIDHintNeutral) stopped
      (changeMasterReady toyEnv key1 masterKey false stopped)
  ∧ abortsDryRun (ResetReplication toyEnv (settings true) key1) stopped
      (passes toyEnv key1 stopped (λ i, negb (threadsRunning i))).
Proof.
  pose proof (dry_run_aborts_guarded_operations toyEnv (settings true) eq_refl stopped
                key1 masterKey at0 false GTIDHintNeutral (mkCreds "" "" "" "" "") true 0 0 ""
                (snapshot (replica key1 false)) "") as H.
  split; [reflexivity|]. split; [apply H | apply H].
Defined.

(** C1, as stated, fails.  With the dry-run flag set and their preconditions
    met, StopReplication, StartReplication, SetSemiSyncMaster and
    SetSemiSyncReplica do not abort: they send their statements and succeed,
    and the snapshot read afterwards differs from the one read before.  So do
    StopReplicationNicely, RestartReplicationQuick and DelayReplication. *)
Lemma dry_run_ignored_by_replication_control :
  Noop (settings true) = true
  ∧ ¬ abortsDryRunReturning (StopReplication toyEnv key1) running
        (passes toyEnv key1 running IsReplica)
  ∧ ¬ abortsDryRunReturning (StartReplication toyEnv (settings true) key1) stopped
        (passes toyEnv key1 stopped IsReplica)
  ∧ ¬ abortsDryRun (SetSemiSyncMaster toyEnv masterKey false) running
        (passes toyEnv masterKey running (λ _, true))
  ∧ ¬ abortsDryRun (SetSemiSyncReplica toyEnv key1 true) running
        (passes toyEnv key1 running (λ _, true))
  ∧ (ReplicationThreadsStopped <$> instanceOf (env_ReadTopologyInstance toyEnv key1 running).1
       = Some false
     ∧ ReplicationThreadsStopped
         <$> (returned (run (StopReplication toyEnv key1) running).1 ≫= instanceOf)
       = Some true
     ∧ statements (trace (run (StopReplication toyEnv key1) running).2)
       = [EvExecInstance key1 "stop slave" []])
  ∧ (errorOf <$> ((run (StopReplicationNicely toyEnv (settings true) 3 key1 0) running).1
                    ≫= returned)
       = Some None
     ∧ statements (trace (run (StopReplicationNicely toyEnv (settings true) 3 key1 0) running).2)
       = [EvExecInstance key1 "stop slave io_thread" [];
          EvExecInstance key1 "start slave sql_thread" [];
          EvExecInstance key1 "stop slave" []])
  ∧ ((run (RestartReplicationQuick toyEnv (snapshot (replica key1 true)) key1) running).1 = None
     ∧ statements (trace (run (RestartReplicationQuick toyEnv (snapshot (replica key1 true)) key1)
                            running).2)
       = [EvExecInstance key1 "stop slave io_thread" [];
          EvExecInstance key1 "start slave io_thread" []])
  ∧ ((run (DelayReplication toyEnv key1 5) running).1 = None
     ∧ statements (trace (run (DelayReplication toyEnv key1 5) running).2)
       = [EvExecInstance key1 "stop slave io_thread;" [];
          EvExecInstance key1 "stop slave sql_thread;" [];
          EvExecInstance key1 "change master to master_delay=5;" [];
          EvExecInstance key1 "start slave sql_thread;" [];
          EvExecInstance key1 "start slave io_thread;" []]).
Proof.
  split; [reflexivity|].
  repeat match goal with
         | |- ¬ _ ∧ _ => split; [vm_compute; intros [_ (i & e & Heq & _)]; discriminate|]
         end.
  repeat split; vm_compute; reflexivity.
Qed.

End DryRun.

(** ** Setting the replica-side semi-sync flag *)

Module SemiSyncReplica.
Import Props Toy.

(** C10.  When the snapshot read by SetSemiSyncReplica already has the
    requested flag value, the operation returns that snapshot with no error
    and nothing but the read has left the process: no statement, no bounce of
    the IO thread.  Conversely, whenever a statement is sent, the snapshot's
    flag differed from the requested value, and the first statement is the
    one that sets the flag. *)
Theorem SetSemiSyncReplica_idempotent {W : Type} (env : Env W) key enable (w : W) :
  let '(r, s') := run (SetSemiSyncReplica env key enable) w in
  (∀ instance w1,
     env_ReadTopologyInstance env key w = (Ok instance, w1) →
     SemiSyncReplicaEnabled instance = enable →
     r = Ok instance ∧ s' = mkState w1 [EvReadTopologyInstance key])
  ∧ (statements (trace s') ≠ [] →
     ∃ instance w1,
       env_ReadTopologyInstance env key w = (Ok instance, w1)
       ∧ SemiSyncReplicaEnabled instance ≠ enable
       ∧ head (statements (trace s'))
         = Some (EvExecInstance key (flagQuery instance) [OBool enable])).
Proof.
  unfold SetSemiSyncReplica, flagQuery. unfold_monad.
  destruct (env_ReadTopologyInstance env key w) as [[instance|oi e] w1]; cbn.
  - destruct (Bool.eqb (SemiSyncReplicaEnabled instance) enable) eqn:Hflag; cbn.
    + split; [|done]. intros ? ? [= <- <-] _. done.
    + apply Bool.eqb_false_iff in Hflag.
      destruct (SemiSyncReplicaPluginNewVersion instance) eqn:Hnew,
               (ReplicationIOThreadRuning instance); cbn;
        repeat (next_call; cbn);
        (split; [intros ? ? [= <- <-] Heq; contradiction|]);
        intros _; eexists _, _; (split; [reflexivity|]); (split; [exact Hflag|]);
        rewrite Hnew; reflexivity.
  - split; [intros ? ? [=]|done].
Qed.

(** A replica whose flag is off, asked to have it off: one read, the snapshot
    returned. *)
Lemma SetSemiSyncReplica_idempotent_witness :
  ∃ instance w1,
    env_ReadTopologyInstance toyEnv key1 running = (Ok instance, w1)
    ∧ SemiSyncReplicaEnabled instance = false
    ∧ run (SetSemiSyncReplica toyEnv key1 false) running
      = (Ok instance, mkState w1 [EvReadTopologyInstance key1]).
Proof.
  eexists _, _. split; [reflexivity|]. split; [reflexivity|].
  pose proof (SetSemiSyncReplica_idempotent toyEnv key1 false running) as H.
  destruct (run (SetSemiSyncReplica toyEnv key1 false) running) as [r s'].
  destruct H as [H _].
  destruct (H _ _ eq_refl eq_refl) as [-> ->]. reflexivity.
Defined.

End SemiSyncReplica.

(** ** The master change protocol *)

Module ChangeMaster.
Import Props Toy.

Section Protocol.
Context {W : Type}.
Variable env : Env W.
Variable config : Config.

Lemma state_eta (s : State W) : mkState (world s) (trace s) = s.
Proof. by destruct s. Qed.

(** The queries sent one after the other, whatever each returns. *)
Lemma execEach_run key queries (s : State W) :
  execEach env key queries s
  = (tt, mkState (afterQueries env key queries (world s))
                 (trace s ++ map (λ query, EvExecInstance key query []) queries)).
Proof.
  revert s. induction queries as [|query rest IH]; intros s; cbn.
  - by rewrite app_nil_r, state_eta.
  - unfold_monad.
    change (afterQueries env key (query :: rest) (world s))
      with (afterQueries env key rest (env_Exec env key query [] (world s)).2).
    destruct (env_Exec env key query [] (world s)) as [oe w'].
    rewrite IH. cbn. by rewrite <- app_assoc.
Qed.

(** Once its checks pass, ChangeMasterTo goes on from the dry-run check with
    the resolved key. *)
Lemma ChangeMasterTo_ready key masterKey coords skipUnresolve gtidHint
    (w : W) instance w1 changeToMasterKey w2 evs :
  env_ReadTopologyInstance env key w = (Ok instance, w1) →
  threadsRunning instance = false →
  resolveMaster env masterKey skipUnresolve w1 = Some (changeToMasterKey, w2, evs) →
  run (ChangeMasterTo env config key masterKey coords skipUnresolve gtidHint) w
  = changeMasterExecute env config instance key changeToMasterKey coords gtidHint
      (mkState w2 (EvReadTopologyInstance key :: evs)).
Proof.
  intros Hread Hth Hres. unfold ChangeMasterTo, resolveMaster in *. unfold_monad.
  rewrite Hread, Hth. cbn. destruct skipUnresolve; cbn.
  - by injection Hres as <- <- <-.
  - destruct (env_UnresolveHostname env masterKey w1) as [[[ck nu] [eu|]] wu]; [done|].
    by injection Hres as <- <- <-.
Qed.

(** What changeMasterExecute does, by the outcome of the first attempt. *)
Lemma changeMasterExecute_run instance key changeToMasterKey coords gtidHint
    (s : State W) query args viaGTID oe w3 :
  Noop config = false →
  changeMasterStatement instance changeToMasterKey coords gtidHint = (query, args, viaGTID) →
  env_Exec env key query args (world s) = (oe, w3) →
  let attempt := EvExecInstance key query args in
  changeMasterExecute env config instance key changeToMasterKey coords gtidHint s
  = if needsBug83713Workaround instance oe then
      let w7 := afterQueries env key (bug83713Queries instance) w3 in
      let s8 := mkState (env_Exec env key query args w7).2
                  (trace s ++ attempt :: workaroundEvents instance key ++ [attempt]) in
      match (env_Exec env key query args w7).1 with
      | Some err => (Fail (Some instance) err, s8)
      | None => changeMasterSuccess env instance key changeToMasterKey coords s8
      end
    else
      let s4 := mkState w3 (trace s ++ [attempt]) in
      match oe with
      | Some err => (Fail (Some instance) err, s4)
      | None => changeMasterSuccess env instance key changeToMasterKey coords s4
      end.
Proof.
  intros Hnoop Hstmt Hexec attempt.
  unfold changeMasterExecute, changeMasterFunc, workaroundBug83713, changeMasterSuccess.
  rewrite Hnoop, Hstmt. unfold_monad. rewrite Hexec. cbn [world trace fst snd].
  destruct (needsBug83713Workaround instance oe) eqn:Hneed.
  - rewrite execEach_run. cbn [world trace fst snd].
    set (w7 := afterQueries env key (bug83713Queries instance) w3).
    destruct (env_Exec env key query args w7) as [[e2|] w8];
      cbn -[afterQueries]; rewrite <- ?app_assoc; cbn -[afterQueries]; [done|].
    destruct (env_ReadTopologyInstance env key _) as [r9 w9]. cbn.
    by rewrite <- ?app_assoc.
  - destruct oe as [e|]; cbn; [done|].
    destruct (env_ReadTopologyInstance env key _) as [r9 w9]. cbn.
    by rewrite <- ?app_assoc.
Qed.

(** The first attempt is the first event ChangeMasterTo adds once ready. *)
Lemma ChangeMasterTo_first_statement key masterKey coords skipUnresolve gtidHint
    (w : W) instance w1 changeToMasterKey w2 evs query args viaGTID :
  Noop config = false →
  env_ReadTopologyInstance env key w = (Ok instance, w1) →
  threadsRunning instance = false →
  resolveMaster env masterKey skipUnresolve w1 = Some (changeToMasterKey, w2, evs) →
  changeMasterStatement instance changeToMasterKey coords gtidHint = (query, args, viaGTID) →
  ∃ rest,
    trace (run (ChangeMasterTo env config key masterKey coords skipUnresolve gtidHint) w).2
    = (EvReadTopologyInstance key :: evs ++ EvExecInstance key query args :: rest)%list.
Proof.
  intros Hnoop Hread Hth Hres Hstmt.
  rewrite (ChangeMasterTo_ready _ _ _ _ _ _ _ _ _ _ _ Hread Hth Hres).
  destruct (env_Exec env key query args w2) as [oe w3] eqn:Hexec.
  rewrite (changeMasterExecute_run instance key changeToMasterKey coords gtidHint
             (mkState w2 (EvReadTopologyInstance key :: evs)) query args viaGTID oe w3
             Hnoop Hstmt Hexec).
  unfold changeMasterSuccess. cbn.
  repeat case_match; cbn; eexists; rewrite <- ?app_assoc; cbn; reflexivity.
Qed.

End Protocol.

(** C2.  Once ChangeMasterTo is past its checks (snapshot read, threads not
    running, master key resolved, no dry run), the first event after the
    lookups is the statement selected from the snapshot and the hint:
    - snapshot using MariaDB GTID, hint Deny: the host/port/file/position
      statement with GTID off, with the four arguments (which is not the
      host/port-only statement that keeps GTID);
    - snapshot that supports Oracle GTID, not using it, not MariaDB, hint
      Force: the host/port statement with auto-position on;
    - MariaDB snapshot not using GTID, hint Force: master_use_gtid=current_pos
      when the snapshot has no replication threads, slave_pos otherwise. *)
Theorem ChangeMasterTo_statement_selection {W : Type} (env : Env W) (config : Config)
    key masterKey coords skipUnresolve (w : W) instance w1 changeToMasterKey w2 evs :
  Noop config = false →
  env_ReadTopologyInstance env key w = (Ok instance, w1) →
  threadsRunning instance = false →
  resolveMaster env masterKey skipUnresolve w1 = Some (changeToMasterKey, w2, evs) →
  let hostPort := [OStr (Hostname changeToMasterKey); OInt (Port changeToMasterKey)] in
  let hostPortLog :=
    [OStr (Hostname changeToMasterKey); OInt (Port changeToMasterKey);
     OStr (LogFile coords); OInt (LogPos coords)] in
  let sends gtidHint query args :=
    ∃ rest,
      trace (run (ChangeMasterTo env config key masterKey coords skipUnresolve gtidHint) w).2
      = (EvReadTopologyInstance key :: evs ++ EvExecInstance key query args :: rest)%list in
  (UsingMariaDBGTID instance = true →
     sends GTIDHintDeny (change_master_to_master_host_port_log_gtid_no (QSP instance))
           hostPortLog
     ∧ EvExecInstance key (change_master_to_master_host_port_log_gtid_no (QSP instance))
         hostPortLog
       ≠ EvExecInstance key (change_master_to_master_host_port (QSP instance)) hostPort)
  ∧ (SupportsOracleGTID instance = true → UsingOracleGTID instance = false →
     UsingMariaDBGTID instance = false → IsMariaDB instance = false →
     sends GTIDHintForce (change_master_to_master_host_port_autoposition_yes (QSP instance))
           hostPort)
  ∧ (IsMariaDB instance = true → UsingMariaDBGTID instance = false →
     sends GTIDHintForce
       ("change master to master_host=?, master_port=?, master_use_gtid="
        +:+ (if ReplicationThreadsExist instance then "slave_pos" else "current_pos"))
       hostPort).
Proof.
  intros Hnoop Hread Hth Hres hostPort hostPortLog sends.
  split; [|split].
  - intros Hmaria. split; [|intros [=]].
    eapply ChangeMasterTo_first_statement; eauto.
    unfold changeMasterStatement. rewrite Hmaria. reflexivity.
  - intros Hsup Horacle Hmaria Hdialect.
    eapply ChangeMasterTo_first_statement; eauto.
    unfold changeMasterStatement. rewrite Hsup, Horacle, Hmaria, Hdialect. reflexivity.
  - intros Hdialect Hmaria.
    eapply ChangeMasterTo_first_statement; eauto.
    unfold changeMasterStatement. rewrite Hdialect, Hmaria.
    destruct (ReplicationThreadsExist instance); reflexivity.
Qed.

(** A stopped MariaDB replica replicating with GTID, repointed with the hint
    Deny. *)
Lemma ChangeMasterTo_statement_selection_witness :
  let w := mkWorld [mariadbReplica key1 true] 0 in
  Noop (settings false) = false
  ∧ threadsRunning (snapshot (mariadbReplica key1 true)) = false
  ∧ UsingMariaDBGTID (snapshot (mariadbReplica key1 true)) = true
  ∧ ∃ rest,
      trace (run (ChangeMasterTo toyEnv (settings false) key1 masterKey at0 false GTIDHintDeny)
               w).2
      = [ EvReadTopologyInstance key1; EvUnresolveHostname masterKey;
          EvExecInstance key1
            "change master to master_host=?, master_port=?, master_log_file=?, master_log_pos=?, master_use_gtid=no"
            [OStr "db-master"; OInt 3306; OStr "mysql-bin.000007"; OInt 120] ] ++ rest.
Proof.
  intros w. split; [reflexivity|]. split; [reflexivity|]. split; [reflexivity|].
  exact (proj1 (proj1 (ChangeMasterTo_statement_selection toyEnv (settings false)
                         key1 masterKey at0 false w
                         (snapshot (mariadbReplica key1 true)) w masterKey w
                         [EvUnresolveHostname masterKey]
                         eq_refl eq_refl eq_refl eq_refl) eq_refl)).
Defined.

(** C6.  When the statement selected by ChangeMasterTo fails: if the snapshot
    uses Oracle GTID and the error text contains "Error 1201:", the four
    statements of the bug-83713 workaround are sent (reset, start IO thread,
    stop IO thread, reset), then the same statement once more, and the
    outcome of that second attempt is final: its error is returned, or the
    change completes.  In every other case the error of the first attempt is
    returned at once, with nothing sent after it. *)
Theorem ChangeMasterTo_workaround_and_single_retry {W : Type} (env : Env W)
    (config : Config) key masterKey coords skipUnresolve gtidHint (w : W)
    instance w1 changeToMasterKey w2 evs query args viaGTID err w3 :
  Noop config = false →
  env_ReadTopologyInstance env key w = (Ok instance, w1) →
  threadsRunning instance = false →
  resolveMaster env masterKey skipUnresolve w1 = Some (changeToMasterKey, w2, evs) →
  changeMasterStatement instance changeToMasterKey coords gtidHint = (query, args, viaGTID) →
  env_Exec env key query args w2 = (Some err, w3) →
  let attempt := EvExecInstance key query args in
  let lookups := EvReadTopologyInstance key :: evs in
  let '(r, s') :=
    run (ChangeMasterTo env config key masterKey coords skipUnresolve gtidHint) w in
  if UsingOracleGTID instance
     && Contains (Error err) Error1201CouldnotInitializeMasterInfoStructure
  then
    let w7 := afterQueries env key (bug83713Queries instance) w3 in
    let sent := (lookups ++ attempt :: workaroundEvents instance key ++ [attempt])%list in
    match (env_Exec env key query args w7).1 with
    | Some err2 =>
        r = Fail (Some instance) err2
        ∧ s' = mkState (env_Exec env key query args w7).2 sent
    | None =>
        (r, s') = changeMasterSuccess env instance key changeToMasterKey coords
                    (mkState (env_Exec env key query args w7).2 sent)
    end
  else
    r = Fail (Some instance) err ∧ s' = mkState w3 (lookups ++ [attempt]).
Proof.
  intros Hnoop Hread Hth Hres Hstmt Hexec attempt lookups. subst attempt lookups.
  rewrite (ChangeMasterTo_ready env config key masterKey coords skipUnresolve gtidHint w
             instance w1 changeToMasterKey w2 evs Hread Hth Hres).
  rewrite (changeMasterExecute_run env config instance key changeToMasterKey coords gtidHint
             (mkState w2 (EvReadTopologyInstance key :: evs)) query args viaGTID (Some err) w3
             Hnoop Hstmt Hexec).
  cbn [needsBug83713Workaround world trace].
  destruct (UsingOracleGTID instance
            && Contains (Error err) Error1201CouldnotInitializeMasterInfoStructure).
  - cbn zeta.
    destruct (env_Exec env key query args
                (afterQueries env key (bug83713Queries instance) w3)) as [[err2|] w8];
      cbn [fst snd].
    + done.
    + by destruct (changeMasterSuccess _ _ _ _ _ _).
  - done.
Qed.

(** An Oracle GTID replica whose first CHANGE MASTER fails with error 1201:
    the workaround runs, the second attempt succeeds. *)
Lemma ChangeMasterTo_workaround_and_single_retry_witness :
  let query := "change master to master_host=?, master_port=?" in
  let err := ErrorString "Error 1201: Could not initialize master info structure; more error messages can be found in the MySQL error log" in
  let w := mkWorld [oracleGtidReplica key1 [(query, err)]] 0 in
  let attempt := EvExecInstance key1 query [OStr "db-master"; OInt 3306] in
  env_Exec toyEnv key1 query [OStr "db-master"; OInt 3306] w
  = (Some err, mkWorld [oracleGtidReplica key1 []] 0)
  ∧ statements
      (trace (run (ChangeMasterTo toyEnv (settings false) key1 masterKey at0 true
                     GTIDHintNeutral) w).2)
    = [ attempt;
        EvExecInstance key1 "reset slave" [];
        EvExecInstance key1 "start slave io_thread" [];
        EvExecInstance key1 "stop slave io_thread" [];
        EvExecInstance key1 "reset slave" [];
        attempt ]
  ∧ errorOf (run (ChangeMasterTo toyEnv (settings false) key1 masterKey at0 true
                    GTIDHintNeutral) w).1 = None.
Proof.
  intros query err w attempt.
  split; [reflexivity|].
  pose proof (ChangeMasterTo_workaround_and_single_retry toyEnv (settings false)
                key1 masterKey at0 true GTIDHintNeutral w
                (snapshot (oracleGtidReplica key1 [(query, err)])) w masterKey w []
                query [OStr "db-master"; OInt 3306] true err
                (mkWorld [oracleGtidReplica key1 []] 0)
                eq_refl eq_refl eq_refl eq_refl eq_refl eq_refl) as H.
  destruct (run (ChangeMasterTo toyEnv (settings false) key1 masterKey at0 true
                   GTIDHintNeutral) w) as [r s'].
  vm_compute in H. injection H as -> ->. split; reflexivity.
Defined.

End ChangeMaster.

(** ** Skipping a query *)

Module Skip.
Import Props Toy.

(** C9.  With the snapshot read, SkipQuery
    - returns an error and sends nothing when the snapshot is not a replica,
      when its SQL thread is running, or when it records no SQL error;
    - otherwise (and outside dry run), for a snapshot replicating with MariaDB
      GTID (and not Oracle GTID), returns the guidance error and sends nothing;
    - for a snapshot using Oracle GTID whose next GTID is known: sets it as
      GTID_NEXT, commits an empty transaction, restores GTID_NEXT to
      AUTOMATIC, records the audit entry, and goes on as StartReplication;
    - for a classic snapshot: sends the skip counter statement, records the
      audit entry, and goes on as StartReplication. *)
Theorem SkipQuery_guards_and_dispatch {W : Type} (env : Env W) (config : Config)
    key (w : W) instance w1 :
  env_ReadTopologyInstance env key w = (Ok instance, w1) →
  let ready :=
    IsReplica instance = true ∧ ReplicationSQLThreadRuning instance = false
    ∧ String.eqb (LastSQLError instance) "" = false ∧ Noop config = false in
  let audit := EvAuditOperation "skip-query" key "Skipped one query" in
  let audited := env_AuditOperation env "skip-query" key "Skipped one query" in
  (IsReplica instance = false ∨ ReplicationSQLThreadRuning instance = true
   ∨ LastSQLError instance = "" →
   ∃ err, run (SkipQuery env config key) w
          = (Returns (Fail (Some instance) err), mkState w1 [EvReadTopologyInstance key])
          ∧ isNoopError err = false)
  ∧ (ready → UsingOracleGTID instance = false → UsingMariaDBGTID instance = true →
     run (SkipQuery env config key) w
     = (Returns (Fail (Some instance)
          (Errorf "%+v is replicating with MariaDB GTID. To skip a query first disable GTID, then skip, then enable GTID again"
             [OKey key])),
        mkState w1 [EvReadTopologyInstance key]))
  ∧ (ready → UsingOracleGTID instance = true →
     ∀ nextGtid w2 w3 w4,
       NextGTID instance = (nextGtid, None) → String.eqb nextGtid "" = false →
       env_Exec env (Key instance) "SET GTID_NEXT=?" [OStr nextGtid] w1 = (None, w2) →
       env_EmptyCommit env (Key instance) w2 = (None, w3) →
       env_Exec env (Key instance) "SET GTID_NEXT='AUTOMATIC'" [] w3 = (None, w4) →
       run (SkipQuery env config key) w
       = StartReplication env config key
           (mkState (audited w4)
              [ EvReadTopologyInstance key;
                EvExecInstance (Key instance) "SET GTID_NEXT=?" [OStr nextGtid];
                EvEmptyCommitInstance (Key instance);
                EvExecInstance (Key instance) "SET GTID_NEXT='AUTOMATIC'" [];
                audit ]))
  ∧ (ready → UsingOracleGTID instance = false → UsingMariaDBGTID instance = false →
     ∀ w2,
       env_Exec env (Key instance) (set_sql_slave_skip_counter (QSP instance)) [] w1
       = (None, w2) →
       run (SkipQuery env config key) w
       = StartReplication env config key
           (mkState (audited w2)
              [ EvReadTopologyInstance key;
                EvExecInstance (Key instance) (set_sql_slave_skip_counter (QSP instance)) [];
                audit ])).
Proof.
  intros Hread ready audit audited. subst ready audit audited.
  split; [|split; [|split]].
  - intros Hpre. unfold SkipQuery. unfold_monad. rewrite Hread. cbn.
    destruct (IsReplica instance); cbn; [|by eexists].
    destruct (ReplicationSQLThreadRuning instance); cbn; [by eexists|].
    destruct Hpre as [|[|Herr]]; try done.
    rewrite Herr. cbn. by eexists.
  - intros (Hrep & Hsql & Herr & Hnoop) Horacle Hmaria.
    unfold SkipQuery. unfold_monad.
    rewrite Hread. cbn. rewrite Hrep, Hsql, Herr, Hnoop, Horacle, Hmaria. reflexivity.
  - intros (Hrep & Hsql & Herr & Hnoop) Horacle nextGtid w2 w3 w4 Hnext Hne H1 H2 H3.
    unfold SkipQuery, skipQueryOracleGtid. unfold_monad.
    rewrite Hread. cbn. rewrite Hrep, Hsql, Herr, Hnoop, Horacle. cbn.
    rewrite Hnext. cbn. rewrite Hne. cbn. rewrite H1. cbn. rewrite H2. cbn.
    rewrite H3. reflexivity.
  - intros (Hrep & Hsql & Herr & Hnoop) Horacle Hmaria w2 H1.
    unfold SkipQuery, skipQueryClassic. unfold_monad.
    rewrite Hread. cbn. rewrite Hrep, Hsql, Herr, Hnoop, Horacle, Hmaria. cbn.
    rewrite H1. reflexivity.
Qed.

(** A classic replica whose SQL thread stopped on a duplicate key: the skip
    counter is set and replication started. *)
Lemma SkipQuery_guards_and_dispatch_witness :
  let w := mkWorld [brokenReplica key1] 0 in
  let skip := EvExecInstance key1 "set global sql_slave_skip_counter := 1" [] in
  run (SkipQuery toyEnv (settings false) key1) w
  = StartReplication toyEnv (settings false) key1
      (mkState w [EvReadTopologyInstance key1; skip;
                  EvAuditOperation "skip-query" key1 "Skipped one query"])
  ∧ statements (trace (run (SkipQuery toyEnv (settings false) key1) w).2)
    = [skip; EvExecInstance key1 "start slave" []]
  ∧ errorOf <$> returned (run (SkipQuery toyEnv (settings false) key1) w).1 = Some None.
Proof.
  intros w skip.
  pose proof (proj2 (proj2 (proj2
    (SkipQuery_guards_and_dispatch toyEnv (settings false) key1 w
       (snapshot (brokenReplica key1)) w eq_refl)))
       (conj eq_refl (conj eq_refl (conj eq_refl eq_refl))) eq_refl eq_refl w eq_refl) as H.
  split; [exact H|]. rewrite H. split; vm_compute; reflexivity.
Defined.

End Skip.

(** ** Starting replication up to given coordinates *)

Module StartUntil.
Import Props Toy.

Lemma Equals_eq (a b : BinlogCoordinates) : Equals a b = true → a = b.
Proof.
  unfold Equals. intros [Hf Hp]%andb_prop.
  apply String.eqb_eq in Hf. apply Z.eqb_eq in Hp.
  destruct a, b; cbn in *; congruence.
Qed.

Section Contract.
Context {W : Type}.
Variable env : Env W.
Variable config : Config.
Variable key : InstanceKey.
Variable target : BinlogCoordinates.

(** What is assumed of the server that [key] names, while this operation is
    the only one acting on it.  [Snap]: the snapshots the reader returns.
    [Until]: the world after START SLAVE UNTIL [target] was accepted.
    [Reached]: the executed coordinates are [target] and stay there.
    [Halted]: both replication threads are stopped. *)
Variable Snap : Instance → Prop.
Variables Until Reached Halted : W → Prop.

Hypothesis reader_snapshots : ∀ k w i w',
  env_ReadTopologyInstance env k w = (Ok i, w') → Snap i.
Hypothesis start_until_accepted : ∀ i w w',
  Snap i →
  env_Exec env key (start_slave_until_master_log (QSP i))
    [OStr (LogFile target); OInt (LogPos target)] w = (None, w') →
  Until w'.
Hypothesis until_read : ∀ w r w',
  Until w → env_ReadTopologyInstance env key w = (r, w') →
  Until w' ∧ ∀ i, r = Ok i → Equals (ExecBinlogCoordinates i) target = true → Reached w'.
Hypothesis until_sleep : ∀ w d, Until w → Until (env_Sleep env d w).
Hypothesis reached_read : ∀ w r w',
  Reached w → env_ReadTopologyInstance env key w = (r, w') →
  Reached w' ∧ ∀ i, r = Ok i → ExecBinlogCoordinates i = target.
Hypothesis reached_stop : ∀ w i oe w',
  Reached w → Snap i → env_Exec env key (stop_slave (QSP i)) [] w = (oe, w') →
  Reached w' ∧ (maxScalePatch i oe = None → Halted w').
Hypothesis halted_read : ∀ w i w',
  Halted w → env_ReadTopologyInstance env key w = (Ok i, w') →
  ReplicationThreadsStopped i = true.

Lemma SetSemiSyncMaster_snap k b (s : State W) i s' :
  SetSemiSyncMaster env k b s = (Ok i, s') → Snap i.
Proof.
  unfold SetSemiSyncMaster. unfold_monad.
  destruct (env_ReadTopologyInstance env k (world s)) as [[i0|oi e] w1] eqn:Hr; [|done].
  cbn. destruct (env_Exec env k _ _ w1) as [[e|] w2]; [done|]. cbn.
  destruct (env_ReadTopologyInstance env k w2) as [r w3] eqn:Hr2.
  intros [= -> _]. eauto.
Qed.

Lemma SetSemiSyncReplica_snap k b (s : State W) i s' :
  SetSemiSyncReplica env k b s = (Ok i, s') → Snap i.
Proof.
  unfold SetSemiSyncReplica. unfold_monad.
  destruct (env_ReadTopologyInstance env k (world s)) as [[i0|oi e] w1] eqn:Hr; [|done].
  cbn. destruct (Bool.eqb _ _); [intros [= <- _]; eauto|].
  cbn. destruct (env_Exec env k _ _ w1) as [[e|] w2]; [done|]. cbn.
  destruct (ReplicationIOThreadRuning i0); cbn.
  - destruct (env_Exec env k _ _ w2) as [oe w3]. cbn.
    destruct (env_Exec env k _ _ w3) as [[e|] w4]; [done|]. cbn.
    destruct (env_ReadTopologyInstance env k w4) as [r w5] eqn:Hr2.
    intros [= -> _]. eauto.
  - destruct (env_ReadTopologyInstance env k w2) as [r w3] eqn:Hr2.
    intros [= -> _]. eauto.
Qed.

Lemma MaybeDisableSemiSyncMaster_snap i0 (s : State W) i s' :
  Snap i0 → MaybeDisableSemiSyncMaster env i0 s = (Returns (Ok i), s') → Snap i.
Proof.
  intros Hsnap. unfold MaybeDisableSemiSyncMaster.
  destruct (_ && _).
  - unfold mbind, M_bind.
    destruct (SetSemiSyncMaster env (Key i0) false s) as [[i1|oi e] s1] eqn:Hset.
    + unfold_monad. intros [= <- _]. by eapply SetSemiSyncMaster_snap.
    + unfold_monad. unfold logged. by destruct oi.
  - unfold_monad. by intros [= <- _].
Qed.

Lemma MaybeEnableSemiSyncReplica_snap i0 (s : State W) i s' :
  Snap i0 → MaybeEnableSemiSyncReplica env config i0 s = (Ok i, s') → Snap i.
Proof.
  intros Hsnap. unfold MaybeEnableSemiSyncReplica, maybeEnableSemiSyncReplicaLegacy.
  destruct (_ && _).
  - destruct (0 <? _); [apply SetSemiSyncReplica_snap|].
    unfold_monad. by intros [= <- _].
  - unfold mbind, M_bind.
    destruct (AnalyzeSemiSyncReplicaTopology _ _ _ _ s) as [[[[m rs] acts]|e] s1];
      [|unfold_monad; done].
    destruct (find _ _) as [[replica enable]|]; [|unfold_monad; by intros [= <- _]].
    destruct (SetSemiSyncReplica env _ enable s1) as [[i1|oi e] s2];
      unfold_monad; [by intros [= <- _]|done].
Qed.

(** The wait, started in the [Until] world: an exact match is observed only
    once the coordinates are reached, and a match that is not exact is a
    snapshot past the target. *)
Lemma wait_from_until fuel : ∀ startTime (s : State W) r exactMatch s',
  Until (world s) →
  WaitForExecBinlogCoordinatesToReach_loop env config fuel key target 0 startTime s
  = (Some (r, exactMatch), s') →
  match r with
  | Ok i =>
      if exactMatch then Reached (world s')
      else SmallerThan target (ExecBinlogCoordinates i) = true
  | Fail _ _ => exactMatch = false
  end.
Proof.
  induction fuel as [|fuel IH]; intros startTime s r exactMatch s' Huntil; [done|].
  cbn [WaitForExecBinlogCoordinatesToReach_loop]. unfold_monad.
  cbn [Z.eqb negb andb].
  destruct (env_ReadTopologyInstance env key (world s)) as [[i|oi e] w1] eqn:Hr; cbn.
  - destruct (until_read _ _ _ Huntil Hr) as [Huntil1 Hreach].
    destruct (SmallerThan (ExecBinlogCoordinates i) target).
    + apply IH. cbn. by apply until_sleep.
    + destruct (Equals (ExecBinlogCoordinates i) target) eqn:Heq.
      * intros [= <- <- <-]. cbn. exact (Hreach i eq_refl Heq).
      * destruct (SmallerThan target (ExecBinlogCoordinates i)) eqn:Hpast.
        -- by intros [= <- <- <-].
        -- by apply IH.
  - by intros [= <- <- <-].
Qed.

(** The plain stop, from a world where the coordinates are reached. *)
Lemma stop_from_reached (s : State W) final s' :
  Reached (world s) →
  StopReplication (T:=M W) env key s = (Returns (Ok final), s') →
  ReplicationThreadsStopped final = true ∧ ExecBinlogCoordinates final = target.
Proof.
  intros Hreached. unfold StopReplication. unfold_monad.
  destruct (env_ReadTopologyInstance env key (world s)) as [[i|oi e] w1] eqn:Hr; [|done].
  cbn. destruct (reached_read _ _ _ Hreached Hr) as [Hreached1 _].
  destruct (IsReplica i); [|done]. cbn.
  destruct (env_Exec env key (stop_slave (QSP i)) [] w1) as [oe w2] eqn:Hstop. cbn.
  destruct (reached_stop _ _ _ _ Hreached1 (reader_snapshots _ _ _ _ Hr) Hstop)
    as [Hreached2 Hhalted].
  destruct (maxScalePatch i oe); [done|]. cbn.
  destruct (env_ReadTopologyInstance env key w2) as [r w3] eqn:Hr2.
  unfold logged. destruct r as [i3|[i3|] e]; cbn; try done.
  intros [= -> _]. split.
  - eapply halted_read; eauto.
  - destruct (reached_read _ _ _ Hreached2 Hr2) as [_ Hexec]. exact (Hexec final eq_refl).
Qed.

(** The end of the operation, from the [Until] world. *)
Lemma finish_from_until fuel (s : State W) final s' :
  Until (world s) →
  startUntilFinish env config fuel key target s = (Some (Returns (Ok final)), s') →
  ReplicationThreadsStopped final = true ∧ ExecBinlogCoordinates final = target.
Proof.
  intros Huntil. unfold startUntilFinish, WaitForExecBinlogCoordinatesToReach.
  unfold mbind, M_bind, Now. cbn [world].
  destruct (WaitForExecBinlogCoordinatesToReach_loop _ _ _ _ _ _ _ s)
    as [[[r exactMatch]|] s1] eqn:Hwait; [|by unfold_monad].
  pose proof (wait_from_until _ _ _ _ _ _ Huntil Hwait) as Hw.
  destruct r as [i|oi e]; [|by unfold_monad].
  destruct exactMatch; [|by unfold_monad].
  unfold fmap, M_fmap.
  destruct (StopReplication (T:=M W) env key s1) as [r2 s2] eqn:Hstop.
  intros [= -> _]. eapply stop_from_reached; eauto.
Qed.

Lemma StartReplicationUntilMasterCoordinates_success fuel (w : W) final s' :
  run (StartReplicationUntilMasterCoordinates env config fuel key target) w
  = (Some (Returns (Ok final)), s') →
  ReplicationThreadsStopped final = true ∧ ExecBinlogCoordinates final = target.
Proof.
  unfold run, StartReplicationUntilMasterCoordinates. unfold mbind at 1. unfold M_bind at 1.
  unfold ReadTopologyInstance at 1. unfold call. cbn [world trace].
  destruct (env_ReadTopologyInstance env key w) as [[i|oi e] w1] eqn:Hr; [|by unfold_monad].
  destruct (negb (IsReplica i)); [by unfold_monad|].
  destruct (negb (ReplicationThreadsStopped i)); [by unfold_monad|].
  unfold mbind at 1. unfold M_bind at 1.
  destruct (MaybeDisableSemiSyncMaster env i _) as [[[i1|oi e]|] s1] eqn:Hd;
    [|by unfold_monad..].
  apply MaybeDisableSemiSyncMaster_snap in Hd; [|by eapply reader_snapshots].
  unfold mbind at 1. unfold M_bind at 1.
  destruct (MaybeEnableSemiSyncReplica env config i1 s1) as [[i2|oi e] s2] eqn:He;
    [|by unfold_monad].
  apply MaybeEnableSemiSyncReplica_snap in He; [|done].
  unfold mbind at 1. unfold M_bind at 1. unfold ExecInstance at 1. unfold call.
  destruct (env_Exec env key _ _ (world s2)) as [[e|] w3] eqn:Hx; [by unfold_monad|].
  apply finish_from_until. cbn. by eapply start_until_accepted.
Qed.

End Contract.

(** The checks that come before anything is sent. *)
Lemma StartReplicationUntilMasterCoordinates_checks {W : Type} (env : Env W)
    (config : Config) fuel key target (w : W) instance w1 :
  env_ReadTopologyInstance env key w = (Ok instance, w1) →
  IsReplica instance = false ∨ ReplicationThreadsStopped instance = false →
  ∃ err,
    run (StartReplicationUntilMasterCoordinates env config fuel key target) w
    = (Some (Returns (Fail (Some instance) err)), mkState w1 [EvReadTopologyInstance key]).
Proof.
  intros Hr Hpre. unfold StartReplicationUntilMasterCoordinates. unfold_monad.
  rewrite Hr. cbn.
  destruct (IsReplica instance); cbn; [|by eexists].
  destruct Hpre as [|Hstopped]; [done|]. rewrite Hstopped. cbn. by eexists.
Qed.

(** A match that is not exact is a snapshot past the target. *)
Lemma wait_inexact_is_past {W : Type} (env : Env W) (config : Config) key target maxWait
    fuel : ∀ startTime (s : State W) i s',
  WaitForExecBinlogCoordinatesToReach_loop env config fuel key target maxWait startTime s
  = (Some (Ok i, false), s') →
  SmallerThan target (ExecBinlogCoordinates i) = true.
Proof.
  induction fuel as [|fuel IH]; intros startTime s i s'; [done|].
  cbn [WaitForExecBinlogCoordinatesToReach_loop]. unfold_monad.
  destruct (_ && _); [done|].
  destruct (env_ReadTopologyInstance env key (world s)) as [[i0|oi e] w1]; cbn; [|done].
  destruct (SmallerThan (ExecBinlogCoordinates i0) target); [apply IH|].
  destruct (Equals (ExecBinlogCoordinates i0) target); [done|].
  destruct (SmallerThan target (ExecBinlogCoordinates i0)) eqn:Hpast; [|apply IH].
  by intros [= <- _].
Qed.


(** The small world honours the assumptions. *)
Section ToyContract.
Variable target : BinlogCoordinates.

Lemma SmallerThan_irrefl (c : BinlogCoordinates) : SmallerThan c c = false.
Proof.
  unfold SmallerThan, String.ltb.
  pose proof (String.compare_antisym (LogFile c) (LogFile c)) as Hc.
  destruct (LogFile c ?= LogFile c)%string; cbn in *; try congruence;
    rewrite Z.ltb_irrefl; by rewrite andb_false_r.
Qed.

Lemma lookup_update key (f : Server → Server) (l : list Server) :
  (∀ s, static (f s) = static s) →
  lookupServer key (updateServer key f l) = f <$> lookupServer key l.
Proof.
  intros Hf. induction l as [|s l IH]; [done|]. cbn.
  destruct (InstanceKey_Equals (s_key (static s)) key) eqn:Hk; cbn.
  - by rewrite Hf, Hk.
  - by rewrite Hk.
Qed.

Lemma tick_static s : static (tick s) = static s.
Proof. unfold tick. repeat case_match; done. Qed.

Lemma execute_static query args s : static (execute query args s).2 = static s.
Proof. unfold execute. repeat case_match; done. Qed.

Lemma tick_until s : d_until (dynamic (tick s)) = d_until (dynamic s).
Proof. unfold tick. repeat case_match; done. Qed.

Lemma tick_reached s :
  d_until (dynamic s) = Some target → d_exec (dynamic s) = target → tick s = s.
Proof.
  intros Hu He. unfold tick. rewrite Hu, He, SmallerThan_irrefl.
  by rewrite andb_false_r.
Qed.

Lemma toy_reader_snapshots k w i w' :
  env_ReadTopologyInstance toyEnv k w = (Ok i, w') → toySnap i.
Proof.
  cbn. unfold read. destruct (lookupServer k (servers w)); [|done].
  by intros [= <- _].
Qed.

Lemma toy_start_until_accepted i w w' :
  toySnap i →
  env_Exec toyEnv key1 (start_slave_until_master_log (QSP i))
    [OStr (LogFile target); OInt (LogPos target)] w = (None, w') →
  toyUntil target w'.
Proof.
  intros [-> _]. cbn. unfold exec.
  destruct (lookupServer key1 (servers w)) as [s|] eqn:Hl; [|done].
  intros [= Hnone <-]. unfold toyUntil, server1. cbn.
  rewrite lookup_update by apply execute_static. rewrite Hl. cbn.
  eexists. split; [reflexivity|].
  unfold execute in *. destruct (takeFailure _ _) as [[e rest]|]; [done|].
  cbn. by destruct target.
Qed.

Lemma toy_until_read w r w' :
  toyUntil target w → env_ReadTopologyInstance toyEnv key1 w = (r, w') →
  toyUntil target w'
  ∧ ∀ i, r = Ok i → Equals (ExecBinlogCoordinates i) target = true → toyReached target w'.
Proof.
  intros (s & Hl & Hu). cbn. unfold read. rewrite Hl. intros [= <- <-].
  unfold toyUntil, toyReached, server1. cbn.
  rewrite lookup_update by apply tick_static. rewrite Hl. cbn. split.
  - eexists. split; [reflexivity|]. by rewrite tick_until.
  - intros i [= <-] Heq%StartUntil.Equals_eq. cbn in Heq.
    eexists. split; [reflexivity|]. by rewrite tick_reached.
Qed.

Lemma toy_until_sleep w d : toyUntil target w → toyUntil target (env_Sleep toyEnv d w).
Proof. done. Qed.

Lemma toy_reached_read w r w' :
  toyReached target w → env_ReadTopologyInstance toyEnv key1 w = (r, w') →
  toyReached target w' ∧ ∀ i, r = Ok i → ExecBinlogCoordinates i = target.
Proof.
  intros (s & Hl & Hu & He). cbn. unfold read. rewrite Hl. intros [= <- <-].
  unfold toyReached, server1. cbn.
  rewrite lookup_update by apply tick_static. rewrite Hl. cbn. split.
  - eexists. split; [reflexivity|]. by rewrite tick_reached.
  - by intros i [= <-].
Qed.

Lemma toy_reached_stop w i oe w' :
  toyReached target w → toySnap i →
  env_Exec toyEnv key1 (stop_slave (QSP i)) [] w = (oe, w') →
  toyReached target w' ∧ (maxScalePatch i oe = None → toyHalted w').
Proof.
  intros (s & Hl & Hu & He) [-> Hmax]. cbn. unfold exec. rewrite Hl. intros [= <- <-].
  unfold toyReached, toyHalted, server1, maxScalePatch. cbn.
  rewrite lookup_update by apply execute_static. rewrite Hl. cbn.
  unfold execute. rewrite Hmax.
  destruct (takeFailure _ _) as [[e rest]|]; cbn.
  - split; [by eexists|done].
  - split; [by eexists|]. intros _. by eexists.
Qed.

Lemma toy_halted_read w i w' :
  toyHalted w → env_ReadTopologyInstance toyEnv key1 w = (Ok i, w') →
  ReplicationThreadsStopped i = true.
Proof.
  intros (s & Hl & Hio & Hsql). cbn. unfold read. rewrite Hl. intros [= <- _].
  cbn. by rewrite Hio, Hsql.
Qed.

End ToyContract.


End StartUntil.

(** ** Bulk stop *)

Module BulkStop.
Import Props Toy.

(** *** Statements by server *)

Lemma InstanceKey_Equals_eq (a b : InstanceKey) : InstanceKey_Equals a b = true ↔ a = b.
Proof.
  unfold InstanceKey_Equals. destruct a as [ha pa], b as [hb pb]. cbn.
  rewrite andb_true_iff, String.eqb_eq, Z.eqb_eq. split.
  - by intros [-> ->].
  - by intros [= -> ->].
Qed.

Lemma sentTo_app key (t1 t2 : list Event) :
  sentTo key (t1 ++ t2) = (sentTo key t1 ++ sentTo key t2)%list.
Proof. apply List.filter_app. Qed.

Lemma sentTo_silent key (t : list Event) : Forall silent t → sentTo key t = [].
Proof.
  unfold sentTo. induction 1 as [|e t He _ IH]; [done|]. cbn [List.filter]. rewrite IH.
  destruct e; cbn in *; done.
Qed.

Lemma sentTo_other key key' (t : list Event) :
  Forall (onlyTo key) t → key' ≠ key → sentTo key' t = [].
Proof.
  unfold sentTo. intros Hall Hne.
  induction Hall as [|e t He _ IH]; [done|]. cbn [List.filter]. rewrite IH.
  unfold onlyTo in He.
  destruct e; cbn in *; try done;
    (destruct (InstanceKey_Equals key0 key') eqn:Hk; [|done]);
    apply InstanceKey_Equals_eq in Hk as ->;
    specialize (He eq_refl); by apply InstanceKey_Equals_eq in He.
Qed.

Lemma silent_onlyTo key (t : list Event) : Forall silent t → Forall (onlyTo key) t.
Proof.
  intros Hall. eapply Forall_impl; [exact Hall|].
  intros e He Hs. unfold silent in He. congruence.
Qed.

(** *** The code of a goroutine *)

Section Follows.
Context {W : Type}.
Variable Healthy : W → Prop.
Variable key : InstanceKey.
Implicit Types (inv : list Event → Prop) (sent : list Event).

Lemma follows_mono inv inv' {A} (post post' : A → list Event → Prop) (p : Prog W A) :
  (∀ sent, inv sent → inv' sent) →
  (∀ a sent, post a sent → post' a sent) →
  ∀ sent, follows Healthy key inv post sent p → follows Healthy key inv' post' sent p.
Proof.
  intros Hinv Hpost. induction p as [a|X m rest IH]; intros sent; cbn; [by auto|].
  intros [Hi Hstep]. split; [by auto|].
  intros s Hs. destruct (Hstep s Hs) as (t & Ht & Hh & Honly & Hrest).
  exists t. eauto.
Qed.

Lemma follows_bind inv {A B} (post : A → list Event → Prop) (post' : B → list Event → Prop)
    (f : A → Prog W B) (p : Prog W A) :
  (∀ a sent, post a sent → follows Healthy key inv post' sent (f a)) →
  ∀ sent, follows Healthy key inv post sent p →
          follows Healthy key inv post' sent (p ≫= f).
Proof.
  intros Hf. induction p as [a|X m rest IH]; intros sent; cbn; [by auto|].
  intros [Hi Hstep]. split; [done|].
  intros s Hs. destruct (Hstep s Hs) as (t & Ht & Hh & Honly & Hrest).
  exists t. split_and!; try done. by apply IH.
Qed.

Lemma follows_fmap inv {A B} (post : A → list Event → Prop) (post' : B → list Event → Prop)
    (f : A → B) (p : Prog W A) :
  (∀ a sent, post a sent → post' (f a) sent) →
  ∀ sent, follows Healthy key inv post sent p →
          follows Healthy key inv post' sent (f <$> p).
Proof.
  intros Hf. induction p as [a|X m rest IH]; intros sent; cbn; [by auto|].
  intros [Hi Hstep]. split; [done|].
  intros s Hs. destruct (Hstep s Hs) as (t & Ht & Hh & Honly & Hrest).
  exists t. split_and!; try done. by apply IH.
Qed.

End Follows.

(** The steps a goroutine is made of. *)
Section Steps.
Context {W : Type}.
Variable env : Env W.
Variable Healthy : W → Prop.
Variable key : InstanceKey.
Context {A : Type}.
Variable inv : list Event → Prop.
Variable post : A → list Event → Prop.

Lemma InstanceKey_Equals_refl : InstanceKey_Equals key key = true.
Proof. by apply InstanceKey_Equals_eq. Qed.

(** A step that sends no statement. *)
Lemma follows_quiet {X} (m : M W X) (rest : X → Prog W A) sent :
  inv sent →
  (∀ s, Healthy (world s) →
     ∃ t, trace (m s).2 = (trace s ++ t)%list ∧ Forall silent t
          ∧ Healthy (world (m s).2)
          ∧ follows Healthy key inv post sent (rest (m s).1)) →
  follows Healthy key inv post sent (Step m rest).
Proof.
  intros Hinv Hstep. split; [done|]. intros s Hs.
  destruct (Hstep s Hs) as (t & Ht & Hsilent & Hh & Hrest).
  exists t. split_and!; [done|done|by apply silent_onlyTo|].
  by rewrite sentTo_silent, app_nil_r.
Qed.

(** A snapshot read. *)
Lemma follows_read k (rest : Result → Prog W A) sent :
  inv sent →
  (∀ w, Healthy w →
     Healthy (env_ReadTopologyInstance env k w).2
     ∧ follows Healthy key inv post sent (rest (env_ReadTopologyInstance env k w).1)) →
  follows Healthy key inv post sent (Step (ReadTopologyInstance env k) rest).
Proof.
  intros Hinv Hstep. apply follows_quiet; [done|]. intros s Hs.
  destruct (Hstep (world s) Hs) as [Hh Hrest].
  unfold ReadTopologyInstance, call.
  destruct (env_ReadTopologyInstance env k (world s)) as [r w']. cbn in *.
  eexists [_]. split_and!; [done| |done|done]. by repeat constructor.
Qed.

(** A statement sent to the goroutine's server. *)
Lemma follows_exec query args (rest : option error → Prog W A) sent :
  inv sent →
  (∀ w, Healthy w →
     Healthy (env_Exec env key query args w).2
     ∧ follows Healthy key inv post (sent ++ [EvExecInstance key query args])
         (rest (env_Exec env key query args w).1)) →
  follows Healthy key inv post sent (Step (ExecInstance env key query args) rest).
Proof.
  intros Hinv Hstep. split; [done|]. intros s Hs.
  destruct (Hstep (world s) Hs) as [Hh Hrest].
  unfold ExecInstance, call.
  destruct (env_Exec env key query args (world s)) as [oe w']. cbn in *.
  eexists [_]. split_and!; [done|done| |].
  - constructor; [|constructor]. intros _. cbn. apply InstanceKey_Equals_refl.
  - unfold sentTo. cbn. by rewrite InstanceKey_Equals_refl.
Qed.

(** The clock read. *)
Lemma follows_now (rest : Z → Prog W A) sent :
  inv sent →
  (∀ now, follows Healthy key inv post sent (rest now)) →
  follows Healthy key inv post sent (Step (Now env) rest).
Proof.
  intros Hinv Hrest. apply follows_quiet; [done|]. intros s Hs.
  exists []. cbn. rewrite app_nil_r. split_and!; try done.
Qed.

End Steps.

(** Unfolds the code of a goroutine into its steps. *)
Ltac prog_steps :=
  unfold mbind, Prog_mbind, fmap, Prog_fmap, atomically, Prog_steps, mret, Prog_ret;
  cbn [Prog_bind execAll].

Section Safety.
Context {W : Type}.
Variable env : Env W.
Variable config : Config.
Hypothesis retry_silent : retryIsSilent env.

Lemma plain_follows key sent0 :
  follows (λ _, True) key (after sent0 (plainStop key)) (λ _, after sent0 (plainStop key))
    sent0 (StopReplication (T:=Prog W) env key).
Proof.
  assert (after sent0 (plainStop key) sent0) as Hnil.
  { exists []. split; [by rewrite app_nil_r|by left]. }
  assert (∀ instance,
            after sent0 (plainStop key)
              (sent0 ++ [EvExecInstance key (stop_slave (QSP instance)) []])) as Hone.
  { intros instance. eexists. split; [done|]. right. by eexists. }
  unfold StopReplication. prog_steps.
  apply follows_read; [done|]. intros w _. split; [done|].
  destruct (env_ReadTopologyInstance env key w) as [[instance|oi e] w1]; cbn [fst snd];
    [|done].
  destruct (IsReplica instance); cbn [negb]; [|done].
  apply follows_exec; [done|]. intros w2 _. split; [done|].
  destruct (maxScalePatch instance _); [by apply Hone|].
  apply follows_read; [by apply Hone|]. intros w3 _. split; [done|]. by apply Hone.
Qed.

(** The wait for the SQL thread sends nothing. *)
Lemma wait_follows key inv overall stale general :
  ∀ fuel staleDeadline last sent,
    inv sent →
    follows (λ _, True) key inv (λ _ l, l = sent) sent
      (WaitForSQLThreadUpToDate_loop (T:=Prog W) env config fuel key overall stale
         general staleDeadline last).
Proof.
  induction fuel as [|fuel IH]; intros staleDeadline last sent Hinv; [done|].
  cbn [WaitForSQLThreadUpToDate_loop]. prog_steps.
  apply follows_quiet; [done|]. intros s _.
  destruct (retry_silent key s) as (t & Ht & Hsilent).
  exists t. split_and!; [done..|].
  destruct (env_RetryInstanceFunction env (ReadTopologyInstance env key) s) as [[i|oi e] s1];
    cbn [fst]; [|done].
  destruct (SQLThreadUpToDate i); [done|].
  destruct (negb (SQLDelay i =? 0)); [done|].
  apply follows_now; [done|]. intros now.
  destruct (general <=? now); [done|].
  destruct (_ <=? now); [done|].
  apply follows_quiet; [done|]. intros s2 _.
  eexists [_]. unfold Sleep, call. cbn. split_and!; [done| |done|].
  - by repeat constructor.
  - by apply IH.
Qed.

Lemma nice_follows key fuel timeout :
  follows (λ _, True) key (niceStop key) (λ _, niceStop key) []
    (StopReplicationNicely (T:=Prog W) env config fuel key timeout).
Proof.
  assert (niceStop key []) as N0.
  { exists (snapshot (replica key true)), (snapshot (replica key true)). apply prefix_nil. }
  assert (∀ i, niceStop key [EvExecInstance key (stop_slave_io_thread (QSP i)) []]) as N1.
  { intros i. exists i, i. by eexists [_; _]. }
  assert (∀ i, niceStop key [EvExecInstance key (stop_slave_io_thread (QSP i)) [];
                             EvExecInstance key (start_slave_sql_thread (QSP i)) []]) as N2.
  { intros i. exists i, i. by eexists [_]. }
  assert (∀ i d, niceStop key [EvExecInstance key (stop_slave_io_thread (QSP i)) [];
                               EvExecInstance key (start_slave_sql_thread (QSP i)) [];
                               EvExecInstance key (stop_slave (QSP d)) []]) as N3.
  { intros i d. exists i, d. by exists []. }
  assert (∀ i d,
            follows (λ _, True) key (niceStop key) (λ _ : option Outcome, niceStop key)
              [EvExecInstance key (stop_slave_io_thread (QSP i)) [];
               EvExecInstance key (start_slave_sql_thread (QSP i)) []]
              (Some <$> stopNicelyTail (T:=Prog W) env key d)) as Htail.
  { intros i d. unfold stopNicelyTail. prog_steps.
    apply follows_exec; [done|]. intros w _. split; [done|]. cbn [app].
    destruct (maxScalePatch d _); [by apply N3|].
    apply follows_read; [by apply N3|]. intros w2 _. split; [done|]. by apply N3. }
  unfold StopReplicationNicely. prog_steps.
  apply follows_read; [done|]. intros w _. split; [done|].
  destruct (env_ReadTopologyInstance env key w) as [[i|oi e] w1]; cbn [fst snd]; [|done].
  destruct (ReplicationThreadsExist i); cbn [negb]; [|done].
  apply follows_exec; [done|]. intros w2 _. split; [done|]. cbn [app].
  destruct (env_Exec env key _ _ w2).1; [by apply N1|].
  apply follows_exec; [by apply N1|]. intros w3 _. split; [done|]. cbn [app].
  destruct (env_Exec env key _ _ w3).1; [by apply N2|].
  destruct (SQLDelay i =? 0); [|by apply Htail].
  unfold WaitForSQLThreadUpToDate. prog_steps.
  apply follows_now; [by apply N2|]. intros now.
  eapply follows_bind; [|by apply wait_follows].
  intros [[d|oi e]|] sent ->; [by apply Htail|by apply N2..].
Qed.

(** The function of the goroutine keeps to the policy. *)
Lemma task_follows fuel method timeout replica :
  method ≠ NoStopReplication →
  follows (λ _, True) (Key replica) (treated method replica)
    (λ _, treated method replica) []
    (stopReplicaTask (T:=Prog W) env config fuel method timeout replica).
Proof.
  intros Hmethod.
  assert (follows (λ _, True) (Key replica) (plainStop (Key replica))
            (λ _ : option Outcome, plainStop (Key replica)) []
            (Some <$> StopReplication (T:=Prog W) env (Key replica))) as Hplain.
  { eapply follows_fmap; [|eapply follows_mono; [| |apply (plain_follows _ [])]].
    - intros a sent H. exact H.
    - by intros sent (more & -> & H).
    - by intros a sent (more & -> & H). }
  unfold stopReplicaTask, treated.
  destruct method; [done| |]; cbn [StopReplicationMethod_eqb andb]; [done|].
  destruct (IsMariaDB replica); cbn [negb]; [done|].
  unfold mbind, Prog_mbind.
  eapply (follows_bind _ _ _ (λ _, niceStop (Key replica)));
    [|eapply follows_mono; [| |apply nice_follows]].
  - intros [[r|]|] sent Hnice; cbn beta iota.
    + eapply follows_fmap; [|eapply follows_mono; [| |apply (plain_follows _ sent)]].
      * intros a l H. exact H.
      * intros l (more & -> & H). exists sent, more. by split_and!.
      * intros a l (more & -> & H). exists sent, more. by split_and!.
    + exists sent, []. rewrite app_nil_r. split_and!; [done|done|by left].
    + exists sent, []. rewrite app_nil_r. split_and!; [done|done|by left].
  - intros sent H. exists sent, []. rewrite app_nil_r. split_and!; [done|done|by left].
  - intros a sent H. exact H.
Qed.

End Safety.

(** *** On servers that answer *)

Section Exact.
Context {W : Type}.
Variable env : Env W.
Variable config : Config.
Variable qsp : QueryStringProvider.
Variable Healthy : W → Prop.
Variable key : InstanceKey.
Hypothesis Hanswers : answers env qsp Healthy key.

Let always (_ : list Event) : Prop := True.

(** A read of the server, then [rest] on the drained snapshot. *)
Lemma follows_read_drained {A} (post : A → list Event → Prop)
    (rest : Result → Prog W A) sent :
  (∀ instance, drained qsp instance →
     follows Healthy key always post sent (rest (Ok instance))) →
  follows Healthy key always post sent (Step (ReadTopologyInstance env key) rest).
Proof.
  intros Hrest. apply follows_read; [done|]. intros w Hw.
  destruct (proj1 Hanswers w Hw) as (instance & w' & -> & Hd & Hw'). split; [done|].
  by apply Hrest.
Qed.

(** A statement the server accepts, then [rest]. *)
Lemma follows_exec_accepted {A} (post : A → list Event → Prop) query args
    (rest : option error → Prog W A) sent :
  follows Healthy key always post (sent ++ [EvExecInstance key query args]) (rest None) →
  follows Healthy key always post sent (Step (ExecInstance env key query args) rest).
Proof.
  intros Hrest. apply follows_exec; [done|]. intros w Hw.
  destruct (proj2 (proj2 Hanswers) query args w Hw) as (w' & -> & Hw'). by split.
Qed.

Lemma plain_exact sent0 :
  follows Healthy key always
    (λ o l, l = (sent0 ++ [EvExecInstance key (stop_slave qsp) []])%list
            ∧ ∃ instance, o = Returns (Ok instance))
    sent0 (StopReplication (T:=Prog W) env key).
Proof.
  unfold StopReplication. prog_steps.
  apply follows_read_drained. intros i (Hreplica & _ & _ & Hqsp).
  rewrite Hreplica, Hqsp. cbn [negb].
  apply follows_exec_accepted. cbn [maxScalePatch].
  apply follows_read_drained. intros i2 _. cbn. eauto.
Qed.

Lemma nice_exact fuel timeout :
  follows Healthy key always
    (λ a l, a = None
            ∨ l = [ EvExecInstance key (stop_slave_io_thread qsp) [];
                    EvExecInstance key (start_slave_sql_thread qsp) [];
                    EvExecInstance key (stop_slave qsp) [] ]
              ∧ ∃ instance, a = Some (Returns (Ok instance)))
    [] (StopReplicationNicely (T:=Prog W) env config fuel key timeout).
Proof.
  assert (∀ d, drained qsp d →
            follows Healthy key always
              (λ a l, a = None
                      ∨ l = [ EvExecInstance key (stop_slave_io_thread qsp) [];
                              EvExecInstance key (start_slave_sql_thread qsp) [];
                              EvExecInstance key (stop_slave qsp) [] ]
                        ∧ ∃ instance, a = Some (Returns (Ok instance)))
              [ EvExecInstance key (stop_slave_io_thread qsp) [];
                EvExecInstance key (start_slave_sql_thread qsp) [] ]
              (Some <$> stopNicelyTail (T:=Prog W) env key d)) as Htail.
  { intros d (_ & _ & _ & Hqsp). unfold stopNicelyTail. rewrite Hqsp. prog_steps.
    apply follows_exec_accepted. cbn [maxScalePatch app].
    apply follows_read_drained. intros i2 _. cbn. eauto. }
  unfold StopReplicationNicely. prog_steps.
  apply follows_read_drained. intros i Hi.
  pose proof Hi as (_ & Hexist & _ & Hqsp). rewrite Hexist, Hqsp. cbn [negb].
  apply follows_exec_accepted. cbn [app].
  apply follows_exec_accepted. cbn [app].
  destruct (SQLDelay i =? 0); [|by apply Htail].
  unfold WaitForSQLThreadUpToDate. prog_steps.
  apply follows_now; [done|]. intros now.
  destruct fuel as [|fuel']; cbn [WaitForSQLThreadUpToDate_loop]; prog_steps; [by left|].
  apply follows_quiet; [done|]. intros s Hs.
  destruct (proj1 (proj2 Hanswers) s Hs) as (d & s' & t & -> & Hd & Hs' & Ht & Hsilent).
  exists t. split_and!; [done..|]. cbn [fst].
  pose proof Hd as (_ & _ & Hup & _). rewrite Hup. cbn [Prog_bind]. by apply Htail.
Qed.

Lemma task_exact fuel method timeout replica :
  Key replica = key → method ≠ NoStopReplication →
  follows Healthy key always
    (λ a l, a = None
            ∨ l = treatment method replica qsp ∧ ∃ instance, a = Some (Returns (Ok instance)))
    [] (stopReplicaTask (T:=Prog W) env config fuel method timeout replica).
Proof.
  intros Hkey Hmethod.
  assert (∀ sent0,
            follows Healthy key always
              (λ (a : option Outcome) l,
                 a = None
                 ∨ l = (sent0 ++ [EvExecInstance key (stop_slave qsp) []])%list
                   ∧ ∃ instance, a = Some (Returns (Ok instance)))
              sent0 (Some <$> StopReplication (T:=Prog W) env key)) as Hplain.
  { intros sent0. eapply follows_fmap; [|apply plain_exact].
    intros o l [-> [i ->]]. right. eauto. }
  unfold stopReplicaTask, treatment. rewrite Hkey.
  destruct method; [done| |]; cbn [StopReplicationMethod_eqb andb]; [by apply (Hplain [])|].
  destruct (IsMariaDB replica); cbn [negb]; [by apply (Hplain [])|].
  unfold mbind, Prog_mbind.
  eapply follows_bind; [|apply nice_exact].
  intros a sent [->|[-> [i ->]]]; cbn beta iota; [by left|].
  apply (Hplain [_; _; _]).
Qed.

End Exact.

(** *** The calls a goroutine needs *)

Section Ends.
Context {W : Type}.
Variable env : Env W.
Variable config : Config.
Variable qsp : QueryStringProvider.
Variable Healthy : W → Prop.
Variable key : InstanceKey.
Hypothesis Hanswers : answers env qsp Healthy key.

Lemma ends_mono {A} (post : A → Prop) (p : Prog W A) :
  ∀ n n' : nat, (n ≤ n')%nat → ends Healthy n post p → ends Healthy n' post p.
Proof.
  induction p as [a|X m rest IH]; intros n n' Hle; cbn; [done|].
  destruct n as [|n]; [done|]. destruct n' as [|n']; [lia|].
  intros Hstep s Hs. destruct (Hstep s Hs) as [Hh Hrest]. split; [done|].
  eapply IH; [|done]. lia.
Qed.

Lemma ends_bind {A B} (post : A → Prop) (post' : B → Prop) (f : A → Prog W B)
    (k : nat) (p : Prog W A) :
  (∀ a, post a → ends Healthy k post' (f a)) →
  ∀ n : nat, ends Healthy n post p → ends Healthy (n + k) post' (p ≫= f).
Proof.
  intros Hf. induction p as [a|X m rest IH]; intros n; cbn.
  - intros Ha. eapply ends_mono; [|by apply Hf]. lia.
  - destruct n as [|n]; [done|]. cbn.
    intros Hstep s Hs. destruct (Hstep s Hs) as [Hh Hrest]. split; [done|]. by apply IH.
Qed.

Lemma ends_fmap {A B} (post : A → Prop) (post' : B → Prop) (f : A → B) (p : Prog W A) :
  (∀ a, post a → post' (f a)) →
  ∀ n : nat, ends Healthy n post p → ends Healthy n post' (f <$> p).
Proof.
  intros Hf. induction p as [a|X m rest IH]; intros n; cbn; [by auto|].
  destruct n as [|n]; [done|].
  intros Hstep s Hs. destruct (Hstep s Hs) as [Hh Hrest]. split; [done|]. by apply IH.
Qed.

Lemma ends_read_drained {A} (post : A → Prop) (rest : Result → Prog W A) (n : nat) :
  (∀ instance, drained qsp instance → ends Healthy n post (rest (Ok instance))) →
  ends Healthy (S n) post (Step (ReadTopologyInstance env key) rest).
Proof.
  intros Hrest s Hs. unfold ReadTopologyInstance, call.
  destruct (proj1 Hanswers (world s) Hs) as (instance & w' & -> & Hd & Hw'). cbn.
  split; [done|]. by apply Hrest.
Qed.

Lemma ends_exec_accepted {A} (post : A → Prop) query args
    (rest : option error → Prog W A) (n : nat) :
  ends Healthy n post (rest None) →
  ends Healthy (S n) post (Step (ExecInstance env key query args) rest).
Proof.
  intros Hrest s Hs. unfold ExecInstance, call.
  by destruct (proj2 (proj2 Hanswers) query args (world s) Hs) as (w' & -> & Hw').
Qed.

Lemma plain_ends :
  ends Healthy 3 (λ _, True) (StopReplication (T:=Prog W) env key).
Proof.
  unfold StopReplication. prog_steps.
  apply ends_read_drained. intros i (Hreplica & _). rewrite Hreplica. cbn [negb].
  apply ends_exec_accepted. cbn [maxScalePatch].
  apply ends_read_drained. by intros i2 _.
Qed.

Lemma nice_ends fuel timeout :
  (0 < fuel)%nat →
  ends Healthy 7 is_Some (StopReplicationNicely (T:=Prog W) env config fuel key timeout).
Proof.
  intros Hfuel.
  assert (∀ d, ends Healthy 2 is_Some (Some <$> stopNicelyTail (T:=Prog W) env key d))
    as Htail.
  { intros d. unfold stopNicelyTail. prog_steps.
    apply ends_exec_accepted. cbn [maxScalePatch].
    apply ends_read_drained. intros i2 _. cbn. by eexists. }
  unfold StopReplicationNicely. prog_steps.
  apply ends_read_drained. intros i (_ & Hexist & _). rewrite Hexist. cbn [negb].
  apply ends_exec_accepted. apply ends_exec_accepted.
  destruct (SQLDelay i =? 0); [|eapply ends_mono; [|apply Htail]; lia].
  unfold WaitForSQLThreadUpToDate. prog_steps.
  intros s0 Hs0. split; [done|]. cbn [fst].
  destruct fuel as [|fuel']; [lia|]. cbn [WaitForSQLThreadUpToDate_loop]. prog_steps.
  intros s Hs.
  destruct (proj1 (proj2 Hanswers) s Hs) as (d & s' & t & -> & Hd & Hs' & _).
  split; [done|]. cbn [fst].
  pose proof Hd as (_ & _ & Hup & _). rewrite Hup. cbn [Prog_bind]. apply Htail.
Qed.

Lemma task_ends fuel method timeout replica :
  Key replica = key → (0 < fuel)%nat →
  ends Healthy 10 is_Some (stopReplicaTask (T:=Prog W) env config fuel method timeout replica).
Proof.
  intros Hkey Hfuel.
  assert (ends Healthy 3 is_Some (Some <$> StopReplication (T:=Prog W) env key)) as Hplain.
  { eapply ends_fmap; [|apply plain_ends]. intros o _. by eexists. }
  unfold stopReplicaTask. rewrite Hkey.
  destruct (_ && _); [|eapply ends_mono; [|apply Hplain]; lia].
  unfold mbind, Prog_mbind.
  apply (ends_bind (λ a, is_Some a) _ _ 3 _) with (n := 7%nat); [|by apply nice_ends].
  intros [[r|]|] Ha; [apply Hplain|by eexists|by destruct Ha].
Qed.

End Ends.

(** *** The pool under a schedule *)

(** The number of goroutines in some state, when one of them moves. *)
Lemma count_insert {W : Type} (f : Goroutine W → bool) (l : list (Goroutine W)) :
  ∀ (i : nat) g g',
    l !! i = Some g →
    (List.length (List.filter f (<[i:=g']> l)) + (if f g then 1 else 0)
     = List.length (List.filter f l) + (if f g' then 1 else 0))%nat.
Proof.
  induction l as [|x l IH]; intros i g g' Hi; [done|].
  destruct i as [|i]; cbn in Hi.
  - simplify_eq. change (<[0%nat:=g']> (g :: l)) with (g' :: l). cbn [List.filter].
    destruct (f g), (f g'); cbn [List.length]; lia.
  - specialize (IH i g g' Hi).
    change (<[S i:=g']> (x :: l)) with (x :: <[i:=g']> l). cbn [List.filter].
    destruct (f x); cbn [List.length]; lia.
Qed.


Section PoolInvariant.
Context {W : Type}.
Variable env : Env W.
Variable config : Config.
Variable fuel : nat.
Variable method : StopReplicationMethod.
Variable timeout : Z.
Variable Healthy : W → Prop.
Variable inv : Instance → list Event → Prop.
Variable post : Instance → option Outcome → list Event → Prop.
Variable replicas : list Instance.
Hypothesis distinct : NoDup (Key <$> replicas).
Hypothesis tasks : ∀ replica,
  replica ∈ replicas →
  follows Healthy (Key replica) (inv replica) (post replica) []
    (stopReplicaTask (T:=Prog W) env config fuel method timeout replica).

Let ok := poolOK Healthy inv post replicas.

Lemma received_insert (l : list (Goroutine W)) (i : nat) g g' :
  l !! i = Some g →
  (List.length (List.filter isReceived (<[i:=g']> l)) + (if isReceived g then 1 else 0)
   = List.length (List.filter isReceived l) + (if isReceived g' then 1 else 0))%nat.
Proof. apply count_insert. Qed.

Lemma other_key (i j : nat) ri rj :
  replicas !! i = Some ri → replicas !! j = Some rj → i ≠ j → Key rj ≠ Key ri.
Proof.
  intros Hi Hj Hne Heq. apply Hne.
  eapply (NoDup_lookup _ _ _ _ distinct); rewrite list_lookup_fmap.
  - rewrite Hi. reflexivity.
  - rewrite Hj. cbn. by rewrite Heq.
Qed.

(** Goroutine [i] moves to [g'], adding [t] to the trace. *)
Lemma track_update (gs : list (Goroutine W)) (t0 t : list Event) (i : nat) ri g' :
  replicas !! i = Some ri →
  Forall (onlyTo (Key ri)) t →
  onTrack Healthy inv post replicas ri g' (sentTo (Key ri) (t0 ++ t)) →
  (∀ (j : nat) replica g, replicas !! j = Some replica → gs !! j = Some g →
     onTrack Healthy inv post replicas replica g (sentTo (Key replica) t0)) →
  ∀ (j : nat) replica g, replicas !! j = Some replica → <[i:=g']> gs !! j = Some g →
    onTrack Healthy inv post replicas replica g (sentTo (Key replica) (t0 ++ t)).
Proof.
  intros Hi Honly Hnew Hold j replica g Hj Hg.
  destruct (decide (i = j)) as [<-|Hne].
  - assert (replica = ri) as -> by congruence.
    apply list_lookup_insert_Some in Hg as [(_ & <- & _)|[? _]]; done.
  - rewrite list_lookup_insert_ne in Hg by done.
    rewrite sentTo_app, (sentTo_other (Key ri) (Key replica) t), app_nil_r;
      [by eapply Hold|done|].
    by eapply other_key.
Qed.

Lemma addressed_app (t0 t : list Event) (i : nat) ri :
  replicas !! i = Some ri →
  Forall (onlyTo (Key ri)) t →
  Forall (λ e, isStatement e = true →
               ∃ replica, replica ∈ replicas ∧ isStatementTo (Key replica) e = true) t0 →
  Forall (λ e, isStatement e = true →
               ∃ replica, replica ∈ replicas ∧ isStatementTo (Key replica) e = true)
         (t0 ++ t).
Proof.
  intros Hi Honly Hold. apply Forall_app. split; [done|].
  eapply Forall_impl; [exact Honly|]. intros e He Hs.
  exists ri. split; [by eapply list_elem_of_lookup_2|by apply He].
Qed.

Lemma advance_ok (i : nat) pool s :
  ok pool s →
  ok (advance env config fuel method timeout i pool s).1
     (advance env config fuel method timeout i pool s).2.
Proof.
  intros (Hh & Hlen & Htrack & Hto & Hdel & Hcount). unfold advance.
  destruct (goroutines pool !! i) as [g|] eqn:Hg; [|done].
  destruct (lookup_lt_is_Some_2 replicas i) as [ri Hi].
  { rewrite <- Hlen. by eapply lookup_lt_Some. }
  pose proof (Htrack i ri g Hi Hg) as Hgi.
  pose proof (track_update (goroutines pool) (trace s) [] i ri) as Hsame.
  rewrite app_nil_r in Hsame.
  destruct g as [r|r [[outcome|]|X m rest]|updated|]; cbn in Hgi.
  - destruct Hgi as [-> Hsent].
    destruct (tokens pool <? topologyConcurrency)%nat; [|done].
    split_and!; cbn; try done.
    + by rewrite length_insert.
    + apply Hsame; [done|constructor| |done]. cbn. split; [done|].
      rewrite Hsent. apply tasks. by eapply list_elem_of_lookup_2.
    + pose proof (received_insert (goroutines pool) i (Queued ri)
                    (Running ri (stopReplicaTask env config fuel method timeout ri)) Hg)
        as Hr.
      cbn in Hr. lia.
  - destruct Hgi as [-> Hpost].
    split_and!; cbn; try done.
    + by rewrite length_insert.
    + apply Hsame; [done|constructor| |done]. cbn. split.
      * exists ri, outcome, (sentTo (Key ri) (trace s)).
        split_and!; [by eapply list_elem_of_lookup_2|done|done].
      * by exists outcome.
    + pose proof (received_insert (goroutines pool) i (Running ri (Done (Some outcome)))
                    (Completed (updatedReplica ri outcome)) Hg) as Hr.
      cbn in Hr. lia.
  - done.
  - destruct Hgi as [-> [Hinv Hstep]].
    destruct (Hstep s Hh) as (t & Ht & Hh' & Honly & Hrest).
    destruct (m s) as [x s'] eqn:Hm. cbn in Ht, Hh', Hrest |- *.
    split_and!; cbn; try done.
    + by rewrite length_insert.
    + rewrite Ht. apply (track_update _ _ _ i ri); [done|done| |done].
      cbn. split; [done|]. by rewrite sentTo_app.
    + rewrite Ht. by eapply addressed_app.
    + pose proof (received_insert (goroutines pool) i (Running ri (Step m rest))
                    (Running ri (rest x)) Hg) as Hr.
      cbn in Hr. lia.
  - destruct Hgi as [Hdelivered Hfinished].
    split_and!; cbn; try done.
    + by rewrite length_insert.
    + apply Hsame; [done|constructor|done|done].
    + apply Forall_app. split; [done|]. by constructor.
    + pose proof (received_insert (goroutines pool) i (Completed updated) Received Hg) as Hr.
      cbn in Hr. rewrite length_app. cbn. lia.
  - done.
Qed.

Lemma runSchedule_ok schedule : ∀ pool s,
  ok pool s →
  ok (runSchedule env config fuel method timeout schedule pool s).1
     (runSchedule env config fuel method timeout schedule pool s).2.
Proof.
  induction schedule as [|i schedule IH]; intros pool s Hok; [done|].
  cbn [runSchedule]. unfold mbind, M_bind.
  pose proof (advance_ok i pool s Hok) as Hstep.
  destruct (advance env config fuel method timeout i pool s) as [pool1 s1].
  by apply IH.
Qed.

Lemma initial_ok (w : W) :
  Healthy w → ok (mkPool (Queued <$> replicas) 0 []) (mkState w []).
Proof.
  intros Hh.
  assert (∀ l : list Instance,
            List.filter isReceived (Queued (W:=W) <$> l) = []) as Hnone.
  { induction l as [|r l IH]; [done|]. exact IH. }
  split_and!; cbn; try done.
  - by rewrite length_fmap.
  - intros i replica g Hi Hg. rewrite list_lookup_fmap, Hi in Hg. cbn in Hg.
    by simplify_eq.
  - by rewrite Hnone.
Qed.

End PoolInvariant.

Lemma all_received {W : Type} (gs : list (Goroutine W)) :
  forallb isReceived gs = true →
  List.length (List.filter isReceived gs) = List.length gs
  ∧ ∀ (i : nat) g, gs !! i = Some g → g = Received.
Proof.
  induction gs as [|x gs IH]; cbn; [done|].
  intros [Hx Hgs]%andb_true_iff. destruct (IH Hgs) as [Hlen Hall].
  rewrite Hx. cbn. split; [by rewrite Hlen|].
  intros [|i] g Hg; cbn in Hg; [|by eapply Hall].
  simplify_eq. by destruct g.
Qed.

(** *** Every goroutine is received from *)

Lemma sum_list_insert (l : list nat) : ∀ (i b b' : nat),
  l !! i = Some b → (sum_list (<[i:=b']> l) + b = sum_list l + b')%nat.
Proof.
  induction l as [|x l IH]; intros i b b' Hi; [done|].
  destruct i as [|i]; cbn in Hi.
  - simplify_eq. change (<[0%nat:=b']> (b :: l)) with (b' :: l). cbn. lia.
  - specialize (IH i b b' Hi).
    change (<[S i:=b']> (x :: l)) with (x :: <[i:=b']> l). cbn. lia.
Qed.

Lemma forallb_false_lookup {A} (f : A → bool) (l : list A) :
  forallb f l = false → ∃ (i : nat) x, l !! i = Some x ∧ f x = false.
Proof.
  induction l as [|x l IH]; cbn; [done|].
  destruct (f x) eqn:Hx; cbn.
  - intros Hl. destruct (IH Hl) as (i & y & Hi & Hy). by exists (S i), y.
  - intros _. by exists 0%nat, x.
Qed.

Lemma filter_none {A} (f : A → bool) (l : list A) :
  (∀ (i : nat) x, l !! i = Some x → f x = false) → List.filter f l = [].
Proof.
  induction l as [|x l IH]; intros Hall; [done|]. cbn.
  rewrite (Hall 0%nat x eq_refl). apply IH. intros i y Hi. by apply (Hall (S i)).
Qed.

Lemma runSchedule_app {W : Type} (env : Env W) config fuel method timeout
    (r1 r2 : list nat) : ∀ pool s,
  runSchedule env config fuel method timeout (r1 ++ r2) pool s
  = runSchedule env config fuel method timeout r2
      (runSchedule env config fuel method timeout r1 pool s).1
      (runSchedule env config fuel method timeout r1 pool s).2.
Proof.
  induction r1 as [|i r1 IH]; intros pool s; [done|].
  cbn [runSchedule app]. unfold mbind, M_bind.
  destruct (advance env config fuel method timeout i pool s) as [pool1 s1]. apply IH.
Qed.

Section PoolProgress.
Context {W : Type}.
Variable env : Env W.
Variable config : Config.
Variable fuel : nat.
Variable method : StopReplicationMethod.
Variable timeout : Z.
Variable Healthy : W → Prop.

Let task := stopReplicaTask (T:=Prog W) env config fuel method timeout.
Let close := poolNear Healthy task.

Lemma stays (i : nat) (pool : Pool W) s :
  canMove pool i = false → advance env config fuel method timeout i pool s = (pool, s).
Proof.
  unfold canMove, advance.
  destruct (goroutines pool !! i) as [[r|r p|u|]|]; try done.
  by intros ->.
Qed.

(** A turn costs nothing, and a turn that changes the pool pays one from the
    budget. *)
Lemma advance_near (i : nat) pool s budget :
  close budget pool s →
  ∃ budget',
    close budget' (advance env config fuel method timeout i pool s).1
                  (advance env config fuel method timeout i pool s).2
    ∧ List.length budget' = List.length budget
    ∧ (sum_list budget' ≤ sum_list budget)%nat
    ∧ (canMove pool i = true → (sum_list budget' < sum_list budget)%nat).
Proof.
  subst close. unfold poolNear. intros (Hh & Htok & Hnear).
  destruct (canMove pool i) eqn:Hmove;
    [|rewrite stays by done; exists budget; by split_and!].
  unfold canMove in Hmove. unfold advance.
  destruct (goroutines pool !! i) as [g|] eqn:Hg; [|done].
  destruct (Forall2_lookup_l _ _ _ _ _ Hnear Hg) as (b & Hb & Hgb).
  pose proof (sum_list_insert budget i b (pred b) Hb) as Hsum.
  assert (∀ g', near Healthy task g' (pred b) →
            Forall2 (near Healthy task) (<[i:=g']> (goroutines pool)) (<[i:=pred b]> budget))
    as Hins by (intros g' Hg'; by apply Forall2_insert).
  exists (<[i:=pred b]> budget). rewrite length_insert.
  destruct g as [r|r [[outcome|]|X m rest]|updated|]; cbn in Hgb.
  - rewrite Hmove. destruct Hgb as (n & Hends & Hn). cbn.
    split_and!; [done| | |done|lia|lia].
    + pose proof (count_insert isRunning (goroutines pool) i (Queued r)
                    (Running r (stopReplicaTask env config fuel method timeout r)) Hg) as Hc.
      cbn in Hc. lia.
    + apply Hins. exists n. split; [done|lia].
  - destruct Hgb as (n & Hends & Hn). cbn.
    split_and!; [done| | |done|lia|lia].
    + pose proof (count_insert isRunning (goroutines pool) i (Running r (Done (Some outcome)))
                    (Completed (updatedReplica r outcome)) Hg) as Hc.
      cbn in Hc. lia.
    + apply Hins. cbn. lia.
  - destruct Hgb as (n & Hends & Hn). cbn in Hends. by destruct Hends.
  - destruct Hgb as (n & Hends & Hn). cbn in Hends.
    destruct n as [|n]; [done|]. destruct (Hends s Hh) as [Hh' Hrest].
    destruct (m s) as [x s'] eqn:Hm. cbn in Hh', Hrest |- *.
    split_and!; [done| | |done|lia|lia].
    + pose proof (count_insert isRunning (goroutines pool) i (Running r (Step m rest))
                    (Running r (rest x)) Hg) as Hc.
      cbn in Hc. lia.
    + apply Hins. exists n. split; [done|lia].
  - cbn.
    split_and!; [done| | |done|lia|lia].
    + pose proof (count_insert isRunning (goroutines pool) i (Completed updated)
                    Received Hg) as Hc.
      cbn in Hc. lia.
    + by apply Hins.
  - done.
Qed.

Lemma runSchedule_near schedule : ∀ pool s budget,
  close budget pool s →
  ∃ budget',
    close budget' (runSchedule env config fuel method timeout schedule pool s).1
                  (runSchedule env config fuel method timeout schedule pool s).2
    ∧ List.length budget' = List.length budget
    ∧ (sum_list budget' ≤ sum_list budget)%nat.
Proof.
  induction schedule as [|i schedule IH]; intros pool s budget Hclose.
  { exists budget. by split_and!. }
  cbn [runSchedule]. unfold mbind, M_bind.
  destruct (advance_near i pool s budget Hclose) as (b1 & Hb1 & Hlen1 & Hle1 & _).
  destruct (advance env config fuel method timeout i pool s) as [pool1 s1].
  destruct (IH pool1 s1 b1 Hb1) as (b2 & Hb2 & Hlen2 & Hle2).
  exists b2. split_and!; [done|congruence|lia].
Qed.

(** A schedule in which some goroutine that can move has a turn pays from
    the budget. *)
Lemma runSchedule_moves schedule : ∀ pool s budget,
  close budget pool s →
  (∃ j : nat, j ∈ schedule ∧ canMove pool j = true) →
  ∃ budget',
    close budget' (runSchedule env config fuel method timeout schedule pool s).1
                  (runSchedule env config fuel method timeout schedule pool s).2
    ∧ List.length budget' = List.length budget
    ∧ (sum_list budget' < sum_list budget)%nat.
Proof.
  induction schedule as [|i schedule IH]; intros pool s budget Hclose (j & Hj & Hmove).
  { by apply elem_of_nil in Hj. }
  cbn [runSchedule]. unfold mbind, M_bind.
  destruct (canMove pool i) eqn:Hi.
  - destruct (advance_near i pool s budget Hclose) as (b1 & Hb1 & Hlen1 & _ & Hlt).
    specialize (Hlt Hi).
    destruct (advance env config fuel method timeout i pool s) as [pool1 s1].
    destruct (runSchedule_near schedule pool1 s1 b1 Hb1) as (b2 & Hb2 & Hlen2 & Hle2).
    exists b2. split_and!; [done|congruence|lia].
  - rewrite stays by done. apply IH; [done|].
    exists j. split; [|done].
    apply elem_of_cons in Hj as [->|Hj]; [congruence|done].
Qed.

(** While a goroutine has not been received from, one can move. *)
Lemma someone_moves pool s budget :
  close budget pool s →
  forallb isReceived (goroutines pool) = false →
  ∃ j : nat, (j < List.length budget)%nat ∧ canMove pool j = true.
Proof.
  intros (Hh & Htok & Hnear) Hsome.
  pose proof (Forall2_length _ _ _ Hnear) as Hlen.
  destruct (forallb (λ g, negb (isRunning g || match g with Completed _ => true | _ => false end))
              (goroutines pool)) eqn:Hactive.
  - destruct (forallb_false_lookup _ _ Hsome) as (j & g & Hj & Hg).
    exists j. split; [rewrite <- Hlen; by eapply lookup_lt_Some|].
    assert (List.filter isRunning (goroutines pool) = []) as Hnone.
    { apply filter_none. intros i x Hx.
      rewrite forallb_forall in Hactive.
      specialize (Hactive x). rewrite <- list_elem_of_In in Hactive.
      specialize (Hactive (list_elem_of_lookup_2 _ _ _ Hx)).
      by destruct (isRunning x). }
    rewrite Hnone in Htok. unfold canMove. rewrite Hj, Htok.
    rewrite forallb_forall in Hactive.
    specialize (Hactive g). rewrite <- list_elem_of_In in Hactive.
    specialize (Hactive (list_elem_of_lookup_2 _ _ _ Hj)).
    by destruct g.
  - destruct (forallb_false_lookup _ _ Hactive) as (j & g & Hj & Hg).
    exists j. split; [rewrite <- Hlen; by eapply lookup_lt_Some|].
    unfold canMove. rewrite Hj. by destruct g.
Qed.

Lemma received_stay schedule : ∀ (pool : Pool W) s,
  forallb isReceived (goroutines pool) = true →
  runSchedule env config fuel method timeout schedule pool s = (pool, s).
Proof.
  induction schedule as [|i schedule IH]; intros pool s Hall; [done|].
  cbn [runSchedule]. unfold mbind, M_bind. rewrite stays; [by apply IH|].
  unfold canMove. destruct (goroutines pool !! i) as [g|] eqn:Hg; [|done].
  by rewrite (proj2 (all_received _ Hall) i g Hg).
Qed.

Lemma spent gs budget :
  Forall2 (near Healthy task) gs budget → sum_list budget = 0%nat →
  forallb isReceived gs = true.
Proof.
  induction 1 as [|g b gs budget Hg _ IH]; [done|]. cbn. intros Hsum.
  assert (b = 0%nat) as -> by lia.
  rewrite IH by lia.
  destruct g as [r|r p|u|]; cbn in Hg; [| |lia|done].
  - destruct Hg as (n & _ & Hn). lia.
  - destruct Hg as (n & _ & Hn). lia.
Qed.

(** Rounds enough for the budget leave no goroutine behind. *)
Lemma rounds_receive rounds : ∀ pool s budget,
  close budget pool s →
  fair (List.length budget) rounds →
  (sum_list budget ≤ List.length rounds)%nat →
  forallb isReceived
    (goroutines (runSchedule env config fuel method timeout (List.concat rounds) pool s).1)
  = true.
Proof.
  induction rounds as [|round rounds IH]; intros pool s budget Hclose Hfair Hsum.
  { cbn. eapply spent; [apply Hclose|]. cbn in Hsum. lia. }
  cbn [List.concat]. rewrite runSchedule_app.
  apply Forall_cons in Hfair as [Hround Hfair].
  destruct (forallb isReceived (goroutines pool)) eqn:Hall.
  { rewrite (received_stay round) by done. cbn [fst snd].
    by rewrite received_stay. }
  destruct (someone_moves pool s budget Hclose Hall) as (j & Hj & Hmove).
  destruct (runSchedule_moves round pool s budget Hclose) as (b1 & Hb1 & Hlen1 & Hlt).
  { exists j. split; [by apply Hround|done]. }
  apply (IH _ _ b1); [done|by rewrite Hlen1|]. cbn in Hsum. lia.
Qed.

End PoolProgress.

Lemma queued_not_running {W : Type} (l : list Instance) :
  List.filter isRunning (Queued (W:=W) <$> l) = [].
Proof. induction l as [|r l IH]; [done|]. exact IH. Qed.

Lemma sum_list_const {A} (n : nat) (l : list A) :
  sum_list ((λ _, n) <$> l) = (n * List.length l)%nat.
Proof. induction l as [|x l IH]; cbn; [lia|]. rewrite IH. lia. Qed.

Lemma treated_nil method replica : method ≠ NoStopReplication → treated method replica [].
Proof.
  assert (plainStop (Key replica) []) as Hplain by (by left).
  intros Hmethod. destruct method; cbn; [done|done|].
  destruct (IsMariaDB replica); [done|].
  exists [], []. split_and!; [done| |done].
  exists replica, replica. apply prefix_nil.
Qed.

(** The wait for the SQL thread returns a snapshot without an error only
    when the SQL thread is up to date in it. *)
Lemma wait_drained {W : Type} (env : Env W) (config : Config) key overall stale general :
  ∀ fuel staleDeadline last (s : State W) instance s',
    WaitForSQLThreadUpToDate_loop (T:=M W) env config fuel key overall stale
      general staleDeadline last s = (Some (Ok instance), s') →
    SQLThreadUpToDate instance = true.
Proof.
  induction fuel as [|fuel IH]; intros staleDeadline last s instance s'; [done|].
  cbn [WaitForSQLThreadUpToDate_loop]. unfold_monad.
  destruct (env_RetryInstanceFunction env _ s) as [[i|oi e] s1]; [|done].
  destruct (SQLThreadUpToDate i) eqn:Hup; [by intros [= <- _]|].
  destruct (negb (SQLDelay i =? 0)); [done|].
  destruct (general <=? _); [done|].
  destruct (_ <=? _); [done|].
  apply IH.
Qed.


(** *** The small world answers *)

Section ToyAnswers.
Import Fixtures.

Lemma lookup_update_other key key' (f : Server → Server) (l : list Server) :
  key' ≠ key → (∀ s, static (f s) = static s) →
  lookupServer key' (updateServer key f l) = lookupServer key' l.
Proof.
  intros Hne Hf. induction l as [|s l IH]; [done|]. cbn.
  destruct (InstanceKey_Equals (s_key (static s)) key) eqn:Hk; cbn.
  - rewrite Hf. destruct (InstanceKey_Equals (s_key (static s)) key') eqn:Hk'; [|done].
    apply InstanceKey_Equals_eq in Hk, Hk'. congruence.
  - destruct (InstanceKey_Equals (s_key (static s)) key'); [done|exact IH].
Qed.

Lemma tick_failing s : d_failing (dynamic (tick s)) = d_failing (dynamic s).
Proof. unfold tick. repeat case_match; done. Qed.

Lemma apply_failing query args d : d_failing (apply query args d) = d_failing d.
Proof. unfold apply. repeat case_match; done. Qed.

Lemma isReplica_static s s' : static s' = static s → isReplica s' = isReplica s.
Proof. unfold isReplica. by intros ->. Qed.

(** A change of the server of [key] that keeps what [bothAnswer] looks at. *)
Lemma bothAnswer_update key (f : Server → Server) (w : World) clock' :
  (∀ s, static (f s) = static s) →
  (∀ s, d_failing (dynamic s) = [] → d_failing (dynamic (f s)) = []) →
  bothAnswer w → bothAnswer (mkWorld (updateServer key f (servers w)) clock').
Proof.
  intros Hstatic Hfailing Hw k Hk. destruct (Hw k Hk) as (s & Hs & Hr & Hf). cbn.
  destruct (InstanceKey_Equals k key) eqn:Heq.
  - apply InstanceKey_Equals_eq in Heq as ->.
    rewrite StartUntil.lookup_update, Hs by done. cbn. eexists. split; [done|].
    split; [by rewrite (isReplica_static s)|by apply Hfailing].
  - rewrite lookup_update_other; [eauto| |done].
    intros ->. by rewrite InstanceKey_Equals_refl in Heq.
Qed.

Lemma toy_read_answers key (w : World) :
  key = key1 ∨ key = key2 → bothAnswer w →
  ∃ instance w', env_ReadTopologyInstance toyEnv key w = (Ok instance, w')
                 ∧ drained classicQSP instance ∧ bothAnswer w'.
Proof.
  intros Hkey Hw. destruct (Hw key Hkey) as (s & Hs & Hr & Hf).
  cbn. unfold read. rewrite Hs. eexists _, _. split; [done|]. split.
  - by repeat split.
  - apply bothAnswer_update; [apply StartUntil.tick_static| |done].
    intros s0. by rewrite tick_failing.
Qed.

Lemma toy_answers key :
  key = key1 ∨ key = key2 → answers toyEnv classicQSP bothAnswer key.
Proof.
  intros Hkey. split; [|split].
  - intros w Hw. by apply toy_read_answers.
  - intros s Hs. destruct (toy_read_answers key (world s) Hkey Hs) as (i & w' & Hr & Hd & Hw').
    exists i, (mkState w' (trace s ++ [EvReadTopologyInstance key])),
      [EvReadTopologyInstance key].
    cbn. unfold ReadTopologyInstance, call. cbn in Hr |- *. rewrite Hr.
    split_and!; try done. by repeat constructor.
  - intros query args w Hw. destruct (Hw key Hkey) as (s & Hs & Hr & Hf).
    cbn. unfold exec. rewrite Hs. unfold execute at 1. rewrite Hf. cbn.
    eexists. split; [done|].
    apply bothAnswer_update; [intros s0; apply StartUntil.execute_static| |done].
    intros s0 Hf0. unfold execute. rewrite Hf0. cbn. by rewrite apply_failing.
Qed.

End ToyAnswers.



End BulkStop.
